(** * potpieAI: the asynchronous pull-request review pipeline

    A shallow embedding of the Python sources

      - [app/ai_agent.py]       (the four analysis agents and their orchestrator),
      - [app/github_service.py] (the GitHub client),
      - [app/tasks.py]          (the Celery task [analyze_github_pr]),
      - [app/main.py]           (the HTTP endpoints),

    followed by the properties of the job pipeline that the specification
    states about them.

    Conventions of the embedding.

    - Python [str] is [string]; [len] is [String.length] read in [Z].
    - A Python [dict] with string keys is a [gmap string _]; [d.get(k)] is
      a lookup that yields [None] when the key is missing.
    - JSON values that reach the code are [PyVal]: [null], booleans,
      integers, floats (a finite float is [m * 2^e]; the infinities and NaN
      apart), strings, arrays and objects.  The contents of nested arrays
      and objects are not represented (the code never inspects them, it
      only fails to hash them).  An element of an agent's answer is a JSON
      object or something else; of something else only the name of its
      Python type is kept (the code only fails to unpack it).
    - Everything outside the process (GitHub over HTTP, the language model
      behind each agent, the clock, the construction of the model clients)
      is an oracle over an abstract [World] that is threaded through every
      call, so two calls with equal arguments may answer differently.
    - A raised exception is a value [Raise e]; [try/except] is a match on
      it.
    - The rows of the task table are a [gmap] from [task_id] to a record;
      [db.commit()] after a mutation of a loaded row is an insert, and
      every committed row is also appended to a history, so that the
      intermediate states of a job can be talked about.
    - Calls of the GitHub client and of the agents are appended, with
      their arguments and answers, to a call log.  The log and the history
      are ghost state: no decision of the code reads them.
    - Logging is not modelled. *)

From stdpp Require Import base option list gmap strings pretty fin_maps.
From Stdlib Require Import ZArith Lia Ascii.

Local Open Scope string_scope.
Local Open Scope list_scope.
Local Open Scope Z_scope.

(** ** Python values and exceptions *)

Inductive PyVal :=
| PyNone
| PyBool (b : bool)
| PyInt (z : Z)
| PyFloat (m e : Z)           (* the finite float m * 2^e *)
| PyInf (negative : bool)     (* float('inf'), float('-inf') *)
| PyNaN                       (* float('nan') *)
| PyStr (s : string)
| PyList
| PyDict.

Record PyExc := mkExc {
  exc_class : string;
  exc_str : string            (* str(e) *)
}.

Inductive Result (A : Type) :=
| Ok (a : A)
| Raise (e : PyExc).
Arguments Ok {A} a.
Arguments Raise {A} e.

(** The finite numbers, as [m * 2^e]: [bool] is a subclass of [int]. *)
Definition numeric (x : PyVal) : option (Z * Z) :=
  match x with
  | PyBool b => Some (if b then 1 else 0, 0)
  | PyInt z => Some (z, 0)
  | PyFloat m e => Some (m, e)
  | _ => None
  end.

(** Whether [a.1 * 2^a.2] and [b.1 * 2^b.2] are the same number. *)
Definition dyadic_eqb (a b : Z * Z) : bool :=
  let e := Z.min a.2 b.2 in
  a.1 * 2 ^ (a.2 - e) =? b.1 * 2 ^ (b.2 - e).

(** [x == y] on the values above, for two distinct objects: numbers are
    compared by value across [bool], [int] and [float] (so [True == 1] and
    [3.0 == 3]); NaN equals nothing; values of unrelated types differ.
    Lists and dicts are never compared by the code, which fails to hash
    them first. *)
Definition py_eqb (x y : PyVal) : bool :=
  match numeric x, numeric y with
  | Some a, Some b => dyadic_eqb a b
  | None, None =>
      match x, y with
      | PyNone, PyNone => true
      | PyInf a, PyInf b => Bool.eqb a b
      | PyStr a, PyStr b => String.eqb a b
      | _, _ => false
      end
  | _, _ => false
  end.

(** [hash(x)]: lists and dicts are unhashable. *)
Definition py_hash_check (x : PyVal) : option PyExc :=
  match x with
  | PyList => Some (mkExc "TypeError" "unhashable type: 'list'")
  | PyDict => Some (mkExc "TypeError" "unhashable type: 'dict'")
  | _ => None
  end.

(** ** String helpers: [len], slicing, [in], [endswith], [rstrip], [split],
    [replace] *)

Definition len (s : string) : Z := Z.of_nat (String.length s).

(** [s[:n]] *)
Fixpoint str_take (n : nat) (s : string) : string :=
  match n, s with
  | S k, String c r => String c (str_take k r)
  | _, _ => ""
  end.

(** [s[n:]] *)
Fixpoint str_drop (n : nat) (s : string) : string :=
  match n, s with
  | S k, String _ r => str_drop k r
  | _, _ => s
  end.

(** [sub in s] *)
Fixpoint str_contains (sub s : string) : bool :=
  String.prefix sub s ||
  match s with
  | "" => false
  | String _ r => str_contains sub r
  end.

(** [s.endswith(ext)] *)
Definition str_endswith (s ext : string) : bool :=
  (String.length ext <=? String.length s)%nat &&
  String.eqb (str_drop (String.length s - String.length ext) s) ext.

(** [s.rstrip('/')] *)
Fixpoint rstrip_slash (s : string) : string :=
  match s with
  | "" => ""
  | String c r =>
      let r' := rstrip_slash r in
      if String.eqb r' "" && Ascii.eqb c "/"%char then "" else String c r'
  end.

(** [s.split('/')] *)
Fixpoint split_slash (s : string) : list string :=
  match s with
  | "" => [""]
  | String c r =>
      match split_slash r with
      | p :: ps => if Ascii.eqb c "/"%char then "" :: p :: ps else String c p :: ps
      | [] => [String c ""]
      end
  end.

(** [s.replace('.git', '')]: occurrences are removed left to right, without
    overlap; [skip] counts the characters of a match still to be dropped. *)
Fixpoint remove_dot_git_from (skip : nat) (s : string) : string :=
  match s with
  | "" => ""
  | String c r =>
      match skip with
      | S k => remove_dot_git_from k r
      | O => if String.prefix ".git" s then remove_dot_git_from 3 r
             else String c (remove_dot_git_from 0 r)
      end
  end.

Definition remove_dot_git (s : string) : string := remove_dot_git_from 0 s.

(** [parts[-2], parts[-1]]; [None] stands for the [IndexError]. *)
Definition last_two (parts : list string) : option (string * string) :=
  match rev parts with
  | repo :: owner :: _ => Some (owner, repo)
  | _ => None
  end.

(** ** Data shared by the modules *)

(** The four agents, in the order in which the orchestrator runs them. *)
Inductive AgentKind := StyleAgent | BugAgent | PerformanceAgent | BestPracticesAgent.

(** The ['type'] that the orchestrator stamps on the issues of an agent. *)
Definition issue_type (k : AgentKind) : string :=
  match k with
  | StyleAgent => "style"
  | BugAgent => "bug"
  | PerformanceAgent => "performance"
  | BestPracticesAgent => "best_practice"
  end.

(** An issue is a JSON object (['line'], ['type'], ['description'],
    ['suggestion'], and whatever else the model emitted). *)
Abbreviation Issue := (gmap string PyVal).

(** An element of the list that an agent returns: [json.loads] may have
    made anything of the model's array.  [type_name] is
    [type(x).__name__] of an element that is not a dict. *)
Inductive Element :=
| Object (issue : Issue)
| NotObject (type_name : string).

(** An entry of GitHub's list of the files of a pull request; only its
    string-valued fields (['filename'], ['status'], ['patch'], ...) are
    kept. *)
Abbreviation FileData := (gmap string string).

(** [d.get(k)] on an issue: a missing key reads as [None]. *)
Definition py_get (d : Issue) (k : string) : PyVal := default PyNone (d !! k).

Record FileResult := mkFileResult {
  name : string;
  issues : list Issue
}.

Record Summary := mkSummary {
  total_files : Z;
  total_issues : Z;
  critical_issues : Z;
  agent_used : string
}.

Record AnalysisResult := mkAnalysisResult {
  files : list FileResult;
  summary : Summary
}.

(** What [requests.get] can do: raise (connection error, timeout), or
    answer with a status and a body; [json = None] is a body on which
    [response.json()] raises. *)
Inductive HttpResult (A : Type) :=
| RequestFailed (e : PyExc)
| Response (status_code : Z) (json : option A).
Arguments RequestFailed {A} e.
Arguments Response {A} status_code json.

(** The JSON object of GitHub's contents endpoint, as far as
    [get_file_content] looks at it: whether it has a ['content'] key, and
    whether base64 and UTF-8 decoding of it succeed. *)
Inductive ContentsData :=
| NoContentKey
| ContentUndecodable
| ContentText (text : string).

(** The oracles.  The two [requests.get] oracles receive the token and the
    components from which the code builds the URL. *)
Record Env (World : Type) := mkEnv {
  requests_get_pull_files :
    option string -> string -> string -> Z -> World -> HttpResult (list FileData) * World;
  requests_get_contents :
    option string -> string -> string -> string -> string -> World -> HttpResult ContentsData * World;
  (* agent.analyze(code, filename): each agent catches every exception of
     its own and returns a list, of whatever the parser made of the
     model's array. *)
  agent_analyze : AgentKind -> string -> string -> World -> list Element * World;
  (* ChatOllama(...) four times; may raise. *)
  new_chat_clients : World -> option PyExc * World;
  utcnow : World -> Z * World;
  (* the default of the task_id column *)
  new_task_id : World -> string * World;
  json_dumps : AnalysisResult -> string
}.
Arguments requests_get_pull_files {World} _.
Arguments requests_get_contents {World} _.
Arguments agent_analyze {World} _.
Arguments new_chat_clients {World} _.
Arguments utcnow {World} _.
Arguments new_task_id {World} _.
Arguments json_dumps {World} _.

(** The call log. *)
Inductive Call :=
| CallGetPRFiles (repo_url : string) (pr_number : Z) (returned : list FileData)
| CallGetFileContent (repo_url ref file_path : string) (returned : option string)
| CallAnalyze (agent : AgentKind) (code filename : string) (returned : list Element).

#[global] Instance PyVal_eq_dec : EqDecision PyVal.
Proof. solve_decision. Defined.

#[global] Instance Element_eq_dec : EqDecision Element.
Proof. solve_decision. Defined.

#[global] Instance AgentKind_eq_dec : EqDecision AgentKind.
Proof. solve_decision. Defined.

#[global] Instance Call_eq_dec : EqDecision Call.
Proof. solve_decision. Defined.

(** ** A state-and-exception monad *)

Definition M (St A : Type) : Type := St -> Result A * St.

Definition ret {St A} (a : A) : M St A := fun st => (Ok a, st).

Definition raise {St A} (e : PyExc) : M St A := fun st => (Raise e, st).

Definition bind {St A B} (m : M St A) (k : A -> M St B) : M St B :=
  fun st =>
    match m st with
    | (Ok a, st') => k a st'
    | (Raise e, st') => (Raise e, st')
    end.

(** A computation without effects that may raise. *)
Definition lift {St A} (r : Result A) : M St A := fun st => (r, st).

(** [try: m  except Exception as e: h(e)] *)
Definition try_except {St A} (m : M St A) (h : PyExc -> M St A) : M St A :=
  fun st =>
    match m st with
    | (Ok a, st') => (Ok a, st')
    | (Raise e, st') => h e st'
    end.

Declare Scope py_scope.
Delimit Scope py_scope with py.
Notation "x <- m ;; k" := (bind m (fun x => k))
  (at level 100, m at next level, right associativity) : py_scope.
Notation "m ;;; k" := (bind m (fun _ => k))
  (at level 100, right associativity) : py_scope.

(** The state of the service layer: the world and the call log. *)
Record Svc (World : Type) := mkSvc {
  world : World;
  calls : list Call
}.
Arguments mkSvc {World} world calls.
Arguments world {World} _.
Arguments calls {World} _.

(** Ask an oracle. *)
Definition ask {World A} (f : World -> A * World) : M (Svc World) A :=
  fun s => let '(a, w) := f (world s) in (Ok a, mkSvc w (calls s)).

(** Append to the call log. *)
Definition record_call {World} (c : Call) : M (Svc World) unit :=
  fun s => (Ok tt, mkSvc (world s) (calls s ++ [c])).

(** ** app/ai_agent.py *)

Module ai_agent.

(** The key under which [analyze_file] remembers an issue:
    [(issue.get('line'), issue.get('description'))]. *)
Definition issue_key (issue : Issue) : PyVal * PyVal :=
  (py_get issue "line", py_get issue "description").

(** Equality of two such tuples. *)
Definition key_eqb (k1 k2 : PyVal * PyVal) : bool :=
  py_eqb k1.1 k2.1 && py_eqb k1.2 k2.2.

(** Hashing the tuple hashes its components, left to right. *)
Definition key_hash_check (k : PyVal * PyVal) : option PyExc :=
  match py_hash_check k.1 with
  | Some e => Some e
  | None => py_hash_check k.2
  end.

(** [key in seen]; the set [seen] is kept as the list of the keys added. *)
Definition key_in (k : PyVal * PyVal) (seen : list (PyVal * PyVal)) : bool :=
  existsb (key_eqb k) seen.

(** The loop [for issue in all_issues: ...] of [analyze_file], with its two
    accumulators. *)
Fixpoint unique_loop (all_issues : list Issue) (seen : list (PyVal * PyVal))
    (unique_issues : list Issue) : Result (list Issue) :=
  match all_issues with
  | [] => Ok unique_issues
  | issue :: rest =>
      let key := issue_key issue in
      match key_hash_check key with
      | Some e => Raise e
      | None =>
          if negb (key_in key seen)
          then unique_loop rest (key :: seen) (unique_issues ++ [issue])
          else unique_loop rest seen unique_issues
      end
  end.

(** [[{**issue, 'type': t} for issue in agent_issues]]: unpacking an
    element that is not a mapping raises, and the comprehension with it. *)
Fixpoint stamp (k : AgentKind) (agent_issues : list Element) : Result (list Issue) :=
  match agent_issues with
  | [] => Ok []
  | Object issue :: rest =>
      match stamp k rest with
      | Ok stamped => Ok (<["type" := PyStr (issue_type k)]> issue :: stamped)
      | Raise e => Raise e
      end
  | NotObject type_name :: _ =>
      Raise (mkExc "TypeError" ("'" +:+ type_name +:+ "' object is not a mapping"))
  end.

Definition code_extensions : list string :=
  [".py"; ".js"; ".ts"; ".tsx"; ".jsx"; ".java"; ".go"; ".rs";
   ".cpp"; ".c"; ".rb"; ".php"; ".swift"; ".kt"; ".scala"; ".sh"].

Definition _is_code_file (filename : string) : bool :=
  existsb (fun ext => str_endswith filename ext) code_extensions.

Section Orchestrator.
Context {World : Type} (E : Env World).
Local Open Scope py_scope.

(** [agent.analyze(code, filename)] *)
Definition analyze (agent : AgentKind) (code filename : string)
    : M (Svc World) (list Element) :=
  r <- ask (agent_analyze E agent code filename) ;;
  record_call (CallAnalyze agent code filename r) ;;;
  ret r.

Definition analyze_file (code filename : string) : M (Svc World) FileResult :=
  let all_issues := [] in
  style_issues <- analyze StyleAgent code filename ;;
  stamped <- lift (stamp StyleAgent style_issues) ;;
  let all_issues := all_issues ++ stamped in
  bug_issues <- analyze BugAgent code filename ;;
  stamped <- lift (stamp BugAgent bug_issues) ;;
  let all_issues := all_issues ++ stamped in
  perf_issues <- analyze PerformanceAgent code filename ;;
  stamped <- lift (stamp PerformanceAgent perf_issues) ;;
  let all_issues := all_issues ++ stamped in
  bp_issues <- analyze BestPracticesAgent code filename ;;
  stamped <- lift (stamp BestPracticesAgent bp_issues) ;;
  let all_issues := all_issues ++ stamped in
  match unique_loop all_issues [] [] with
  | Raise e => raise e
  | Ok unique_issues => ret {| name := filename; issues := take 10 unique_issues |}
  end.

(** The loop [for file_data in pr_files: ...] of [analyze_pr]. *)
Fixpoint analyze_pr_loop (pr_files : list FileData) (file_contents : gmap string string)
    (all_issues : list Issue) (results_files : list FileResult)
    : M (Svc World) (list Issue * list FileResult) :=
  match pr_files with
  | [] => ret (all_issues, results_files)
  | file_data :: rest =>
      let filename := default "" (file_data !! "filename") in
      if negb (_is_code_file filename)
      then analyze_pr_loop rest file_contents all_issues results_files
      else
        match file_contents !! filename with
        | None => analyze_pr_loop rest file_contents all_issues results_files
        | Some code =>
            if len code =? 0
            then analyze_pr_loop rest file_contents all_issues results_files
            else
              let code :=
                if 10000 <? len code then str_take (Z.to_nat 10000) code else code in
              analysis <- analyze_file code filename ;;
              match issues analysis with
              | [] => analyze_pr_loop rest file_contents all_issues results_files
              | _ :: _ =>
                  analyze_pr_loop rest file_contents
                    (all_issues ++ issues analysis) (results_files ++ [analysis])
              end
        end
  end.

Definition analyze_pr (pr_files : list FileData) (file_contents : gmap string string)
    : M (Svc World) AnalysisResult :=
  acc <- analyze_pr_loop pr_files file_contents [] [] ;;
  let all_issues := acc.1 in
  let results_files := acc.2 in
  let critical_issues :=
    Z.of_nat (length (List.filter
      (fun i => py_eqb (py_get i "type") (PyStr "bug")) all_issues)) in
  let summary := {|
    total_files := Z.of_nat (length results_files);
    total_issues := Z.of_nat (length all_issues);
    critical_issues := critical_issues;
    agent_used := "LangChain Multi-Agent (Ollama)"
  |} in
  ret {| files := results_files; summary := summary |}.

End Orchestrator.

End ai_agent.

(** *** The four agent classes

    [StyleAnalysisAgent], [BugAnalysisAgent], [PerformanceAnalysisAgent]
    and [BestPracticesAnalysisAgent] have the same [analyze], up to the
    texts of the two messages; the class is the [AgentKind].  The language
    model is an oracle that is given the class (for the texts), the file
    name and the code, and answers with the content of the response or
    raises. *)

Module Agent.

(** [c.isspace()] for the first 256 code points. *)
Definition is_space (c : ascii) : bool :=
  let n := nat_of_ascii c in
  ((9 <=? n) && (n <=? 13) || (28 <=? n) && (n <=? 32) || (n =? 133) || (n =? 160))%nat.

(** [s.lstrip()] *)
Fixpoint lstrip (s : string) : string :=
  match s with
  | "" => ""
  | String c r => if is_space c then lstrip r else s
  end.

(** [s.rstrip()] *)
Fixpoint rstrip (s : string) : string :=
  match s with
  | "" => ""
  | String c r =>
      let r' := rstrip r in
      if String.eqb r' "" && is_space c then "" else String c r'
  end.

(** [s.strip()] *)
Definition strip (s : string) : string := rstrip (lstrip s).

(** [s.find(c)]; [None] is -1. *)
Fixpoint find (c : ascii) (s : string) : option nat :=
  match s with
  | "" => None
  | String d r => if Ascii.eqb d c then Some O else S <$> find c r
  end.

(** [s.rfind(c)]; [None] is -1. *)
Fixpoint rfind (c : ascii) (s : string) : option nat :=
  match s with
  | "" => None
  | String d r =>
      match rfind c r with
      | Some i => Some (S i)
      | None => if Ascii.eqb d c then Some O else None
      end
  end.

(** [s[i:j]] for indices within the string. *)
Definition slice (s : string) (i j : nat) : string := str_take (j - i) (str_drop i s).

(** "Extract JSON from response": [None] when the guard
    ['[' in text and ']' in text] fails, else
    [text[text.find('['):text.rfind(']')+1]]. *)
Definition json_candidate (text : string) : option string :=
  match find "[" text, rfind "]" text with
  | Some i, Some j => Some (slice text i (j + 1))
  | _, _ => None
  end.

Section Analyze.
Context {World : Type}.
(** [self.llm.invoke(messages).content] *)
Context (llm_invoke : AgentKind -> string -> string -> World -> Result string * World).
(** [json.loads] of the candidate.  The candidate is empty or starts with
    '[', so what parses is a list, of elements of any kind; the parser
    may raise a [JSONDecodeError] or anything else. *)
Context (json_loads : string -> Result (list Element)).
Local Open Scope py_scope.

(** The [try] block of [analyze]. *)
Definition analyze_try (agent : AgentKind) (code filename : string)
    : M (Svc World) (list Element) :=
  response <- ask (llm_invoke agent filename code) ;;
  match response with
  | Raise e => raise e
  | Ok content =>
      let text := strip content in
      match json_candidate text with
      | Some json_str => lift (json_loads json_str)
      | None => ret []
      end
  end.

(** [except Exception as e: ... return []] *)
Definition analyze (agent : AgentKind) (code filename : string)
    : M (Svc World) (list Element) :=
  try_except (analyze_try agent code filename) (fun _ => ret []).

End Analyze.

End Agent.

(** ** app/github_service.py *)

Module github_service.

(** [parts = repo_url.rstrip('/').split('/')] *)
Definition url_parts (repo_url : string) : list string :=
  split_slash (rstrip_slash repo_url).

(** [response.raise_for_status()] raises for the statuses 400 to 599.  The
    text of the exceptions raised inside the client does not matter: the
    client catches them all. *)
Definition raises_for_status (status_code : Z) : bool :=
  (400 <=? status_code) && (status_code <? 600).

Section GitHubService.
Context {World : Type} (E : Env World).
(** [self.token] *)
Variable token : option string.
Local Open Scope py_scope.

(** The [try] block of [get_pr_files]. *)
Definition get_pr_files_try (repo_url : string) (pr_number : Z)
    : M (Svc World) (list FileData) :=
  let parts := url_parts repo_url in
  if (length parts <? 2)%nat then ret []
  else
    match last_two parts with
    | None => raise (mkExc "IndexError" "list index out of range")
    | Some (owner, repo) =>
        let repo := remove_dot_git repo in
        response <- ask (requests_get_pull_files E token owner repo pr_number) ;;
        match response with
        | RequestFailed e => raise e
        | Response status_code json =>
            if raises_for_status status_code
            then raise (mkExc "HTTPError" "HTTP error")
            else
              match json with
              | None => raise (mkExc "JSONDecodeError" "invalid JSON")
              | Some files => ret files
              end
        end
    end.

(** Both [except] clauses of [get_pr_files] return the empty list. *)
Definition get_pr_files (repo_url : string) (pr_number : Z)
    : M (Svc World) (list FileData) :=
  files <- try_except (get_pr_files_try repo_url pr_number) (fun _ => ret []) ;;
  record_call (CallGetPRFiles repo_url pr_number files) ;;;
  ret files.

(** The [try] block of [get_file_content]. *)
Definition get_file_content_try (repo_url ref file_path : string)
    : M (Svc World) (option string) :=
  match last_two (url_parts repo_url) with
  | None => raise (mkExc "IndexError" "list index out of range")
  | Some (owner, repo) =>
      let repo := remove_dot_git repo in
      response <- ask (requests_get_contents E token owner repo file_path ref) ;;
      match response with
      | RequestFailed e => raise e
      | Response status_code json =>
          if status_code =? 404 then ret None
          else if raises_for_status status_code
          then raise (mkExc "HTTPError" "HTTP error")
          else
            match json with
            | None => raise (mkExc "JSONDecodeError" "invalid JSON")
            | Some NoContentKey => ret None
            | Some ContentUndecodable => raise (mkExc "ValueError" "cannot decode")
            | Some (ContentText content) => ret (Some content)
            end
      end
  end.

Definition get_file_content (repo_url ref file_path : string)
    : M (Svc World) (option string) :=
  content <- try_except (get_file_content_try repo_url ref file_path)
               (fun _ => ret None) ;;
  record_call (CallGetFileContent repo_url ref file_path content) ;;;
  ret content.

End GitHubService.

End github_service.

(** ** The task table *)

(** A row of [CodeReviewTask].  The class itself ([app/models.py]) is not
    among the sources; the columns are the ones the code reads and
    writes. *)
Record CodeReviewTask := mkTask {
  task_id : string;
  repo_url : string;
  pr_number : string;
  status : string;
  results : option string;
  error_message : option string;
  created_at : option Z;
  updated_at : option Z
}.

(** The state of a worker or of a request handler: the service layer, the
    table, and the history of committed rows. *)
Record TaskState (World : Type) := mkTaskState {
  svc : Svc World;
  db : gmap string CodeReviewTask;
  history : list CodeReviewTask
}.
Arguments mkTaskState {World} svc db history.
Arguments svc {World} _.
Arguments db {World} _.
Arguments history {World} _.

(** Run a computation of the service layer. *)
Definition in_svc {World A} (m : M (Svc World) A) : M (TaskState World) A :=
  fun st => let '(r, s) := m (svc st) in (r, mkTaskState s (db st) (history st)).

(** [db.query(CodeReviewTask).filter(CodeReviewTask.task_id == task_id).first()] *)
Definition query_first {World} (id : string) : M (TaskState World) (option CodeReviewTask) :=
  fun st => (Ok (db st !! id), st).

(** [db.commit()] after the row found under [id] (or added under it) has
    been changed to [task]. *)
Definition commit {World} (id : string) (task : CodeReviewTask) : M (TaskState World) unit :=
  fun st => (Ok tt, mkTaskState (svc st) (<[id := task]> (db st)) (history st ++ [task])).

(** ** app/tasks.py *)

Module tasks.

(** How an execution of the Celery task ends. *)
Inductive TaskOutcome :=
| Returned (analysis_results : AnalysisResult)
| Raised (e : PyExc)
| RetryScheduled (countdown : Z) (e : PyExc).

(** [@celery_app.task(..., max_retries=2)] *)
Definition max_retries : nat := 2.

(** [raise self.retry(exc=e, countdown=...)] in an execution whose request
    has been retried [request_retries] times already: Celery re-queues the
    task and raises [Retry], unless that would exceed [max_retries], in
    which case it raises [exc]. *)
Definition retry (request_retries : nat) (exc : PyExc) (countdown : Z) : TaskOutcome :=
  let retries := S request_retries in
  if (max_retries <? retries)%nat then Raised exc
  else RetryScheduled countdown exc.

Section Task.
Context {World : Type} (E : Env World).
Local Open Scope py_scope.

Definition mark_processing (task : CodeReviewTask) (now : Z) : CodeReviewTask :=
  {| task_id := task_id task; repo_url := repo_url task; pr_number := pr_number task;
     status := "processing";
     results := results task; error_message := error_message task;
     created_at := created_at task; updated_at := Some now |}.

Definition mark_completed (task : CodeReviewTask) (payload : string) (now : Z)
    : CodeReviewTask :=
  {| task_id := task_id task; repo_url := repo_url task; pr_number := pr_number task;
     status := "completed";
     results := Some payload; error_message := None;
     created_at := created_at task; updated_at := Some now |}.

Definition mark_failed (task : CodeReviewTask) (message : string) (now : Z)
    : CodeReviewTask :=
  {| task_id := task_id task; repo_url := repo_url task; pr_number := pr_number task;
     status := "failed";
     results := results task; error_message := Some message;
     created_at := created_at task; updated_at := Some now |}.

(** The loop [for file_data in pr_files[:15]: ...]; [files] is the slice. *)
Fixpoint fetch_loop (github_token : option string) (repo_url : string) (pr_number : Z)
    (files : list FileData) (file_contents : gmap string string)
    : M (Svc World) (gmap string string) :=
  match files with
  | [] => ret file_contents
  | file_data :: rest =>
      let filename := default "" (file_data !! "filename") in
      file_contents <-
        try_except
          (content <- github_service.get_file_content E github_token repo_url
                        ("pull/" +:+ pretty pr_number +:+ "/head") filename ;;
           match content with
           | Some text =>
               if negb (len text =? 0) && (len text <? 100000)
               then ret (<[filename := text]> file_contents)
               else ret file_contents
           | None => ret file_contents
           end)
          (fun _ => ret file_contents) ;;
      fetch_loop github_token repo_url pr_number rest file_contents
  end.

(** "Update status to processing" *)
Definition update_status_processing (id : string) : M (TaskState World) unit :=
  task <- query_first id ;;
  match task with
  | Some task =>
      now <- in_svc (ask (utcnow E)) ;;
      commit id (mark_processing task now)
  | None => ret tt
  end.

(** "Step 1: Fetch PR files", "Step 2: Get file contents" and "Step 3: Run
    multi-agent analysis".  None of them touches the table. *)
Definition fetch_and_analyze (repo_url : string) (pr_number : Z)
    (github_token : option string) : M (Svc World) AnalysisResult :=
  pr_files <- github_service.get_pr_files E github_token repo_url pr_number ;;
  match pr_files with
  | [] =>
      raise (mkExc "Exception"
        "No code files found in PR or PR not accessible (may need valid GitHub token)")
  | _ :: _ => ret tt
  end ;;;
  file_contents <- fetch_loop github_token repo_url pr_number (take 15 pr_files) ∅ ;;
  failure <- ask (new_chat_clients E) ;;
  match failure with Some e => raise e | None => ret tt end ;;;
  ai_agent.analyze_pr E pr_files file_contents.

(** "Step 4: Update task with results" *)
Definition update_task_with_results (id : string) (analysis_results : AnalysisResult)
    : M (TaskState World) unit :=
  task <- query_first id ;;
  match task with
  | Some task =>
      now <- in_svc (ask (utcnow E)) ;;
      commit id (mark_completed task (json_dumps E analysis_results) now)
  | None => ret tt
  end.

(** The [try] block of [analyze_github_pr]. *)
Definition analyze_github_pr_try (id repo_url : string) (pr_number : Z)
    (github_token : option string) : M (TaskState World) AnalysisResult :=
  update_status_processing id ;;;
  analysis_results <- in_svc (fetch_and_analyze repo_url pr_number github_token) ;;
  update_task_with_results id analysis_results ;;;
  ret analysis_results.

(** Whether the handler re-raises instead of retrying:
    ["not configured" in str(e) or "No code files" in str(e)]. *)
Definition reraised (e : PyExc) : bool :=
  str_contains "not configured" (exc_str e) || str_contains "No code files" (exc_str e).

(** The inner [try] of the handler: the failure is written to the row,
    if there is one. *)
Definition record_failure (id : string) (e : PyExc) : M (TaskState World) unit :=
  task <- query_first id ;;
  match task with
  | Some task =>
      now <- in_svc (ask (utcnow E)) ;;
      commit id (mark_failed task (exc_str e) now)
  | None => ret tt
  end.

(** The task, executed for a request with [request_retries] retries behind
    it. *)
Definition analyze_github_pr (request_retries : nat) (id repo_url : string)
    (pr_number : Z) (github_token : option string)
    : TaskState World -> TaskOutcome * TaskState World :=
  fun st =>
    match analyze_github_pr_try id repo_url pr_number github_token st with
    | (Ok analysis_results, st) => (Returned analysis_results, st)
    | (Raise e, st) =>
        let st := (record_failure id e st).2 in
        if reraised e then (Raised e, st)
        else (retry request_retries e 5, st)
    end.

(** The worker side of the queue: the task is executed, and executed
    again each time it has re-queued itself.  [deliveries] bounds the
    number of executions. *)
Fixpoint deliver (deliveries : nat) (request_retries : nat) (id repo_url : string)
    (pr_number : Z) (github_token : option string) (st : TaskState World)
    : list TaskOutcome * TaskState World :=
  match deliveries with
  | O => ([], st)
  | S deliveries =>
      let '(outcome, st) :=
        analyze_github_pr request_retries id repo_url pr_number github_token st in
      match outcome with
      | RetryScheduled _ _ =>
          let '(outcomes, st) :=
            deliver deliveries (S request_retries) id repo_url pr_number github_token st in
          (outcome :: outcomes, st)
      | _ => ([outcome], st)
      end
  end.

End Task.

End tasks.

(** ** app/main.py *)

Module main.

(** [AnalyzePRRequest] *)
Record AnalyzePRRequest := mkRequest {
  req_repo_url : string;
  req_pr_number : Z;
  req_github_token : option string
}.

(** [raise HTTPException(status_code=..., detail=...)] *)
Definition HTTPException (status_code : Z) (detail : string) : PyExc :=
  mkExc ("HTTPException " +:+ pretty status_code) detail.

Section Endpoints.
Context {World : Type} (E : Env World).
Local Open Scope py_scope.

(** Modelled from the spec: the constructor of [CodeReviewTask]
    ([app/models.py] is not among the sources).  A job is created with a
    fresh identifier, both timestamps at the time of creation, and
    neither a result nor an error message. *)
Definition new_task (id repo_url pr_number status : string) (now : Z) : CodeReviewTask :=
  {| task_id := id; repo_url := repo_url; pr_number := pr_number; status := status;
     results := None; error_message := None;
     created_at := Some now; updated_at := Some now |}.

(** [POST /analyze-pr] up to and including the commit of the new row.
    The value is the new row's [task_id]; adding a row under an
    identifier that is taken fails in the database, and the handler turns
    that into a 500. *)
Definition analyze_pr (request : AnalyzePRRequest) : M (TaskState World) string :=
  if negb (str_contains "github.com" (req_repo_url request))
  then raise (HTTPException 400 "Invalid GitHub repository URL")
  else if req_pr_number request <=? 0
  then raise (HTTPException 400 "PR number must be positive")
  else
    id <- in_svc (ask (new_task_id E)) ;;
    now <- in_svc (ask (utcnow E)) ;;
    existing <- query_first id ;;
    match existing with
    | Some _ => raise (HTTPException 500 "IntegrityError")
    | None =>
        commit id (new_task id (req_repo_url request) (pretty (req_pr_number request))
                     "pending" now) ;;;
        ret id
    end.

(** A job from its submission to the last execution of its task:
    [POST /analyze-pr] creates the row and queues the task with
    [analyze_github_pr.delay(task.task_id, repo_url, pr_number,
    github_token)]; the worker then executes it, at most [deliveries]
    times. *)
Definition job (deliveries : nat) (request : AnalyzePRRequest) (st : TaskState World)
    : Result (string * list tasks.TaskOutcome) * TaskState World :=
  match analyze_pr request st with
  | (Raise e, st) => (Raise e, st)
  | (Ok id, st) =>
      let '(outcomes, st) :=
        tasks.deliver E deliveries 0 id (req_repo_url request) (req_pr_number request)
          (req_github_token request) st in
      (Ok (id, outcomes), st)
  end.

(** The dict that [GET /status/{task_id}] answers with. *)
Record StatusBody := mkStatusBody {
  st_task_id : string;
  st_status : string;
  st_created_at : option Z;
  st_updated_at : option Z;
  st_repo_url : string;
  st_pr_number : string
}.

Definition get_status (id : string) : M (TaskState World) StatusBody :=
  task <- query_first id ;;
  match task with
  | None => raise (HTTPException 404 ("Task " +:+ id +:+ " not found"))
  | Some task =>
      ret {| st_task_id := task_id task;
             st_status := status task;
             st_created_at := created_at task;
             st_updated_at := updated_at task;
             st_repo_url := repo_url task;
             st_pr_number := pr_number task |}
  end.

(** [json.loads]: a value, or an exception: a [json.JSONDecodeError] for
    a text that is not JSON, or another one (a [RecursionError] for a
    text nested too deeply). *)
Context {Json : Type} (json_loads : string -> Result Json).

(** [except json.JSONDecodeError] *)
Definition is_JSONDecodeError (e : PyExc) : bool :=
  String.eqb (exc_class e) "JSONDecodeError".

(** The dict that [GET /results/{task_id}] answers with.  [res_results]
    is [None] when the dict has no ['results'] key and [Some None] when
    the key holds [None]. *)
Record ResultsBody := mkResultsBody {
  res_task_id : string;
  res_status : string;
  res_created_at : option Z;
  res_updated_at : option Z;
  res_error_message : option string;
  res_results : option (option Json)
}.

(** [result["results"] = v] *)
Definition set_results (result : ResultsBody) (v : option Json) : ResultsBody :=
  {| res_task_id := res_task_id result; res_status := res_status result;
     res_created_at := res_created_at result; res_updated_at := res_updated_at result;
     res_error_message := res_error_message result;
     res_results := Some v |}.

(** [result["error_message"] = v] *)
Definition set_error_message (result : ResultsBody) (v : string) : ResultsBody :=
  {| res_task_id := res_task_id result; res_status := res_status result;
     res_created_at := res_created_at result; res_updated_at := res_updated_at result;
     res_error_message := Some v;
     res_results := res_results result |}.

Definition get_results (id : string) : M (TaskState World) ResultsBody :=
  task <- query_first id ;;
  match task with
  | None => raise (HTTPException 404 ("Task " +:+ id +:+ " not found"))
  | Some task =>
      let result := {|
        res_task_id := task_id task;
        res_status := status task;
        res_created_at := created_at task;
        res_updated_at := updated_at task;
        res_error_message := error_message task;
        res_results := None |} in
      match results task with
      | Some payload =>
          if negb (len payload =? 0)
          then
            match json_loads payload with
            | Ok value => ret (set_results result (Some value))
            | Raise e =>
                if is_JSONDecodeError e
                then ret (set_error_message (set_results result None)
                            "Invalid results JSON")
                else raise e
            end
          else ret result
      | None => ret result
      end
  end.

End Endpoints.

End main.

(** ** The specification's wording of the merge, for comparison *)

Module Spec.

(** "category (enum: style | defect | performance | convention)"; the four
    Analyzer variants are named after the same four words. *)
Inductive Category := style | defect | performance | convention.

(** "Finding - represents one reported issue.  Attributes: line (positive
    integer or unknown), category, description (non-empty text),
    suggestion (text, may be empty)."  Any integer and any text are
    admitted here. *)
Record Finding := mkFinding {
  line : option Z;
  category : Category;
  description : string;
  suggestion : string
}.

(** "the composite key (line, description)" *)
Definition key (f : Finding) : option Z * string := (line f, description f).

(** "Tag each returned finding with its producing variant's category
    (... forced to the invoking variant's category, overriding whatever
    the generation service claimed)." *)
Definition tag (variant : Category) (f : Finding) : Finding :=
  {| line := line f; category := variant;
     description := description f; suggestion := suggestion f |}.

(** "Concatenate all four variants' findings, preserving the fixed
    invocation order style, defect, performance, convention, and within
    each variant preserving that variant's own returned order." *)
Definition concatenated (outputs : Category -> list Finding) : list Finding :=
  map (tag style) (outputs style) ++ map (tag defect) (outputs defect) ++
  map (tag performance) (outputs performance) ++
  map (tag convention) (outputs convention).

(** "Deduplicate by the composite key (line, description): the first
    occurrence in the order from step 3 is kept, subsequent equal-key
    findings are dropped."  [seen] holds the keys that have occurred. *)
Fixpoint dedup (seen : list (option Z * string)) (findings : list Finding)
    : list Finding :=
  match findings with
  | [] => []
  | f :: rest =>
      if bool_decide (key f ∈ seen) then dedup seen rest
      else f :: dedup (key f :: seen) rest
  end.

(** "Truncate to the first 10 surviving findings (after dedup, preserving
    order)." *)
Definition analyzeFile (outputs : Category -> list Finding) : list Finding :=
  take 10 (dedup [] (concatenated outputs)).

(** The position of a variant in the fixed order. *)
Definition position (variant : Category) : nat :=
  match variant with
  | style => 0
  | defect => 1
  | performance => 2
  | convention => 3
  end.

End Spec.

#[global] Instance Category_eq_dec : EqDecision Spec.Category.
Proof. solve_decision. Defined.

#[global] Instance Finding_eq_dec : EqDecision Spec.Finding.
Proof. solve_decision. Defined.

(** ** The merge of [analyze_file] as a function of four lists of objects *)

(** What the loop over [all_issues] keeps of [findings] when the issues
    of [earlier] have passed before: an issue is kept exactly when no
    issue before it, kept or not, has an equal key. *)
Fixpoint first_by_key (earlier : list Issue) (findings : list Issue) : list Issue :=
  match findings with
  | [] => []
  | x :: rest =>
      if existsb (fun y => ai_agent.key_eqb (ai_agent.issue_key y) (ai_agent.issue_key x))
           earlier
      then first_by_key (earlier ++ [x]) rest
      else x :: first_by_key (earlier ++ [x]) rest
  end.

(** The objects of an agent, stamped. *)
Definition tag_all (k : AgentKind) (findings : list Issue) : list Issue :=
  map (fun x => <["type" := PyStr (issue_type k)]> x) findings.

(** What [analyze_file] returns as the issues of a file when the agents
    answer with these objects and all keys can be hashed. *)
Definition merged_issues (style bug perf conv : list Issue) : list Issue :=
  take 10 (first_by_key []
    (tag_all StyleAgent style ++ tag_all BugAgent bug ++
     tag_all PerformanceAgent perf ++ tag_all BestPracticesAgent conv)).

(** The value of [analyze_file] as a function of the answers of the four
    agents.  An agent is asked only when the answers before it could be
    stamped, so the answers after a failed stamping do not matter. *)
Definition merge_issues (filename : string) (style bug perf conv : list Element)
    : Result FileResult :=
  match ai_agent.stamp StyleAgent style with
  | Raise e => Raise e
  | Ok s1 =>
      match ai_agent.stamp BugAgent bug with
      | Raise e => Raise e
      | Ok s2 =>
          match ai_agent.stamp PerformanceAgent perf with
          | Raise e => Raise e
          | Ok s3 =>
              match ai_agent.stamp BestPracticesAgent conv with
              | Raise e => Raise e
              | Ok s4 =>
                  match ai_agent.unique_loop (((([] ++ s1) ++ s2) ++ s3) ++ s4) [] [] with
                  | Raise e => Raise e
                  | Ok unique_issues =>
                      Ok {| name := filename; issues := take 10 unique_issues |}
                  end
              end
          end
      end
  end.

(** The number of agents that [analyze_file] asks. *)
Definition asked (style bug perf : list Element) : nat :=
  match ai_agent.stamp StyleAgent style with
  | Raise _ => 1
  | Ok _ =>
      match ai_agent.stamp BugAgent bug with
      | Raise _ => 2
      | Ok _ =>
          match ai_agent.stamp PerformanceAgent perf with
          | Raise _ => 3
          | Ok _ => 4
          end
      end
  end.

(** The key of a finding of the specification, as the code sees it. *)
Definition code_key (k : option Z * string) : PyVal * PyVal :=
  (match k.1 with Some n => PyInt n | None => PyNone end, PyStr k.2).

(** The keys that have occurred after [findings] have passed. *)
Definition seen_after (seen : list (option Z * string)) (findings : list Spec.Finding)
    : list (option Z * string) :=
  foldl (fun seen f => if bool_decide (Spec.key f ∈ seen) then seen else Spec.key f :: seen)
    seen findings.

(** The position of an agent in the fixed order. *)
Definition agent_index (k : AgentKind) : nat :=
  match k with
  | StyleAgent => 0
  | BugAgent => 1
  | PerformanceAgent => 2
  | BestPracticesAgent => 3
  end.

(** ** Concrete environments, for examples *)

Module Fixtures.

(** A scripted world: a clock, and counters of the requests for the file
    list and of the constructions of the model clients. *)
Record Script := mkScript {
  clock : Z;
  pulls : nat;
  builds : nat
}.

Definition scripted_raw
    (pull : nat -> HttpResult (list FileData))
    (blob : string -> HttpResult ContentsData)
    (agent : AgentKind -> string -> string -> list Element)
    (clients : nat -> option PyExc) : Env Script :=
  {| requests_get_pull_files := fun _ _ _ _ w =>
       (pull (pulls w), mkScript (clock w) (S (pulls w)) (builds w));
     requests_get_contents := fun _ _ _ path _ w => (blob path, w);
     agent_analyze := fun k code filename w => (agent k code filename, w);
     new_chat_clients := fun w =>
       (clients (builds w), mkScript (clock w) (pulls w) (S (builds w)));
     utcnow := fun w => (clock w, mkScript (clock w + 1) (pulls w) (builds w));
     new_task_id := fun w => ("task-" +:+ pretty (clock w), w);
     json_dumps := fun r => "total_issues=" +:+ pretty (total_issues (summary r)) |}.

(** The same, with agents that answer with objects. *)
Definition scripted
    (pull : nat -> HttpResult (list FileData))
    (blob : string -> HttpResult ContentsData)
    (agent : AgentKind -> string -> string -> list Issue)
    (clients : nat -> option PyExc) : Env Script :=
  scripted_raw pull blob (fun k code filename => Object <$> agent k code filename) clients.

Definition start : TaskState Script :=
  mkTaskState (mkSvc (mkScript 0 0 0) []) ∅ [].

Definition file (filename : string) : FileData := {[ "filename" := filename ]}.

Definition finding (line : Z) (description : string) : Issue :=
  {[ "line" := PyInt line; "description" := PyStr description ]}.

(** One Python file; the style and the bug agent both report line 3, the
    bug agent also line 7. *)
Definition two_agents : Env Script :=
  scripted
    (fun _ => Response 200 (Some [file "main.py"]))
    (fun _ => Response 200 (Some (ContentText "print(1)")))
    (fun k _ _ =>
       match k with
       | StyleAgent => [finding 3 "unused variable"]
       | BugAgent => [finding 3 "unused variable"; finding 7 "division by zero"]
       | _ => []
       end)
    (fun _ => None).

Definition request : main.AnalyzePRRequest :=
  main.mkRequest "https://github.com/acme/widgets" 42 None.

Definition connection_refused : PyExc := mkExc "ConnectionError" "Connection refused".



(** Like [two_agents], but the model server refuses the first [k]
    constructions of the clients. *)
Definition flaky_clients (k : nat) : Env Script :=
  scripted
    (fun _ => Response 200 (Some [file "main.py"]))
    (fun _ => Response 200 (Some (ContentText "print(1)")))
    (fun a _ _ =>
       match a with
       | StyleAgent => [finding 3 "unused variable"]
       | BugAgent => [finding 3 "unused variable"; finding 7 "division by zero"]
       | _ => []
       end)
    (fun n => if (n <? k)%nat then Some connection_refused else None).


(** Sixteen Python files, each with one style finding. *)
Definition sixteen : list FileData :=
  map (fun i => file ("f" +:+ pretty i +:+ ".py")) (seqZ 0 16).

Definition sixteen_files : Env Script :=
  scripted
    (fun _ => Response 200 (Some sixteen))
    (fun _ => Response 200 (Some (ContentText "print(1)")))
    (fun a _ _ => match a with StyleAgent => [finding 1 "long line"] | _ => [] end)
    (fun _ => None).

(** [n] times the letter a. *)
Fixpoint filler (n : nat) : string :=
  match n with
  | O => ""
  | S n => String "a" (filler n)
  end.

(** Two Python files: one of 100000 characters, one small. *)
Definition big_and_small : Env Script :=
  scripted
    (fun _ => Response 200 (Some [file "big.py"; file "small.py"]))
    (fun path =>
       Response 200 (Some (ContentText
         (if String.eqb path "big.py" then filler (Z.to_nat 100000) else "print(1)"))))
    (fun a _ _ => match a with StyleAgent => [finding 1 "long line"] | _ => [] end)
    (fun _ => None).

(** A pending row. *)
Definition pending_row : CodeReviewTask :=
  {| task_id := "task-0"; repo_url := "https://github.com/acme/widgets";
     pr_number := "42"; status := "pending"; results := None; error_message := None;
     created_at := Some 0; updated_at := Some 0 |}.

(** The state of a worker about to execute the task for that row. *)
Definition queued : TaskState Script :=
  mkTaskState (mkSvc (mkScript 1 0 0) []) {[ "task-0" := pending_row ]} [pending_row].

(** A stand-in for [json.loads] that reads what the [json_dumps] of the
    scripted environments writes, and nothing else. *)
Definition toy_loads (s : string) : Result string :=
  if String.prefix "total_issues=" s then Ok s
  else if String.prefix "[[[[" s
  then Raise (mkExc "RecursionError" "maximum recursion depth exceeded")
  else Raise (mkExc "JSONDecodeError" "Expecting value").

(** A model that wraps its array in prose, and a stand-in for
    [json.loads] that reads that array and nothing else. *)
Definition chatty_model : AgentKind -> string -> string -> Script -> Result string * Script :=
  fun _ _ _ w => (Ok "Sure, here it is: [{}] Anything else?", w).

Definition toy_issue_loads (s : string) : Result (list Element) :=
  if String.eqb s "[{}]" then Ok [Object ∅]
  else Raise (mkExc "JSONDecodeError" "Expecting value").

(** A finding with all the attributes of the specification, and a
    category of its own choice. *)
Definition full_finding (line : Z) (claimed description suggestion : string) : Issue :=
  {[ "line" := PyInt line; "type" := PyStr claimed;
     "description" := PyStr description; "suggestion" := PyStr suggestion ]}.

(** One Python file; the style and the bug agent both report line 3, with
    different suggestions and both as a performance issue; the bug agent
    also reports line 7. *)
Definition two_reviewers : Env Script :=
  scripted
    (fun _ => Response 200 (Some [file "main.py"]))
    (fun _ => Response 200 (Some (ContentText "print(1)")))
    (fun k _ _ =>
       match k with
       | StyleAgent => [full_finding 3 "performance" "unused variable" "remove it"]
       | BugAgent => [full_finding 3 "performance" "unused variable" "delete it";
                      full_finding 7 "bug" "division by zero" "check the divisor"]
       | _ => []
       end)
    (fun _ => None).

(** Like [two_agents], but the bug agent gives its answer twice over. *)
Definition bug_agent_repeats : Env Script :=
  scripted
    (fun _ => Response 200 (Some [file "main.py"]))
    (fun _ => Response 200 (Some (ContentText "print(1)")))
    (fun k _ _ =>
       match k with
       | StyleAgent => [finding 3 "unused variable"]
       | BugAgent => [finding 3 "unused variable"; finding 7 "division by zero";
                      finding 3 "unused variable"; finding 7 "division by zero"]
       | _ => []
       end)
    (fun _ => None).

(** One Python file; the style agent answers with the array [[1, 2]]. *)
Definition numbers_for_findings : Env Script :=
  scripted_raw
    (fun _ => Response 200 (Some [file "main.py"]))
    (fun _ => Response 200 (Some (ContentText "print(1)")))
    (fun k _ _ =>
       match k with
       | StyleAgent => [NotObject "int"; NotObject "int"]
       | _ => [Object (finding 7 "division by zero")]
       end)
    (fun _ => None).

(** A pull request that changes a README only, and a model server that
    cannot be reached. *)
Definition readme_only_no_server : Env Script :=
  scripted
    (fun _ => Response 200 (Some [file "README.md"]))
    (fun _ => Response 200 (Some (ContentText "# widgets")))
    (fun _ _ _ => [])
    (fun _ => Some connection_refused).

(** Like [two_agents], but the model server is gone after the first
    construction of the clients. *)
Definition server_leaves : Env Script :=
  scripted
    (fun _ => Response 200 (Some [file "main.py"]))
    (fun _ => Response 200 (Some (ContentText "print(1)")))
    (fun k _ _ =>
       match k with
       | StyleAgent => [finding 3 "unused variable"]
       | BugAgent => [finding 3 "unused variable"; finding 7 "division by zero"]
       | _ => []
       end)
    (fun n => if (n <? 1)%nat then None else Some connection_refused).

End Fixtures.

(** ** Vocabulary of the properties *)

(** An issue whose key can be hashed: neither its ['line'] nor its
    ['description'] is a list or a dict. *)
Definition hashable_key (issue : Issue) : Prop :=
  ai_agent.key_hash_check (ai_agent.issue_key issue) = None.

(** An issue whose key equals itself: neither its ['line'] nor its
    ['description'] is a list, a dict or NaN. *)
Definition self_equal_key (issue : Issue) : Prop :=
  ai_agent.key_eqb (ai_agent.issue_key issue) (ai_agent.issue_key issue) = true.

(** The answers of the four agents, by agent. *)
Definition answers {A : Type} (style bug perf conv : list A) (k : AgentKind) : list A :=
  match k with
  | StyleAgent => style
  | BugAgent => bug
  | PerformanceAgent => perf
  | BestPracticesAgent => conv
  end.

(** The four agents, asked in order from the state [s] for the file
    [filename] with the code [code], answer [a]. *)
Definition answers_of {World : Type} (E : Env World) (code filename : string)
    (s : Svc World) (a : AgentKind -> list Element) : Prop :=
  exists w1 w2 w3 w4,
    agent_analyze E StyleAgent code filename (world s) = (a StyleAgent, w1) /\
    agent_analyze E BugAgent code filename w1 = (a BugAgent, w2) /\
    agent_analyze E PerformanceAgent code filename w2 = (a PerformanceAgent, w3) /\
    agent_analyze E BestPracticesAgent code filename w3 = (a BestPracticesAgent, w4).

(** What a call of an agent returned. *)
Definition returned_by (c : Call) : list Element :=
  match c with
  | CallAnalyze _ _ _ returned => returned
  | _ => []
  end.

(** The file on which an agent was called. *)
Definition file_of (c : Call) : option string :=
  match c with
  | CallAnalyze _ _ filename _ => Some filename
  | _ => None
  end.

(** An element that [analyze_file] cannot process: it is not an object, or
    the key of the object cannot be hashed. *)
Definition malformed (element : Element) : Prop :=
  match element with
  | Object issue => ~ hashable_key issue
  | NotObject _ => True
  end.

(** The agent that stands for a variant of the specification, and the
    word that the code uses for a category. *)
Definition variant_of (k : AgentKind) : Spec.Category :=
  match k with
  | StyleAgent => Spec.style
  | BugAgent => Spec.defect
  | PerformanceAgent => Spec.performance
  | BestPracticesAgent => Spec.convention
  end.

Definition category_name (c : Spec.Category) : string :=
  match c with
  | Spec.style => "style"
  | Spec.defect => "bug"
  | Spec.performance => "performance"
  | Spec.convention => "best_practice"
  end.

(** The JSON value of a line: an integer, or [null] for unknown (a
    missing key reads the same). *)
Definition line_value (line : option Z) : PyVal :=
  match line with
  | Some n => PyInt n
  | None => PyNone
  end.

(** The object [issue] reports the finding [f]: line, description and
    suggestion agree; the category that the object claims is ignored. *)
Definition reports (issue : Issue) (f : Spec.Finding) : Prop :=
  py_get issue "line" = line_value (Spec.line f) /\
  py_get issue "description" = PyStr (Spec.description f) /\
  py_get issue "suggestion" = PyStr (Spec.suggestion f).

(** The element of an agent's answer is an object that reports [f]. *)
Definition reported (element : Element) (f : Spec.Finding) : Prop :=
  exists issue, element = Object issue /\ reports issue f.

(** The object [issue] is the finding [f], category included. *)
Definition represents (issue : Issue) (f : Spec.Finding) : Prop :=
  reports issue f /\
  py_get issue "type" = PyStr (category_name (Spec.category f)).

(** A call of an agent on the file [filename] of [file_contents]: the file
    has a non-empty content there, and the code handed over is that content
    cut to its first 10000 characters. *)
Definition analyzed_from (file_contents : gmap string string) (c : Call) : Prop :=
  match c with
  | CallAnalyze _ code filename _ =>
      exists content,
        file_contents !! filename = Some content /\
        0 < len content /\
        code = str_take (Z.to_nat 10000) content
  | _ => False
  end.

(** The number of issues of type bug in a list. *)
Definition count_bugs (l : list Issue) : nat :=
  length (List.filter (fun i => py_eqb (py_get i "type") (PyStr "bug")) l).

(** The ['filename'] of an entry of the file list, as the code reads it:
    [file_data.get("filename", "")]. *)
Definition filename_of (file_data : FileData) : string :=
  default "" (file_data !! "filename").

(** [f"pull/{pr_number}/head"] *)
Definition head_ref (pr_number : Z) : string := "pull/" +:+ pretty pr_number +:+ "/head".

(** What the body of the fetch loop does to [file_contents] when
    [get_file_content] has answered [content] for [filename]. *)
Definition stored (file_contents : gmap string string) (filename : string)
    (content : option string) : gmap string string :=
  match content with
  | Some text =>
      if negb (len text =? 0) && (len text <? 100000)
      then <[filename := text]> file_contents
      else file_contents
  | None => file_contents
  end.

(** The exception of the [if not pr_files] guard. *)
Definition no_code_files : PyExc :=
  mkExc "Exception"
    "No code files found in PR or PR not accessible (may need valid GitHub token)".

(** What the handler of [analyze_github_pr] makes of the end of the [try]
    block. *)
Definition outcome_of (request_retries : nat) (r : Result AnalysisResult)
    : tasks.TaskOutcome :=
  match r with
  | Ok analysis_results => tasks.Returned analysis_results
  | Raise e =>
      if tasks.reraised e then tasks.Raised e
      else if (request_retries <? 2)%nat then tasks.RetryScheduled 5 e
      else tasks.Raised e
  end.

(** The row in which an execution leaves a job whose row it found as
    [task]. *)
Definition final_row {World : Type} (E : Env World) (task : CodeReviewTask)
    (r : Result AnalysisResult) (t1 t2 : Z) : CodeReviewTask :=
  match r with
  | Ok analysis_results =>
      tasks.mark_completed (tasks.mark_processing task t1)
        (json_dumps E analysis_results) t2
  | Raise e => tasks.mark_failed (tasks.mark_processing task t1) (exc_str e) t2
  end.

(** A row from which an execution can start: created and not yet taken up,
    or left failed by the execution before. *)
Definition resting (row : CodeReviewTask) : Prop :=
  results row = None /\
  ((status row = "pending" /\ error_message row = None) \/
   (status row = "failed" /\ is_Some (error_message row))).

(** [row] is the commit after the commit of [prev]. *)
Definition follows (prev row : CodeReviewTask) : Prop :=
  (status row = "processing" /\ resting prev /\
   results row = None /\ error_message row = error_message prev) \/
  (status row = "completed" /\ status prev = "processing" /\
   is_Some (results row) /\ error_message row = None) \/
  (status row = "failed" /\ status prev = "processing" /\
   results row = None /\ is_Some (error_message row)).

Fixpoint chain (prev : CodeReviewTask) (rows : list CodeReviewTask) : Prop :=
  match rows with
  | [] => True
  | row :: rest => follows prev row /\ chain row rest
  end.

#[global] Instance hashable_key_dec issue : Decision (hashable_key issue).
Proof. unfold hashable_key. apply _. Defined.

#[global] Instance malformed_dec element : Decision (malformed element).
Proof. destruct element; simpl; apply _. Defined.

(** An entry of the file list that [analyze_pr] does not skip: its name has
    a code extension and [file_contents] has a non-empty content for it. *)
Definition eligible (file_contents : gmap string string) (file_data : FileData) : bool :=
  ai_agent._is_code_file (filename_of file_data) &&
  match file_contents !! filename_of file_data with
  | Some content => negb (len content =? 0)
  | None => false
  end.

(** The agent, the code and the file name of a call of an agent. *)
Definition call_target (c : Call) : option (AgentKind * string * string) :=
  match c with
  | CallAnalyze k code filename _ => Some (k, code, filename)
  | _ => None
  end.

(** The four calls that [analyze_file] makes for an entry of the file
    list. *)
Definition four_calls (file_contents : gmap string string) (file_data : FileData)
    : list (option (AgentKind * string * string)) :=
  let filename := filename_of file_data in
  let code := str_take (Z.to_nat 10000) (default "" (file_contents !! filename)) in
  [Some (StyleAgent, code, filename); Some (BugAgent, code, filename);
   Some (PerformanceAgent, code, filename); Some (BestPracticesAgent, code, filename)].

(** The request for the content of an entry of the file list, with its
    answer. *)
Definition content_request (repo_url : string) (pr_number : Z) (file_data : FileData)
    (answer : option string) : Call :=
  CallGetFileContent repo_url (head_ref pr_number) (filename_of file_data) answer.

(** The [file_contents] that the fetch loop builds from [file_contents]
    when the requests for [files] are answered with [answers]. *)
Definition collected (files : list FileData) (answers : list (option string))
    (file_contents : gmap string string) : gmap string string :=
  foldl (fun acc p => stored acc (filename_of p.1) p.2) file_contents (zip files answers).

(** Why steps 1 to 3 of the task have ended with the exception [e], when
    the file list came back as [pr_files] and the agents were called as in
    [agent_calls]: the list was empty; or the model clients could not be
    built, and no agent was called; or an agent that was called on the
    last file returned an element that is not an object or whose key
    cannot be hashed. *)
Definition failure_cause {World : Type} (E : Env World) (pr_files : list FileData)
    (agent_calls : list Call) (e : PyExc) : Prop :=
  (pr_files = [] /\ e = no_code_files) \/
  (pr_files <> [] /\ agent_calls = [] /\
   exists w, (new_chat_clients E w).1 = Some e) \/
  (pr_files <> [] /\ exc_class e = "TypeError" /\
   exists c c' element,
     c ∈ agent_calls /\ last agent_calls = Some c' /\
     file_of c = file_of c' /\ is_Some (file_of c) /\
     element ∈ returned_by c /\ malformed element).

(** [n] slashes. *)
Fixpoint slashes (n : nat) : string :=
  match n with
  | O => ""
  | S n => "/" +:+ slashes n
  end.

(** The result of [analyze_pr] when no file has been analyzed. *)
Definition empty_result : AnalysisResult :=
  {| files := [];
     summary := {| total_files := 0; total_issues := 0; critical_issues := 0;
                   agent_used := "LangChain Multi-Agent (Ollama)" |} |}.






(** An outcome that re-queues the task with a countdown of 5, for an
    exception that bears neither mark. *)
Definition requeued (o : tasks.TaskOutcome) : Prop :=
  exists e, o = tasks.RetryScheduled 5 e /\ tasks.reraised e = false.

(** An outcome that ends the job. *)
Definition final (o : tasks.TaskOutcome) : Prop :=
  match o with tasks.RetryScheduled _ _ => False | _ => True end.

(** * Properties *)

(** ** Equality of keys *)

Lemma dyadic_eqb_spec a b e0 :
  e0 <= a.2 -> e0 <= b.2 ->
  dyadic_eqb a b = true <-> a.1 * 2 ^ (a.2 - e0) = b.1 * 2 ^ (b.2 - e0).
Proof.
  intros Ha Hb. unfold dyadic_eqb. set (e := Z.min a.2 b.2). rewrite Z.eqb_eq.
  assert (e0 <= e) as He by (subst e; lia).
  assert (e <= a.2 /\ e <= b.2) as [Hea Heb] by (subst e; lia).
  replace (a.2 - e0) with ((a.2 - e) + (e - e0)) by lia.
  replace (b.2 - e0) with ((b.2 - e) + (e - e0)) by lia.
  rewrite !Z.pow_add_r by lia. rewrite !Z.mul_assoc.
  assert (0 < 2 ^ (e - e0)) as Hpos by (apply Z.pow_pos_nonneg; lia).
  split; [by intros ->|]. intros H. apply Z.mul_reg_r in H; [done | lia].
Qed.

Lemma dyadic_eqb_sym a b : dyadic_eqb a b = dyadic_eqb b a.
Proof. unfold dyadic_eqb. rewrite (Z.min_comm b.2). apply Z.eqb_sym. Qed.

Lemma dyadic_eqb_trans a b c :
  dyadic_eqb a b = true -> dyadic_eqb b c = true -> dyadic_eqb a c = true.
Proof.
  set (e0 := Z.min a.2 (Z.min b.2 c.2)).
  rewrite (dyadic_eqb_spec a b e0), (dyadic_eqb_spec b c e0), (dyadic_eqb_spec a c e0)
    by (subst e0; lia).
  congruence.
Qed.

Lemma dyadic_eqb_int a b : dyadic_eqb (a, 0) (b, 0) = (a =? b).
Proof. unfold dyadic_eqb. simpl. by rewrite !Z.mul_1_r. Qed.

Lemma py_eqb_sym x y : py_eqb x y = py_eqb y x.
Proof.
  destruct x, y; simpl; try done;
    try apply dyadic_eqb_sym; try apply String.eqb_sym.
  by destruct negative, negative0.
Qed.

Lemma py_eqb_trans x y z : py_eqb x y = true -> py_eqb y z = true -> py_eqb x z = true.
Proof.
  destruct x, y; simpl; try done; destruct z; simpl; try done;
    try apply dyadic_eqb_trans.
  - destruct negative, negative0, negative1; done.
  - intros ->%String.eqb_eq. done.
Qed.

Lemma key_eqb_sym k1 k2 : ai_agent.key_eqb k1 k2 = ai_agent.key_eqb k2 k1.
Proof. unfold ai_agent.key_eqb. by rewrite (py_eqb_sym k1.1), (py_eqb_sym k1.2). Qed.

Lemma key_eqb_trans k1 k2 k3 :
  ai_agent.key_eqb k1 k2 = true -> ai_agent.key_eqb k2 k3 = true ->
  ai_agent.key_eqb k1 k3 = true.
Proof.
  unfold ai_agent.key_eqb. rewrite !andb_true_iff. intros [? ?] [? ?].
  split; eapply py_eqb_trans; eauto.
Qed.

(** A value that equals something can be hashed and equals itself. *)
Lemma py_eqb_true_hashable x y : py_eqb x y = true -> py_hash_check x = None.
Proof. by destruct x, y. Qed.

Lemma py_eqb_true_refl x y : py_eqb x y = true -> py_eqb x x = true.
Proof. intros H. eapply py_eqb_trans; [exact H|]. by rewrite py_eqb_sym. Qed.

Lemma key_eqb_true_refl k1 k2 :
  ai_agent.key_eqb k1 k2 = true -> ai_agent.key_eqb k1 k1 = true.
Proof. intros H. eapply key_eqb_trans; [exact H|]. by rewrite key_eqb_sym. Qed.

Lemma self_equal_hashable issue : self_equal_key issue -> hashable_key issue.
Proof.
  unfold self_equal_key, hashable_key, ai_agent.key_eqb, ai_agent.key_hash_check.
  intros [H1 H2]%andb_true_iff.
  by rewrite (py_eqb_true_hashable _ _ H1), (py_eqb_true_hashable _ _ H2).
Qed.

(** Stamping the type changes neither component of the key. *)
Lemma issue_key_stamped (t : PyVal) (issue : Issue) :
  ai_agent.issue_key (<["type" := t]> issue) = ai_agent.issue_key issue.
Proof.
  unfold ai_agent.issue_key, py_get. by rewrite !lookup_insert_ne.
Qed.

(** Stamping succeeds exactly on lists of objects. *)
Lemma stamp_objects k l : ai_agent.stamp k (Object <$> l) = Ok (tag_all k l).
Proof.
  unfold tag_all. induction l as [|x l IH]; [done|].
  rewrite fmap_cons. simpl. by rewrite IH.
Qed.

Lemma stamp_ok k l stamped :
  ai_agent.stamp k l = Ok stamped ->
  exists objects, l = Object <$> objects /\ stamped = tag_all k objects.
Proof.
  revert stamped. induction l as [|[x|t] l IH]; intros stamped; simpl.
  - intros [= <-]. by exists [].
  - destruct (ai_agent.stamp k l) as [st|e]; [|done]. intros [= <-].
    destruct (IH st eq_refl) as (objects & -> & ->). by exists (x :: objects).
  - done.
Qed.

Lemma stamp_raise k l e :
  ai_agent.stamp k l = Raise e ->
  exc_class e = "TypeError" /\ exists t, NotObject t ∈ l.
Proof.
  induction l as [|[x|t] l IH]; simpl; [done| |].
  - destruct (ai_agent.stamp k l) as [st|e']; [done|]. intros [= ->].
    destruct (IH eq_refl) as [? [t ?]]. split; [done|]. exists t.
    apply elem_of_cons. by right.
  - intros [= <-]. split; [done|]. exists t. apply elem_of_cons. by left.
Qed.

Lemma stamp_not_object k l t :
  NotObject t ∈ l -> exists e, ai_agent.stamp k l = Raise e /\ exc_class e = "TypeError".
Proof.
  intros Hin. destruct (ai_agent.stamp k l) as [st|e] eqn:Hst.
  - apply stamp_ok in Hst as (objects & -> & _).
    apply list_elem_of_fmap in Hin as (? & ? & _). done.
  - exists e. split; [done|]. by apply stamp_raise in Hst as [? _].
Qed.

(** ** The loop of [analyze_file] against the specification's wording *)

Lemma key_in_true k seen :
  ai_agent.key_in k seen = true <-> exists s, s ∈ seen /\ ai_agent.key_eqb k s = true.
Proof.
  unfold ai_agent.key_in. rewrite existsb_exists.
  split; intros (s & ? & ?); exists s; by rewrite ?list_elem_of_In in *.
Qed.

Lemma unique_loop_keep_first all_issues :
  forall seen earlier unique_issues,
    Forall hashable_key all_issues ->
    (forall k, ai_agent.key_in k seen =
               existsb (fun y => ai_agent.key_eqb (ai_agent.issue_key y) k) earlier) ->
    ai_agent.unique_loop all_issues seen unique_issues =
    Ok (unique_issues ++ first_by_key earlier all_issues).
Proof.
  induction all_issues as [|x rest IH]; intros seen earlier acc Hh Hinv; simpl.
  - by rewrite app_nil_r.
  - apply Forall_cons in Hh as [Hx Hrest]. unfold hashable_key in Hx. rewrite Hx.
    rewrite <- (Hinv (ai_agent.issue_key x)).
    destruct (ai_agent.key_in (ai_agent.issue_key x) seen) eqn:Hin; simpl.
    + apply IH; [done|]. intros k. rewrite existsb_app, <- Hinv. simpl.
      rewrite orb_false_r.
      destruct (ai_agent.key_eqb (ai_agent.issue_key x) k) eqn:Hk;
        [|by rewrite orb_false_r].
      rewrite orb_true_r. apply key_in_true.
      apply key_in_true in Hin as (s & Hs & Hxs). exists s. split; [done|].
      eapply key_eqb_trans; [|exact Hxs]. by rewrite key_eqb_sym.
    + rewrite (IH (ai_agent.issue_key x :: seen) (earlier ++ [x])); [|done|].
      * by rewrite <- app_assoc.
      * intros k. rewrite existsb_app, <- Hinv. simpl.
        rewrite orb_false_r, orb_comm. f_equal. apply key_eqb_sym.
Qed.

Lemma hashable_key_stamped t issue :
  hashable_key (<["type" := t]> issue) <-> hashable_key issue.
Proof. unfold hashable_key. by rewrite issue_key_stamped. Qed.

Lemma Forall_hashable_tagged k l :
  Forall hashable_key l -> Forall hashable_key (tag_all k l).
Proof.
  unfold tag_all. induction 1; simpl; constructor; [|done].
  by apply hashable_key_stamped.
Qed.

Lemma py_hash_check_class v e : py_hash_check v = Some e -> exc_class e = "TypeError".
Proof. destruct v; simpl; intros [= <-]; done. Qed.

Lemma unique_loop_error all_issues :
  forall seen unique_issues e,
    ai_agent.unique_loop all_issues seen unique_issues = Raise e ->
    exc_class e = "TypeError" /\ ~ Forall hashable_key all_issues.
Proof.
  induction all_issues as [|x rest IH]; intros seen acc e; simpl; [done|].
  destruct (ai_agent.key_hash_check (ai_agent.issue_key x)) as [e'|] eqn:Hx.
  - intros [= <-]. split.
    + unfold ai_agent.key_hash_check in Hx.
      destruct (py_hash_check (ai_agent.issue_key x).1) as [e1|] eqn:H1.
      * injection Hx as <-. by eapply py_hash_check_class.
      * by eapply py_hash_check_class.
    + intros [Hh _]%Forall_cons. unfold hashable_key in Hh. congruence.
  - intros Hloop. assert (exc_class e = "TypeError" /\ ~ Forall hashable_key rest)
      as [? Hnot] by (destruct (negb _); by eapply IH).
    split; [done|]. by intros [_ ?]%Forall_cons.
Qed.

Lemma unique_loop_ok_hashable all_issues :
  forall seen unique_issues kept,
    ai_agent.unique_loop all_issues seen unique_issues = Ok kept ->
    Forall hashable_key all_issues.
Proof.
  induction all_issues as [|x rest IH]; intros seen acc kept; simpl; [done|].
  destruct (ai_agent.key_hash_check (ai_agent.issue_key x)) eqn:Hx; [done|].
  intros Hloop. constructor; [done|]. destruct (negb _); by eapply IH.
Qed.

Lemma Forall_hashable_tagged_inv k l :
  Forall hashable_key (tag_all k l) -> Forall hashable_key l.
Proof.
  unfold tag_all. induction l as [|x l IH]; simpl; [done|].
  intros [Hx Hl]%Forall_cons. constructor; [by eapply hashable_key_stamped | by apply IH].
Qed.

Lemma Forall_hashable_all_tagged style bug perf conv :
  Forall hashable_key
    (((([] ++ tag_all StyleAgent style) ++ tag_all BugAgent bug) ++
      tag_all PerformanceAgent perf) ++ tag_all BestPracticesAgent conv) <->
  Forall hashable_key (style ++ bug ++ perf ++ conv).
Proof.
  simpl. rewrite !Forall_app. split.
  - intros [[[Hs Hb] Hp] Hc]. repeat split; by eapply Forall_hashable_tagged_inv.
  - intros (Hs & Hb & Hp & Hc). repeat split; by apply Forall_hashable_tagged.
Qed.

(** [merge_issues] on lists of objects whose keys can be hashed. *)
Lemma merge_issues_merged filename style bug perf conv :
  Forall hashable_key (style ++ bug ++ perf ++ conv) ->
  merge_issues filename (Object <$> style) (Object <$> bug) (Object <$> perf)
    (Object <$> conv) =
  Ok {| name := filename; issues := merged_issues style bug perf conv |}.
Proof.
  intros Hh. unfold merge_issues, merged_issues. rewrite !stamp_objects.
  rewrite (unique_loop_keep_first _ [] [] []).
  - simpl. by rewrite <- !app_assoc.
  - by apply Forall_hashable_all_tagged.
  - done.
Qed.

(** [merge_issues] succeeds on nothing else, and fails with a
    [TypeError]. *)
Lemma merge_issues_ok filename a1 a2 a3 a4 analysis :
  merge_issues filename a1 a2 a3 a4 = Ok analysis ->
  exists style bug perf conv,
    a1 = Object <$> style /\ a2 = Object <$> bug /\
    a3 = Object <$> perf /\ a4 = Object <$> conv /\
    Forall hashable_key (style ++ bug ++ perf ++ conv) /\
    analysis = {| name := filename; issues := merged_issues style bug perf conv |}.
Proof.
  unfold merge_issues.
  destruct (ai_agent.stamp StyleAgent a1) as [s1|] eqn:H1; [|done].
  destruct (ai_agent.stamp BugAgent a2) as [s2|] eqn:H2; [|done].
  destruct (ai_agent.stamp PerformanceAgent a3) as [s3|] eqn:H3; [|done].
  destruct (ai_agent.stamp BestPracticesAgent a4) as [s4|] eqn:H4; [|done].
  apply stamp_ok in H1 as (style & -> & ->). apply stamp_ok in H2 as (bug & -> & ->).
  apply stamp_ok in H3 as (perf & -> & ->). apply stamp_ok in H4 as (conv & -> & ->).
  destruct (ai_agent.unique_loop _ [] []) as [u|e] eqn:Hloop; [|done].
  intros [= <-]. exists style, bug, perf, conv. do 4 (split; [done|]).
  assert (Forall hashable_key (style ++ bug ++ perf ++ conv)) as Hh.
  { apply Forall_hashable_all_tagged. by eapply unique_loop_ok_hashable. }
  split; [done|].
  rewrite (unique_loop_keep_first _ [] [] []) in Hloop;
    [|by apply Forall_hashable_all_tagged|done].
  injection Hloop as <-. unfold merged_issues. simpl. by rewrite <- !app_assoc.
Qed.

Lemma merge_issues_error filename a1 a2 a3 a4 e :
  merge_issues filename a1 a2 a3 a4 = Raise e -> exc_class e = "TypeError".
Proof.
  unfold merge_issues.
  destruct (ai_agent.stamp StyleAgent a1) as [s1|] eqn:H1;
    [|intros [= <-]; by apply stamp_raise in H1 as [? _]].
  destruct (ai_agent.stamp BugAgent a2) as [s2|] eqn:H2;
    [|intros [= <-]; by apply stamp_raise in H2 as [? _]].
  destruct (ai_agent.stamp PerformanceAgent a3) as [s3|] eqn:H3;
    [|intros [= <-]; by apply stamp_raise in H3 as [? _]].
  destruct (ai_agent.stamp BestPracticesAgent a4) as [s4|] eqn:H4;
    [|intros [= <-]; by apply stamp_raise in H4 as [? _]].
  destruct (ai_agent.unique_loop _ [] []) as [u|e'] eqn:Hloop; [done|].
  intros [= <-]. by apply unique_loop_error in Hloop as [? _].
Qed.

(** An element that is not an object, or an object whose key cannot be
    hashed, makes [merge_issues] fail. *)
Lemma merge_issues_malformed filename a1 a2 a3 a4 element :
  element ∈ a1 ++ a2 ++ a3 ++ a4 -> malformed element ->
  exists e, merge_issues filename a1 a2 a3 a4 = Raise e /\ exc_class e = "TypeError".
Proof.
  intros Hin Hbad.
  destruct (merge_issues filename a1 a2 a3 a4) as [analysis|e] eqn:Hm.
  - exfalso. apply merge_issues_ok in Hm
      as (style & bug & perf & conv & -> & -> & -> & -> & Hh & _).
    rewrite <- !fmap_app in Hin. apply list_elem_of_fmap in Hin as (x & -> & Hx).
    rewrite Forall_forall in Hh. by apply Hbad, Hh.
  - exists e. split; [done|]. by eapply merge_issues_error.
Qed.

Lemma keep_first_app earlier l1 l2 :
  first_by_key earlier (l1 ++ l2) =
  first_by_key earlier l1 ++ first_by_key (earlier ++ l1) l2.
Proof.
  revert earlier. induction l1 as [|x l1 IH]; intros earlier; simpl.
  - by rewrite app_nil_r.
  - rewrite IH, <- app_assoc. simpl. by destruct (existsb _ earlier).
Qed.

(** A kept finding is one of the findings, and no earlier finding has its
    key. *)
Lemma keep_first_elem x l :
  forall earlier,
    x ∈ first_by_key earlier l ->
    x ∈ l /\
    forall y, y ∈ earlier ->
      ai_agent.key_eqb (ai_agent.issue_key y) (ai_agent.issue_key x) = false.
Proof.
  induction l as [|x0 rest IH]; intros earlier; simpl.
  - by intros ?%elem_of_nil.
  - destruct (existsb _ earlier) eqn:Hex.
    + intros [Hin Hno]%IH. split; [by apply elem_of_cons; right|].
      intros y Hy. apply Hno, elem_of_app. by left.
    + intros [->|[Hin Hno]%IH]%elem_of_cons.
      * split; [by apply elem_of_cons; left|]. intros y Hy.
        destruct (ai_agent.key_eqb _ _) eqn:Hk; [|done].
        assert (existsb (fun y => ai_agent.key_eqb (ai_agent.issue_key y)
                                    (ai_agent.issue_key x0)) earlier = true) as Ht.
        { apply existsb_exists. exists y. by rewrite <- list_elem_of_In. }
        congruence.
      * split; [by apply elem_of_cons; right|].
        intros y Hy. apply Hno, elem_of_app. by left.
Qed.

Lemma keep_first_tagged_elem k earlier out x :
  x ∈ first_by_key earlier (tag_all k out) ->
  exists y, y ∈ out /\ x = <["type" := PyStr (issue_type k)]> y /\
    forall z, z ∈ earlier ->
      ai_agent.key_eqb (ai_agent.issue_key z) (ai_agent.issue_key y) = false.
Proof.
  intros [Hin Hno]%keep_first_elem.
  unfold tag_all in Hin. apply list_elem_of_In, in_map_iff in Hin as (y & <- & Hy).
  exists y. split; [by apply list_elem_of_In|]. split; [done|].
  intros z Hz. specialize (Hno z Hz). by rewrite issue_key_stamped in Hno.
Qed.

Lemma tagged_elem k out y :
  y ∈ out -> <["type" := PyStr (issue_type k)]> y ∈ tag_all k out.
Proof.
  intros Hy. apply list_elem_of_In. unfold tag_all.
  apply in_map_iff. exists y. by rewrite <- list_elem_of_In.
Qed.

(** The category of a kept finding is that of the first agent, in the
    fixed order, that reported its key. *)
Lemma merged_tie_break style bug perf conv x :
  x ∈ merged_issues style bug perf conv ->
  exists k y,
    y ∈ answers style bug perf conv k /\
    x = <["type" := PyStr (issue_type k)]> y /\
    forall k' y', (agent_index k' < agent_index k)%nat ->
      y' ∈ answers style bug perf conv k' ->
      ai_agent.key_eqb (ai_agent.issue_key y') (ai_agent.issue_key y) = false.
Proof.
  unfold merged_issues. intros Hx%subseteq_take.
  rewrite !keep_first_app in Hx. simpl in Hx.
  rewrite !elem_of_app in Hx.
  destruct Hx as [Hx|[Hx|[Hx|Hx]]];
    apply keep_first_tagged_elem in Hx as (y & Hy & -> & Hno);
    [exists StyleAgent | exists BugAgent | exists PerformanceAgent
     | exists BestPracticesAgent];
    exists y; (split; [done|]); (split; [done|]);
    intros k' y' Hlt Hy';
    rewrite <- (issue_key_stamped (PyStr (issue_type k')) y');
    apply Hno; destruct k'; simpl in Hlt; try lia; simpl in Hy';
    rewrite ?elem_of_app; eauto 6 using tagged_elem.
Qed.

Lemma merged_length style bug perf conv :
  (length (merged_issues style bug perf conv) <= 10)%nat.
Proof. unfold merged_issues. rewrite length_take. lia. Qed.

(** ** Running the service layer *)

Section Runs.
Context {World : Type} (E : Env World).

Lemma analyze_run k code filename (s : Svc World) :
  ai_agent.analyze E k code filename s =
  (Ok (agent_analyze E k code filename (world s)).1,
   mkSvc (agent_analyze E k code filename (world s)).2
         (calls s ++ [CallAnalyze k code filename
                        (agent_analyze E k code filename (world s)).1])).
Proof.
  unfold ai_agent.analyze, bind, ask, record_call, ret.
  by destruct (agent_analyze E k code filename (world s)).
Qed.

(** [analyze_file], written out: its value is [merge_issues] of the
    answers, and it has asked [asked] agents. *)
Lemma analyze_file_eq code filename (s : Svc World) :
  let r1 := agent_analyze E StyleAgent code filename (world s) in
  let r2 := agent_analyze E BugAgent code filename r1.2 in
  let r3 := agent_analyze E PerformanceAgent code filename r2.2 in
  let r4 := agent_analyze E BestPracticesAgent code filename r3.2 in
  ai_agent.analyze_file E code filename s =
  (merge_issues filename r1.1 r2.1 r3.1 r4.1,
   mkSvc (match asked r1.1 r2.1 r3.1 with
          | 1%nat => r1.2 | 2%nat => r2.2 | 3%nat => r3.2 | _ => r4.2
          end)
     (calls s ++
      take (asked r1.1 r2.1 r3.1)
        [CallAnalyze StyleAgent code filename r1.1;
         CallAnalyze BugAgent code filename r2.1;
         CallAnalyze PerformanceAgent code filename r3.1;
         CallAnalyze BestPracticesAgent code filename r4.1])).
Proof.
  intros r1 r2 r3 r4. unfold ai_agent.analyze_file, merge_issues, asked. cbv zeta.
  unfold bind at 1. rewrite analyze_run. fold r1. unfold bind at 1, lift at 1.
  destruct (ai_agent.stamp StyleAgent r1.1) as [s1|e]; [|done].
  unfold bind at 1. rewrite analyze_run. cbn [world calls]. fold r2.
  unfold bind at 1, lift at 1.
  destruct (ai_agent.stamp BugAgent r2.1) as [s2|e];
    [|by cbn [take]; rewrite <- app_assoc].
  unfold bind at 1. rewrite analyze_run. cbn [world calls]. fold r3.
  unfold bind at 1, lift at 1.
  destruct (ai_agent.stamp PerformanceAgent r3.1) as [s3|e];
    [|by cbn [take]; rewrite <- !app_assoc].
  unfold bind at 1. rewrite analyze_run. cbn [world calls]. fold r4.
  unfold bind at 1, lift at 1.
  destruct (ai_agent.stamp BestPracticesAgent r4.1) as [s4|e];
    [|by cbn [take]; rewrite <- !app_assoc].
  destruct (ai_agent.unique_loop _ [] []) as [u|e]; unfold ret, raise;
    by cbn [take]; rewrite <- !app_assoc.
Qed.

Lemma asked_bounds (a1 a2 a3 : list Element) : (1 <= asked a1 a2 a3 <= 4)%nat.
Proof.
  unfold asked. destruct (ai_agent.stamp _ a1); [|lia].
  destruct (ai_agent.stamp _ a2); [|lia]. destruct (ai_agent.stamp _ a3); lia.
Qed.

Lemma asked_all filename a1 a2 a3 a4 analysis :
  merge_issues filename a1 a2 a3 a4 = Ok analysis -> asked a1 a2 a3 = 4%nat.
Proof.
  unfold merge_issues, asked. destruct (ai_agent.stamp _ a1); [|done].
  destruct (ai_agent.stamp _ a2); [|done]. by destruct (ai_agent.stamp _ a3).
Qed.

End Runs.

(** *** Against the specification *)

Lemma reports_stamped k issue f :
  reports issue f ->
  represents (<["type" := PyStr (issue_type k)]> issue) (Spec.tag (variant_of k) f).
Proof.
  unfold represents, reports, py_get. intros (Hl & Hd & Hs).
  rewrite !lookup_insert_ne by done. rewrite lookup_insert_eq.
  split; [done|]. by destruct k.
Qed.

Lemma stamp_reported k answer findings :
  Forall2 reported answer findings ->
  exists stamped,
    ai_agent.stamp k answer = Ok stamped /\
    Forall2 represents stamped (map (Spec.tag (variant_of k)) findings).
Proof.
  induction 1 as [|element f answer findings (issue & -> & Hrep) _ (stamped & Hst & Hall)].
  - by exists [].
  - exists (<["type" := PyStr (issue_type k)]> issue :: stamped). simpl. rewrite Hst.
    split; [done|]. constructor; [by apply reports_stamped | done].
Qed.

Lemma represents_key issue f :
  represents issue f -> ai_agent.issue_key issue = code_key (Spec.key f).
Proof.
  intros [(Hl & Hd & _) _]. unfold ai_agent.issue_key, code_key, Spec.key.
  by rewrite Hl, Hd.
Qed.

Lemma code_key_eqb k1 k2 :
  ai_agent.key_eqb (code_key k1) (code_key k2) = bool_decide (k1 = k2).
Proof.
  assert (forall a b, py_eqb (PyInt a) (PyInt b) = (a =? b)) as Hint
    by (intros; apply dyadic_eqb_int).
  assert (forall a b, py_eqb (PyStr a) (PyStr b) = String.eqb a b) as Hstr by done.
  destruct k1 as [[n1|] d1], k2 as [[n2|] d2]; unfold ai_agent.key_eqb, code_key;
    cbn [fst snd]; rewrite ?Hint, Hstr; try change (py_eqb PyNone PyNone) with true;
    try change (py_eqb PyNone (PyInt n2)) with false;
    try change (py_eqb (PyInt n1) PyNone) with false; cbn [andb].
  - destruct (Z.eqb_spec n1 n2) as [->|Hn], (String.eqb_spec d1 d2) as [->|Hd]; simpl;
      [by rewrite bool_decide_eq_true_2
      |rewrite bool_decide_eq_false_2; [done|congruence]..].
  - rewrite bool_decide_eq_false_2; done.
  - rewrite bool_decide_eq_false_2; done.
  - destruct (String.eqb_spec d1 d2) as [->|Hd];
      [by rewrite bool_decide_eq_true_2 | rewrite bool_decide_eq_false_2; [done|congruence]].
Qed.

Lemma code_key_hashable k : ai_agent.key_hash_check (code_key k) = None.
Proof. by destruct k as [[n|] d]. Qed.

Lemma key_in_code_keys k seen :
  ai_agent.key_in (code_key k) (code_key <$> seen) = bool_decide (k ∈ seen).
Proof.
  unfold ai_agent.key_in. induction seen as [|k' seen IH].
  - rewrite fmap_nil. cbn [existsb]. symmetry.
    by apply bool_decide_eq_false_2, not_elem_of_nil.
  - rewrite fmap_cons. cbn [existsb]. rewrite IH, code_key_eqb.
    destruct (decide (k = k')) as [->|Hne].
    + rewrite bool_decide_eq_true_2 by done. cbn [orb]. symmetry.
      apply bool_decide_eq_true_2, elem_of_cons. by left.
    + rewrite (bool_decide_eq_false_2 (k = k')) by done. cbn [orb].
      apply bool_decide_ext. rewrite elem_of_cons. tauto.
Qed.

(** The loop of [analyze_file] keeps what the specification's
    deduplication keeps. *)
Lemma unique_loop_refines all_issues findings :
  Forall2 represents all_issues findings ->
  forall seen unique_issues,
  exists kept,
    ai_agent.unique_loop all_issues (code_key <$> seen) unique_issues =
      Ok (unique_issues ++ kept) /\
    Forall2 represents kept (Spec.dedup seen findings).
Proof.
  induction 1 as [|x f all_issues findings Hx _ IH]; intros seen acc; simpl.
  - exists []. by rewrite app_nil_r.
  - rewrite (represents_key x f Hx), code_key_hashable, key_in_code_keys.
    destruct (bool_decide (Spec.key f ∈ seen)); simpl; [apply IH|].
    destruct (IH (Spec.key f :: seen) (acc ++ [x])) as (kept & Hk & Hall).
    rewrite fmap_cons in Hk. exists (x :: kept). rewrite Hk, <- app_assoc.
    split; [done|]. by constructor.
Qed.

Lemma seen_after_mono seen findings k : k ∈ seen -> k ∈ seen_after seen findings.
Proof.
  revert seen. induction findings as [|f rest IH]; intros seen Hk; [done|].
  unfold seen_after. simpl. apply IH.
  destruct (bool_decide _); [done|]. apply elem_of_cons. by right.
Qed.

Lemma seen_after_elem seen findings f :
  f ∈ findings -> Spec.key f ∈ seen_after seen findings.
Proof.
  revert seen. induction findings as [|g rest IH]; intros seen; [by intros ?%elem_of_nil|].
  intros [->|Hin]%elem_of_cons; unfold seen_after; simpl.
  - apply seen_after_mono. destruct (bool_decide _) eqn:Hd.
    + by apply bool_decide_eq_true in Hd.
    + apply elem_of_cons. by left.
  - by apply IH.
Qed.

Lemma dedup_app seen l1 l2 :
  Spec.dedup seen (l1 ++ l2) = Spec.dedup seen l1 ++ Spec.dedup (seen_after seen l1) l2.
Proof.
  revert seen. induction l1 as [|f l1 IH]; intros seen; [done|].
  unfold seen_after. simpl. destruct (bool_decide _); [apply IH|].
  simpl. f_equal. apply IH.
Qed.

Lemma dedup_elem seen findings f :
  f ∈ Spec.dedup seen findings -> f ∈ findings /\ Spec.key f ∉ seen.
Proof.
  revert seen. induction findings as [|g rest IH]; intros seen; simpl;
    [by intros ?%elem_of_nil|].
  destruct (bool_decide (Spec.key g ∈ seen)) eqn:Hd.
  - intros [? ?]%IH. split; [apply elem_of_cons; by right | done].
  - apply bool_decide_eq_false in Hd. intros [->|[? Hno]%IH]%elem_of_cons.
    + split; [apply elem_of_cons; by left | done].
    + split; [apply elem_of_cons; by right|]. intros ?. apply Hno, elem_of_cons. by right.
Qed.

(** The tie-break, in the specification's terms: a surviving finding
    carries the category of its variant, and no variant before that one
    has reported its key. *)
Lemma analyzeFile_tie_break outputs f :
  f ∈ Spec.analyzeFile outputs ->
  exists v g,
    g ∈ outputs v /\ f = Spec.tag v g /\
    forall v' g', (Spec.position v' < Spec.position v)%nat ->
      g' ∈ outputs v' -> Spec.key g' <> Spec.key g.
Proof.
  unfold Spec.analyzeFile, Spec.concatenated. intros Hf%subseteq_take.
  assert (forall v seen,
            f ∈ Spec.dedup seen (map (Spec.tag v) (outputs v)) ->
            exists g, g ∈ outputs v /\ f = Spec.tag v g /\ Spec.key g ∉ seen) as Hseg.
  { intros v seen [Hin Hno]%dedup_elem.
    apply list_elem_of_In, in_map_iff in Hin as (g & <- & Hg).
    exists g. split; [by apply list_elem_of_In|]. done. }
  assert (forall v g seen, g ∈ outputs v ->
            Spec.key g ∈ seen_after seen (map (Spec.tag v) (outputs v)))
    as Hseen.
  { intros v g seen Hg.
    change (Spec.key g) with (Spec.key (Spec.tag v g)).
    apply seen_after_elem.
    apply list_elem_of_In, in_map_iff. exists g. by rewrite <- list_elem_of_In. }
  rewrite !dedup_app, !elem_of_app in Hf.
  destruct Hf as [Hf|[Hf|[Hf|Hf]]]; apply Hseg in Hf as (g & Hg & -> & Hno).
  - exists Spec.style, g. split; [done|]. split; [done|].
    intros v' g' Hlt. destruct v'; simpl in Hlt; lia.
  - exists Spec.defect, g. split; [done|]. split; [done|].
    intros v' g' Hlt Hg' Heq. destruct v'; simpl in Hlt; try lia.
    apply Hno. rewrite <- Heq. by apply Hseen.
  - exists Spec.performance, g. split; [done|]. split; [done|].
    intros v' g' Hlt Hg' Heq. apply Hno. rewrite <- Heq.
    destruct v'; simpl in Hlt; try lia.
    + apply seen_after_mono. by apply Hseen.
    + by apply Hseen.
  - exists Spec.convention, g. split; [done|]. split; [done|].
    intros v' g' Hlt Hg' Heq. apply Hno. rewrite <- Heq.
    destruct v'; simpl in Hlt; try lia.
    + do 2 apply seen_after_mono. by apply Hseen.
    + apply seen_after_mono. by apply Hseen.
    + by apply Hseen.
Qed.

(** [merge_issues] on answers that report findings of the specification. *)
Lemma merge_issues_refines filename (a : AgentKind -> list Element) outputs :
  (forall k, Forall2 reported (a k) (outputs (variant_of k))) ->
  exists r,
    merge_issues filename (a StyleAgent) (a BugAgent) (a PerformanceAgent)
      (a BestPracticesAgent) = Ok r /\
    name r = filename /\
    Forall2 represents (issues r) (Spec.analyzeFile outputs).
Proof.
  intros Hrep. unfold merge_issues.
  destruct (stamp_reported StyleAgent _ _ (Hrep StyleAgent)) as (s1 & -> & H1).
  destruct (stamp_reported BugAgent _ _ (Hrep BugAgent)) as (s2 & -> & H2).
  destruct (stamp_reported PerformanceAgent _ _ (Hrep PerformanceAgent)) as (s3 & -> & H3).
  destruct (stamp_reported BestPracticesAgent _ _ (Hrep BestPracticesAgent))
    as (s4 & -> & H4).
  assert (Forall2 represents (((([] ++ s1) ++ s2) ++ s3) ++ s4)
            (Spec.concatenated outputs)) as Hall.
  { unfold Spec.concatenated. simpl in *. rewrite <- !app_assoc.
    repeat apply Forall2_app; done. }
  destruct (unique_loop_refines _ _ Hall [] []) as (kept & Hk & Hkept).
  rewrite fmap_nil in Hk. rewrite Hk. eexists. split; [reflexivity|].
  split; [done|]. simpl. unfold Spec.analyzeFile. by apply Forall2_take.
Qed.

(** C4, as amended.  Whenever the four agents answer with findings of the
    specification - objects with an integer or no line, a text as
    description and a text as suggestion - [analyze_file] returns, under
    the name of the file, the findings that the specification describes:
    each forced to the category of its agent, the four answers
    concatenated in the order style, defect, performance, convention,
    duplicates by (line, description) dropped in favour of the first
    occurrence, the first 10 survivors kept.  Hence there are at most 10,
    and a key reported by several agents carries the category of the first
    of them.  When some element of some answer is not an object, or has a
    list or a dict as line or description, [analyze_file] returns nothing:
    it raises a [TypeError].  Whatever the answers, a result that
    [analyze_file] returns bears the file's name and has at most 10
    issues. *)
Theorem analyze_file_merges_as_specified
    {World : Type} (E : Env World) (code filename : string) (s : Svc World)
    (a : AgentKind -> list Element) (w1 w2 w3 w4 : World) :
  agent_analyze E StyleAgent code filename (world s) = (a StyleAgent, w1) ->
  agent_analyze E BugAgent code filename w1 = (a BugAgent, w2) ->
  agent_analyze E PerformanceAgent code filename w2 = (a PerformanceAgent, w3) ->
  agent_analyze E BestPracticesAgent code filename w3 = (a BestPracticesAgent, w4) ->
  let run := ai_agent.analyze_file E code filename s in
  (forall outputs : Spec.Category -> list Spec.Finding,
     (forall k, Forall2 reported (a k) (outputs (variant_of k))) ->
     exists r,
       run.1 = Ok r /\ name r = filename /\
       Forall2 represents (issues r) (Spec.analyzeFile outputs) /\
       (length (issues r) <= 10)%nat /\
       forall x, x ∈ issues r ->
         exists v g,
           g ∈ outputs v /\ represents x (Spec.tag v g) /\
           forall v' g', (Spec.position v' < Spec.position v)%nat ->
             g' ∈ outputs v' -> Spec.key g' <> Spec.key g) /\
  ((exists k element, element ∈ a k /\ malformed element) ->
   exists e, run.1 = Raise e /\ exc_class e = "TypeError") /\
  (forall r, run.1 = Ok r -> name r = filename /\ (length (issues r) <= 10)%nat).
Proof.
  intros H1 H2 H3 H4 run. subst run. rewrite analyze_file_eq. cbn [fst].
  rewrite H1. cbn [fst snd]. rewrite H2. cbn [fst snd]. rewrite H3. cbn [fst snd].
  rewrite H4. cbn [fst snd]. split; [|split].
  - intros outputs Hrep.
    destruct (merge_issues_refines filename a outputs Hrep) as (r & -> & Hname & Hall).
    exists r. split; [done|]. split; [done|]. split; [done|]. split.
    { apply Forall2_length in Hall. rewrite Hall. unfold Spec.analyzeFile.
      rewrite length_take. lia. }
    intros x Hx. apply list_elem_of_lookup in Hx as [i Hi].
    destruct (Forall2_lookup_l _ _ _ _ _ Hall Hi) as (f & Hf & Hxf).
    apply list_elem_of_lookup_2 in Hf.
    destruct (analyzeFile_tie_break outputs f Hf) as (v & g & Hg & -> & Hfirst).
    by exists v, g.
  - intros (k & element & Hin & Hbad).
    apply (merge_issues_malformed filename _ _ _ _ element); [|done].
    rewrite !elem_of_app. destruct k; auto.
  - intros r (style & bug & perf & conv & _ & _ & _ & _ & _ & ->)%merge_issues_ok.
    split; [done | apply merged_length].
Qed.

Lemma analyze_file_merges_as_specified_witness :
  let run :=
    ai_agent.analyze_file Fixtures.two_reviewers "print(1)" "main.py" (svc Fixtures.start) in
  exists r,
    run.1 = Ok r /\ name r = "main.py" /\
    Forall2 represents (issues r)
      [Spec.mkFinding (Some 3) Spec.style "unused variable" "remove it";
       Spec.mkFinding (Some 7) Spec.defect "division by zero" "check the divisor"] /\
    (length (issues r) <= 10)%nat.
Proof.
  set (a := fun k =>
    Object <$> match k with
               | StyleAgent =>
                   [Fixtures.full_finding 3 "performance" "unused variable" "remove it"]
               | BugAgent =>
                   [Fixtures.full_finding 3 "performance" "unused variable" "delete it";
                    Fixtures.full_finding 7 "bug" "division by zero" "check the divisor"]
               | _ => []
               end).
  set (outputs := fun v =>
    match v with
    | Spec.style =>
        [Spec.mkFinding (Some 3) Spec.performance "unused variable" "remove it"]
    | Spec.defect =>
        [Spec.mkFinding (Some 3) Spec.performance "unused variable" "delete it";
         Spec.mkFinding (Some 7) Spec.defect "division by zero" "check the divisor"]
    | _ => []
    end).
  destruct (analyze_file_merges_as_specified Fixtures.two_reviewers "print(1)" "main.py"
              (svc Fixtures.start) a
              (world (svc Fixtures.start)) (world (svc Fixtures.start))
              (world (svc Fixtures.start)) (world (svc Fixtures.start))
              eq_refl eq_refl eq_refl eq_refl) as [Hspec _].
  destruct (Hspec outputs) as (r & Hr & Hname & Hall & Hlen & _).
  { intros []; repeat constructor;
      (eexists; split; [reflexivity|]; repeat split; vm_compute; reflexivity). }
  exists r. split; [exact Hr|]. split; [exact Hname|]. split; [exact Hall|exact Hlen].
Defined.

(** An agent that answers with the array [[1, 2]]: [analyze_file] raises
    when it stamps the answer, after the call of the style agent and before
    that of the bug agent, and returns no findings at all. *)
Lemma analyze_file_fails_on_malformed_answer :
  let run :=
    ai_agent.analyze_file Fixtures.numbers_for_findings "print(1)" "main.py"
      (svc Fixtures.start) in
  run.1 = Raise (mkExc "TypeError" "'int' object is not a mapping") /\
  call_target <$> calls run.2 = [Some (StyleAgent, "print(1)", "main.py")].
Proof. vm_compute. split; reflexivity. Qed.

(** The findings of the end-to-end example of the specification. *)
Example analyzeFile_two_variants :
  Spec.analyzeFile
    (fun v =>
       match v with
       | Spec.style => [Spec.mkFinding (Some 3) Spec.style "unused variable" ""]
       | Spec.defect => [Spec.mkFinding (Some 3) Spec.convention "unused variable" "";
                         Spec.mkFinding (Some 7) Spec.defect "division by zero" ""]
       | _ => []
       end) =
  [Spec.mkFinding (Some 3) Spec.style "unused variable" "";
   Spec.mkFinding (Some 7) Spec.defect "division by zero" ""].
Proof. vm_compute. reflexivity. Qed.

(** ** Strings *)

Lemma length_str_take n s : String.length (str_take n s) = min n (String.length s).
Proof.
  revert s. induction n as [|n IH]; intros [|c r]; simpl; auto.
Qed.

Lemma str_take_all n s : (String.length s <= n)%nat -> str_take n s = s.
Proof.
  revert s. induction n as [|n IH]; intros [|c r]; simpl; intros H; try done; try lia.
  rewrite IH; [done | lia].
Qed.

Lemma str_take_idemp n s : str_take n (str_take n s) = str_take n s.
Proof. apply str_take_all. rewrite length_str_take. lia. Qed.

(** What [analyze_pr] hands to the agents for a file with content
    [content]. *)
Lemma handed_code content :
  (if 10000 <? len content then str_take (Z.to_nat 10000) content else content) =
  str_take (Z.to_nat 10000) content.
Proof.
  destruct (10000 <? len content) eqn:H; [done|].
  symmetry. apply str_take_all. apply Z.ltb_ge in H. unfold len in H. lia.
Qed.

Lemma len_str_take_zero content :
  (len (str_take (Z.to_nat 10000) content) =? 0) = (len content =? 0).
Proof.
  destruct content as [|c r]; [done|].
  assert (exists k, Z.to_nat 10000 = S k) as [k ->] by (exists (Z.to_nat 9999); lia).
  done.
Qed.

(** ** The orchestrator *)

Lemma analyzed_from_intro file_contents filename content k out :
  file_contents !! filename = Some content ->
  (len content =? 0) = false ->
  analyzed_from file_contents
    (CallAnalyze k (str_take (Z.to_nat 10000) content) filename out).
Proof.
  intros Hc Hlen%Z.eqb_neq. exists content. unfold len in *.
  split; [done|]. split; [lia | done].
Qed.

Section OrchestratorRuns.
Context {World : Type} (E : Env World).

Lemma analyze_file_run code filename (s : Svc World) r s' :
  ai_agent.analyze_file E code filename s = (r, s') ->
  (exists new,
     calls s' = calls s ++ new /\ new <> [] /\
     Forall (fun c => exists k out, c = CallAnalyze k code filename out) new) /\
  (forall analysis, r = Ok analysis ->
     name analysis = filename /\ (length (issues analysis) <= 10)%nat).
Proof.
  rewrite analyze_file_eq. cbv zeta. intros [= <- <-]. cbn [calls]. split.
  - eexists. split; [reflexivity|].
    pose proof (asked_bounds
      (agent_analyze E StyleAgent code filename (world s)).1
      (agent_analyze E BugAgent code filename
         (agent_analyze E StyleAgent code filename (world s)).2).1
      (agent_analyze E PerformanceAgent code filename
         (agent_analyze E BugAgent code filename
            (agent_analyze E StyleAgent code filename (world s)).2).2).1) as Hn.
    destruct (asked _ _ _) as [|n]; [lia|]. split; [done|].
    apply Forall_take. repeat (constructor; [by eexists _, _|]). constructor.
  - intros analysis Hok.
    apply merge_issues_ok in Hok as (style & bug & perf & conv & _ & _ & _ & _ & _ & ->).
    simpl. unfold merged_issues. rewrite length_take. split; [done | lia].
Qed.

Lemma analyze_pr_loop_run pr_files file_contents :
  forall all_issues results_files (s : Svc World) r s',
    ai_agent.analyze_pr_loop E pr_files file_contents all_issues results_files s
      = (r, s') ->
    exists new,
      calls s' = calls s ++ new /\
      Forall (analyzed_from file_contents) new /\
      forall all_issues' results_files',
        r = Ok (all_issues', results_files') ->
        (all_issues = concat (issues <$> results_files) ->
         all_issues' = concat (issues <$> results_files')) /\
        (Forall (fun f => issues f <> []) results_files ->
         Forall (fun f => issues f <> []) results_files') /\
        (forall f, f ∈ results_files' ->
           f ∈ results_files \/
           (length (issues f) <= 10)%nat /\
           exists k code out, CallAnalyze k code (name f) out ∈ new).
Proof.
  induction pr_files as [|file_data rest IH]; intros ai rf s r s';
    cbn [ai_agent.analyze_pr_loop].
  - unfold ret. intros [= <- <-]. exists []. rewrite app_nil_r.
    split; [done|]. split; [done|]. intros ai' rf' [= <- <-]. eauto.
  - set (filename := default "" (file_data !! "filename")).
    destruct (ai_agent._is_code_file filename); cbn [negb]; [|by apply IH].
    destruct (file_contents !! filename) as [content|] eqn:Hc; [|by apply IH].
    destruct (len content =? 0) eqn:Hlen; [by apply IH|].
    rewrite handed_code. unfold bind at 1.
    destruct (ai_agent.analyze_file E _ filename s) as [[analysis|e] s1] eqn:Hrun;
      apply analyze_file_run in Hrun as [(four & Hcalls & Hne & Hshape) Hname].
    all: assert (Forall (analyzed_from file_contents) four) as Hfour
      by (eapply Forall_impl; [exact Hshape|];
          intros c (k & out & ->); by apply analyzed_from_intro).
    + destruct (Hname analysis eq_refl) as [Hn Hl10].
      assert (exists k code out, CallAnalyze k code filename out ∈ four) as Hcall.
      { destruct four as [|c four]; [done|]. apply Forall_cons in Hshape as [(k & out & ->) _].
        eexists _, _, _. apply elem_of_cons. by left. }
      destruct (issues analysis) as [|i tl] eqn:Hi; intros Hloop;
        apply IH in Hloop as (new & Hnew & Hall & Hres);
        (eexists; split; [rewrite Hnew, Hcalls, <- app_assoc; reflexivity|]);
        (split; [by apply Forall_app|]);
        intros ai' rf' ->; destruct (Hres ai' rf' eq_refl) as (Hcat & Hne' & Hnames).
      * split; [done|]. split; [done|]. intros f Hf.
        destruct (Hnames f Hf) as [?|(? & k & code & out & Hin)]; [by left|right].
        split; [done|]. exists k, code, out. apply elem_of_app. by right.
      * split; [|split].
        -- intros ->. apply Hcat. rewrite fmap_app, concat_app. simpl.
           by rewrite app_nil_r, Hi.
        -- intros Hrf. apply Hne', Forall_app. split; [done|].
           constructor; [by rewrite Hi | done].
        -- intros f Hf.
           destruct (Hnames f Hf) as [Hold|(? & k & code & out & Hin)].
           ++ apply elem_of_app in Hold as [?|Hs%list_elem_of_singleton]; [by left|].
              subst f. right. split; [by rewrite Hi|]. rewrite Hn.
              destruct Hcall as (k & code & out & Hin). exists k, code, out.
              apply elem_of_app. by left.
           ++ right. split; [done|]. exists k, code, out. apply elem_of_app. by right.
    + unfold raise. intros [= <- <-]. eexists. split; [exact Hcalls|].
      split; [done|done].
Qed.

End OrchestratorRuns.

Lemma length_concat_issues (l : list FileResult) :
  length (concat (issues <$> l)) = sum_list ((fun f => length (issues f)) <$> l).
Proof.
  induction l as [|f l IH]; [done|].
  rewrite !fmap_cons. simpl. rewrite List.length_app. by rewrite IH.
Qed.

Lemma count_bugs_concat_issues (l : list FileResult) :
  count_bugs (concat (issues <$> l)) = sum_list ((fun f => count_bugs (issues f)) <$> l).
Proof.
  unfold count_bugs. induction l as [|f l IH]; [done|].
  rewrite !fmap_cons. simpl. rewrite List.filter_app, List.length_app. by rewrite IH.
Qed.

Lemma count_bugs_le (l : list Issue) : (count_bugs l <= length l)%nat.
Proof. apply List.filter_length_le. Qed.

Lemma str_take_drop n s : str_take n s +:+ str_drop n s = s.
Proof.
  revert s. induction n as [|n IH]; intros [|c r]; simpl; try done.
  change (String c (str_take n r +:+ str_drop n r) = String c r).
  f_equal. apply IH.
Qed.

(** C5.  In every result of [analyze_pr], [total_files] is the number of
    files listed, [total_issues] is the sum of the numbers of issues of the
    files listed, [critical_issues] is the number of issues of type bug
    over the files listed (so it is at most [total_issues]), and every
    file listed has at least one issue. *)
Theorem analyze_pr_summary_consistent
    {World : Type} (E : Env World) (pr_files : list FileData)
    (file_contents : gmap string string) (s s' : Svc World) (r : AnalysisResult) :
  ai_agent.analyze_pr E pr_files file_contents s = (Ok r, s') ->
  total_files (summary r) = Z.of_nat (length (files r)) /\
  total_issues (summary r) =
    Z.of_nat (sum_list ((fun f => length (issues f)) <$> files r)) /\
  critical_issues (summary r) =
    Z.of_nat (sum_list ((fun f => count_bugs (issues f)) <$> files r)) /\
  critical_issues (summary r) <= total_issues (summary r) /\
  Forall (fun f => issues f <> []) (files r).
Proof.
  unfold ai_agent.analyze_pr, bind.
  destruct (ai_agent.analyze_pr_loop E pr_files file_contents [] [] s)
    as [[[all_issues results_files]|e] s1] eqn:Hloop; [|done].
  apply analyze_pr_loop_run in Hloop as (new & _ & _ & Hres).
  destruct (Hres all_issues results_files eq_refl) as (Hcat & Hne & _).
  specialize (Hcat eq_refl). specialize (Hne (Forall_nil_2 _)).
  unfold ret. intros [= <- <-]. simpl. subst all_issues.
  fold (count_bugs (concat (issues <$> results_files))).
  rewrite length_concat_issues, count_bugs_concat_issues.
  repeat split; try done.
  rewrite <- length_concat_issues, <- count_bugs_concat_issues.
  apply inj_le, count_bugs_le.
Qed.

Lemma analyze_pr_summary_consistent_witness :
  exists r s',
    ai_agent.analyze_pr Fixtures.two_agents [Fixtures.file "main.py"]
      {[ "main.py" := "print(1)" ]} (svc Fixtures.start) = (Ok r, s') /\
    (total_files (summary r) = Z.of_nat (length (files r)) /\
     total_issues (summary r) =
       Z.of_nat (sum_list ((fun f => length (issues f)) <$> files r)) /\
     critical_issues (summary r) =
       Z.of_nat (sum_list ((fun f => count_bugs (issues f)) <$> files r)) /\
     critical_issues (summary r) <= total_issues (summary r) /\
     Forall (fun f => issues f <> []) (files r)).
Proof.
  eexists _, _. split; [vm_compute; reflexivity|].
  eapply (analyze_pr_summary_consistent Fixtures.two_agents [Fixtures.file "main.py"]
            {[ "main.py" := "print(1)" ]} (svc Fixtures.start)).
  vm_compute. reflexivity.
Defined.

Section Truncation.
Context {World : Type} (E : Env World).

(** The loop of [analyze_pr] cannot tell contents from their first 10000
    characters. *)
Lemma analyze_pr_loop_truncated pr_files (file_contents : gmap string string) :
  forall all_issues results_files (s : Svc World),
    ai_agent.analyze_pr_loop E pr_files
      (str_take (Z.to_nat 10000) <$> file_contents) all_issues results_files s =
    ai_agent.analyze_pr_loop E pr_files file_contents all_issues results_files s.
Proof.
  induction pr_files as [|file_data rest IH]; intros ai rf s; [done|].
  cbn [ai_agent.analyze_pr_loop].
  set (filename := default "" (file_data !! "filename")).
  destruct (negb (ai_agent._is_code_file filename)); [by apply IH|].
  rewrite lookup_fmap.
  destruct (file_contents !! filename) as [content|]; cbn [fmap option_fmap option_map];
    [|by apply IH].
  rewrite len_str_take_zero.
  destruct (len content =? 0); [by apply IH|].
  rewrite !handed_code, str_take_idemp. unfold bind.
  destruct (ai_agent.analyze_file E _ filename s) as [[analysis|e] s1]; [|done].
  destruct (issues analysis); apply IH.
Qed.

End Truncation.

(** C7.  Every call of an agent made by [analyze_pr] is for a file that has
    a content in [file_contents], and the code handed over is the prefix of
    that content of length 10000 (the whole content when it is shorter):
    for a content longer than 10000 characters the agent receives exactly
    10000 characters and none of those after them.  The run of [analyze_pr]
    (its result and every call it makes) is identical to the run on the
    contents already cut to 10000 characters, so nothing in the result
    tells a truncated file from a whole one. *)
Theorem analyze_pr_hands_over_prefix
    {World : Type} (E : Env World) (pr_files : list FileData)
    (file_contents : gmap string string) (s : Svc World) :
  (exists new,
     calls (ai_agent.analyze_pr E pr_files file_contents s).2 = calls s ++ new /\
     forall k code filename out,
       CallAnalyze k code filename out ∈ new ->
       exists content,
         file_contents !! filename = Some content /\
         code = str_take (Z.to_nat 10000) content /\
         content = code +:+ str_drop (Z.to_nat 10000) content /\
         len code <= 10000 /\
         (10000 < len content -> len code = 10000)) /\
  ai_agent.analyze_pr E pr_files (str_take (Z.to_nat 10000) <$> file_contents) s =
  ai_agent.analyze_pr E pr_files file_contents s.
Proof.
  split.
  - unfold ai_agent.analyze_pr, bind.
    destruct (ai_agent.analyze_pr_loop E pr_files file_contents [] [] s)
      as [r s1] eqn:Hloop.
    apply analyze_pr_loop_run in Hloop as (new & Hnew & Hall & _).
    exists new. split.
    + by destruct r as [[ai rf]|e].
    + intros k code filename out Hin. rewrite Forall_forall in Hall.
      destruct (Hall _ Hin) as (content & Hc & Hpos & ->). exists content.
      split; [done|]. split; [done|]. split; [by rewrite str_take_drop|].
      unfold len. rewrite length_str_take. lia.
  - unfold ai_agent.analyze_pr, bind. by rewrite analyze_pr_loop_truncated.
Qed.

(** A file of 10001 characters: each of the four agents is handed 10000. *)
Example long_file_is_cut :
  map (fun c => match c with CallAnalyze _ code _ _ => len code | _ => -1 end)
    (calls (ai_agent.analyze_pr Fixtures.two_agents [Fixtures.file "main.py"]
              {[ "main.py" := Fixtures.filler (Z.to_nat 10001) ]}
              (svc Fixtures.start)).2) =
  [10000; 10000; 10000; 10000].
Proof. vm_compute. reflexivity. Qed.

(** ** The GitHub client *)

Section Client.
Context {World : Type} (E : Env World) (token : option string).

Lemma get_pr_files_try_calls repo_url pr_number (s : Svc World) :
  calls (github_service.get_pr_files_try E token repo_url pr_number s).2 = calls s.
Proof.
  unfold github_service.get_pr_files_try, bind, ask, ret, raise.
  destruct (_ <? _)%nat; [done|].
  destruct (last_two _) as [[owner repo]|]; [|done].
  destruct (requests_get_pull_files E token owner _ pr_number (world s))
    as [[e|status_code [files|]] w]; simpl; try done;
    by destruct (github_service.raises_for_status status_code).
Qed.

Lemma get_file_content_try_calls repo_url ref file_path (s : Svc World) :
  calls (github_service.get_file_content_try E token repo_url ref file_path s).2 =
  calls s.
Proof.
  unfold github_service.get_file_content_try, bind, ask, ret, raise.
  destruct (last_two _) as [[owner repo]|]; [|done].
  destruct (requests_get_contents E token owner _ file_path ref (world s))
    as [[e|status_code [[| |text]|]] w]; simpl; try done;
    destruct (status_code =? 404); try done;
    by destruct (github_service.raises_for_status status_code).
Qed.

(** [get_pr_files] never raises, and logs what it returns. *)
Lemma get_pr_files_run repo_url pr_number (s : Svc World) :
  exists files w,
    github_service.get_pr_files E token repo_url pr_number s =
    (Ok files, mkSvc w (calls s ++ [CallGetPRFiles repo_url pr_number files])).
Proof.
  unfold github_service.get_pr_files, bind, try_except, record_call, ret.
  pose proof (get_pr_files_try_calls repo_url pr_number s) as Hcalls.
  destruct (github_service.get_pr_files_try E token repo_url pr_number s)
    as [[files|e] s1]; simpl in *; rewrite Hcalls; eauto.
Qed.

(** Neither does [get_file_content]. *)
Lemma get_file_content_run repo_url ref file_path (s : Svc World) :
  exists content w,
    github_service.get_file_content E token repo_url ref file_path s =
    (Ok content,
     mkSvc w (calls s ++ [CallGetFileContent repo_url ref file_path content])).
Proof.
  unfold github_service.get_file_content, bind, try_except, record_call, ret.
  pose proof (get_file_content_try_calls repo_url ref file_path s) as Hcalls.
  destruct (github_service.get_file_content_try E token repo_url ref file_path s)
    as [[content|e] s1]; simpl in *; rewrite Hcalls; eauto.
Qed.

(** A failure of the request for the file list (a connection error, a
    timeout, an error status, an unreadable body) comes back as the empty
    list. *)
Lemma get_pr_files_absorbs_failures repo_url pr_number (s : Svc World) owner repo :
  last_two (github_service.url_parts repo_url) = Some (owner, repo) ->
  (length (github_service.url_parts repo_url) <? 2)%nat = false ->
  match (requests_get_pull_files E token owner (remove_dot_git repo) pr_number
           (world s)).1 with
  | RequestFailed _ => True
  | Response status_code json =>
      github_service.raises_for_status status_code = true \/ json = None
  end ->
  (github_service.get_pr_files E token repo_url pr_number s).1 = Ok [].
Proof.
  intros Hparts Hlen.
  unfold github_service.get_pr_files, bind, try_except, record_call, ret,
    github_service.get_pr_files_try, bind, ask, raise, ret.
  rewrite Hlen, Hparts.
  destruct (requests_get_pull_files E token owner (remove_dot_git repo) pr_number
              (world s)) as [[e|status_code json] w]; simpl; [done|].
  intros [->| ->]; [done|]. by destruct (github_service.raises_for_status _).
Qed.

End Client.

(** ** The task *)

Section Fetch.
Context {World : Type} (E : Env World).

Lemma stored_lookup file_contents filename content f c :
  stored file_contents filename content !! f = Some c ->
  file_contents !! f = Some c \/
  (f = filename /\ content = Some c /\ 0 < len c < 100000).
Proof.
  unfold stored. destruct content as [text|]; [|by left].
  destruct (negb (len text =? 0) && (len text <? 100000)) eqn:Hcond; [|by left].
  apply andb_true_iff in Hcond as [Hne%negb_true_iff%Z.eqb_neq Hlt%Z.ltb_lt].
  destruct (decide (filename = f)) as [->|Hf].
  - rewrite lookup_insert_eq. intros [= ->]. right. unfold len in *.
    repeat split; try done; lia.
  - rewrite lookup_insert_ne by done. by left.
Qed.

Lemma stored_lookup_ne file_contents filename content f :
  f <> filename -> stored file_contents filename content !! f = file_contents !! f.
Proof.
  intros Hf. unfold stored. destruct content as [text|]; [|done].
  destruct (_ && _); [|done]. by rewrite lookup_insert_ne.
Qed.

Lemma stored_too_long file_contents filename text :
  100000 <= len text -> stored file_contents filename (Some text) = file_contents.
Proof.
  intros Hlen. unfold stored.
  destruct (len text <? 100000) eqn:Hlt; [apply Z.ltb_lt in Hlt; lia|].
  by rewrite andb_false_r.
Qed.

Lemma fetch_loop_run token repo_url pr_number files :
  forall file_contents (s : Svc World),
  exists file_contents' s' new,
    tasks.fetch_loop E token repo_url pr_number files file_contents s =
      (Ok file_contents', s') /\
    calls s' = calls s ++ new /\
    (forall c, c ∈ new ->
       exists file_data content,
         file_data ∈ files /\
         c = CallGetFileContent repo_url (head_ref pr_number)
               (filename_of file_data) content) /\
    (forall f c, file_contents' !! f = Some c ->
       file_contents !! f = Some c \/
       (CallGetFileContent repo_url (head_ref pr_number) f (Some c) ∈ new /\
        0 < len c < 100000)) /\
    (forall f, f ∉ filename_of <$> files -> file_contents' !! f = file_contents !! f) /\
    (NoDup (filename_of <$> files) ->
     forall f content,
       CallGetFileContent repo_url (head_ref pr_number) f (Some content) ∈ new ->
       100000 <= len content ->
       file_contents' !! f = file_contents !! f).
Proof.
  induction files as [|file_data rest IH]; intros fc s.
  - exists fc, s, []. simpl. unfold ret. rewrite app_nil_r.
    split; [done|]. split; [done|]. split; [by intros ? ?%elem_of_nil|].
    split; [by left|]. split; [done|]. by intros _ ? ? ?%elem_of_nil.
  - cbn [tasks.fetch_loop]. fold (filename_of file_data). fold (head_ref pr_number).
    unfold bind at 1. unfold try_except, bind at 1.
    destruct (get_file_content_run E token repo_url (head_ref pr_number)
                (filename_of file_data) s) as (content & w & ->).
    set (s1 := mkSvc w _).
    assert (match content with
            | Some text =>
                if negb (len text =? 0) && (len text <? 100000)
                then ret (<[filename_of file_data := text]> fc)
                else ret fc
            | None => ret fc
            end s1 = (Ok (stored fc (filename_of file_data) content), s1)) as ->.
    { unfold stored, ret. destruct content as [text|]; [|done].
      by destruct (_ && _). }
    destruct (IH (stored fc (filename_of file_data) content) s1)
      as (fc' & s' & new & -> & Hcalls & HA & HB & HD & HC).
    exists fc', s', (CallGetFileContent repo_url (head_ref pr_number)
                       (filename_of file_data) content :: new).
    split; [done|]. split; [by rewrite Hcalls; subst s1; simpl; rewrite <- app_assoc|].
    split; [|split; [|split]].
    + intros c [->|Hc]%elem_of_cons.
      * exists file_data, content. split; [apply elem_of_cons; by left | done].
      * destruct (HA c Hc) as (fd & ct & Hfd & ->). exists fd, ct.
        split; [apply elem_of_cons; by right | done].
    + intros f c Hf. destruct (HB f c Hf) as [Hst|[Hin Hlen]].
      * apply stored_lookup in Hst as [?|(-> & -> & ?)]; [by left|right].
        split; [apply elem_of_cons; by left | done].
      * right. split; [apply elem_of_cons; by right | done].
    + intros f Hf. rewrite fmap_cons, not_elem_of_cons in Hf. destruct Hf as [Hne Hf].
      rewrite (HD f Hf). by apply stored_lookup_ne.
    + rewrite fmap_cons. intros [Hhead Hnd]%NoDup_cons f ct Hin Hlen.
      apply elem_of_cons in Hin as [Heq|Hin].
      * injection Heq as Hf Hct. subst f content.
        rewrite (HD _ Hhead). by rewrite stored_too_long.
      * rewrite (HC Hnd f ct Hin Hlen). apply stored_lookup_ne.
        destruct (HA _ Hin) as (fd & ct' & Hfd & Heq). injection Heq as Hf _.
        subst f. intros Heq. apply Hhead. rewrite <- Heq. by apply list_elem_of_fmap_2.
Qed.

End Fetch.

Section Pipeline.
Context {World : Type} (E : Env World).

Lemma analyze_pr_run pr_files file_contents (s : Svc World) r s' :
  ai_agent.analyze_pr E pr_files file_contents s = (r, s') ->
  exists new,
    calls s' = calls s ++ new /\
    Forall (analyzed_from file_contents) new /\
    forall res, r = Ok res ->
      forall f, f ∈ files res ->
        (length (issues f) <= 10)%nat /\ issues f <> [] /\
        exists k code out, CallAnalyze k code (name f) out ∈ new.
Proof.
  unfold ai_agent.analyze_pr, bind.
  destruct (ai_agent.analyze_pr_loop E pr_files file_contents [] [] s)
    as [r1 s1] eqn:Hloop.
  apply analyze_pr_loop_run in Hloop as (new & Hnew & Hall & Hres).
  destruct r1 as [[ai rf]|e]; unfold ret; intros [= <- <-];
    exists new; (split; [done|]); (split; [done|]); [|done].
  intros res [= <-] f Hf. simpl in Hf.
  destruct (Hres ai rf eq_refl) as (_ & Hne & Hnames).
  specialize (Hne (Forall_nil_2 _)). rewrite Forall_forall in Hne.
  destruct (Hnames f Hf) as [?%elem_of_nil|[Hl Hcall]]; [done|].
  split; [done|]. split; [by apply Hne | done].
Qed.

(** The calls of one pass through steps 1 to 3: the file list is asked
    for once; then come requests for contents, all for entries among the
    first 15 of the list; then calls of agents, each on a file for which
    a request returned a content of fewer than 100000 characters. *)
Lemma fetch_and_analyze_run repo_url pr_number token (s : Svc World) r s' :
  tasks.fetch_and_analyze E repo_url pr_number token s = (r, s') ->
  exists pr_files rest,
    calls s' = calls s ++ CallGetPRFiles repo_url pr_number pr_files :: rest /\
    (pr_files = [] -> r = Raise no_code_files /\ rest = []) /\
    (forall c, c ∈ rest ->
       (exists file_data content,
          file_data ∈ take 15 pr_files /\
          c = CallGetFileContent repo_url (head_ref pr_number)
                (filename_of file_data) content) \/
       (exists k code f out content,
          c = CallAnalyze k code f out /\
          CallGetFileContent repo_url (head_ref pr_number) f (Some content) ∈ rest /\
          0 < len content < 100000 /\
          code = str_take (Z.to_nat 10000) content)) /\
    (NoDup (filename_of <$> take 15 pr_files) ->
     forall f content,
       CallGetFileContent repo_url (head_ref pr_number) f (Some content) ∈ rest ->
       100000 <= len content ->
       forall k code out, CallAnalyze k code f out ∉ rest) /\
    (forall res, r = Ok res ->
       forall f, f ∈ files res ->
         (length (issues f) <= 10)%nat /\ issues f <> [] /\
         exists k code out, CallAnalyze k code (name f) out ∈ rest).
Proof.
  unfold tasks.fetch_and_analyze. unfold bind at 1.
  destruct (get_pr_files_run E token repo_url pr_number s) as (pr_files & w & ->).
  destruct pr_files as [|file_data more].
  { unfold bind, raise. intros [= <- <-]. exists [], []. cbn [calls].
    split; [done|]. split; [done|]. split; [by intros ? ?%elem_of_nil|].
    split; [by intros _ ? ? ?%elem_of_nil | done]. }
  set (pr_files := file_data :: more). unfold bind at 1, ret at 1. unfold bind at 1.
  destruct (fetch_loop_run E token repo_url pr_number (take 15 pr_files) ∅
              (mkSvc w (calls s ++ [CallGetPRFiles repo_url pr_number pr_files])))
    as (fc & s2 & new & -> & Hcalls & HA & HB & _ & HC).
  simpl in Hcalls.
  assert (forall c, c ∈ new -> forall k code f out, c <> CallAnalyze k code f out)
    as Hnew_fetch.
  { intros c Hc k code f out ->. by destruct (HA _ Hc) as (? & ? & _ & ?). }
  unfold bind at 1, ask.
  destruct (new_chat_clients E (world s2)) as [[e|] w3] eqn:Hclients.
  - (* the clients cannot be built *)
    unfold bind, raise. intros [= <- <-]. exists pr_files, new. cbn [calls].
    split; [by rewrite Hcalls, <- app_assoc|]. split; [done|].
    split; [by intros c Hc; left; apply HA|].
    split; [|done]. intros _ f content _ _ k code out Hin.
    by eapply Hnew_fetch.
  - unfold bind at 1, ret at 1. intros Hrun.
    apply analyze_pr_run in Hrun as (new2 & Hcalls2 & Hall & Hres).
    simpl in Hcalls2. rewrite Forall_forall in Hall.
    assert (forall c, c ∈ new2 ->
              exists k code f out content,
                c = CallAnalyze k code f out /\
                fc !! f = Some content /\
                CallGetFileContent repo_url (head_ref pr_number) f (Some content) ∈ new /\
                0 < len content < 100000 /\
                code = str_take (Z.to_nat 10000) content) as Hnew2.
    { intros c Hc. specialize (Hall c Hc).
      destruct c as [| |k code f out]; try done.
      destruct Hall as (content & Hfc & _ & ->).
      destruct (HB f content Hfc) as [?|[Hin Hlen]]; [done|].
      by exists k, (str_take (Z.to_nat 10000) content), f, out, content. }
    exists pr_files, (new ++ new2).
    split; [by rewrite Hcalls2, Hcalls, <- !app_assoc|]. split; [done|].
    split; [|split].
    + intros c [Hc|Hc]%elem_of_app; [by left; apply HA|right].
      destruct (Hnew2 c Hc) as (k & code & f & out & content & -> & _ & Hin & Hlen & ->).
      exists k, (str_take (Z.to_nat 10000) content), f, out, content.
      rewrite elem_of_app. eauto.
    + intros Hnd f content Hin Hlen k code out Hcall.
      assert (fc !! f = None) as Hnone.
      { apply elem_of_app in Hin as [Hin|Hin].
        - by rewrite (HC Hnd f content Hin Hlen).
        - by destruct (Hnew2 _ Hin) as (? & ? & ? & ? & ? & ? & _). }
      apply elem_of_app in Hcall as [Hcall|Hcall]; [by eapply Hnew_fetch|].
      destruct (Hnew2 _ Hcall) as (? & ? & ? & ? & ? & [= <- <- <- <-] & ? & _).
      congruence.
    + intros res -> f Hf. destruct (Hres res eq_refl f Hf) as (? & ? & k & code & out & ?).
      split; [done|]. split; [done|]. exists k, code, out. rewrite elem_of_app. eauto.
Qed.

End Pipeline.

(** ** One execution of the task *)

Section Execution.
Context {World : Type} (E : Env World).

Lemma in_svc_run {A} (m : M (Svc World) A) (st : TaskState World) :
  in_svc m st = ((m (svc st)).1, mkTaskState (m (svc st)).2 (db st) (history st)).
Proof. unfold in_svc. by destruct (m (svc st)). Qed.

Lemma update_status_processing_run id (st : TaskState World) :
  tasks.update_status_processing E id st =
  (Ok tt,
   match db st !! id with
   | Some task =>
       let now := (utcnow E (world (svc st))).1 in
       mkTaskState (mkSvc (utcnow E (world (svc st))).2 (calls (svc st)))
         (<[id := tasks.mark_processing task now]> (db st))
         (history st ++ [tasks.mark_processing task now])
   | None => st
   end).
Proof.
  unfold tasks.update_status_processing, bind, query_first.
  destruct (db st !! id) as [task|]; [|done].
  rewrite in_svc_run. unfold ask. simpl.
  by destruct (utcnow E (world (svc st))).
Qed.

Lemma update_task_with_results_run id res (st : TaskState World) :
  tasks.update_task_with_results E id res st =
  (Ok tt,
   match db st !! id with
   | Some task =>
       let now := (utcnow E (world (svc st))).1 in
       mkTaskState (mkSvc (utcnow E (world (svc st))).2 (calls (svc st)))
         (<[id := tasks.mark_completed task (json_dumps E res) now]> (db st))
         (history st ++ [tasks.mark_completed task (json_dumps E res) now])
   | None => st
   end).
Proof.
  unfold tasks.update_task_with_results, bind, query_first.
  destruct (db st !! id) as [task|]; [|done].
  rewrite in_svc_run. unfold ask. simpl.
  by destruct (utcnow E (world (svc st))).
Qed.

Lemma record_failure_run id e (st : TaskState World) :
  tasks.record_failure E id e st =
  (Ok tt,
   match db st !! id with
   | Some task =>
       let now := (utcnow E (world (svc st))).1 in
       mkTaskState (mkSvc (utcnow E (world (svc st))).2 (calls (svc st)))
         (<[id := tasks.mark_failed task (exc_str e) now]> (db st))
         (history st ++ [tasks.mark_failed task (exc_str e) now])
   | None => st
   end).
Proof.
  unfold tasks.record_failure, bind, query_first.
  destruct (db st !! id) as [task|]; [|done].
  rewrite in_svc_run. unfold ask. simpl.
  by destruct (utcnow E (world (svc st))).
Qed.

Lemma retry_decision n e :
  tasks.retry n e 5 =
  if (n <? 2)%nat then tasks.RetryScheduled 5 e else tasks.Raised e.
Proof.
  unfold tasks.retry, tasks.max_retries.
  destruct (n <? 2)%nat eqn:H1, (2 <? S n)%nat eqn:H2; try done;
    apply Nat.ltb_lt in H1 || apply Nat.ltb_ge in H1;
    apply Nat.ltb_lt in H2 || apply Nat.ltb_ge in H2; lia.
Qed.

(** One execution, taken apart: steps 1 to 3 run once, from a service
    state with the call log the execution started with; their end decides
    the outcome; and a job that has a row gets two commits, the second
    with the result or the error message. *)
Lemma execution_run n id repo_url pr_number token (st : TaskState World) o st' :
  tasks.analyze_github_pr E n id repo_url pr_number token st = (o, st') ->
  exists s1 r s2,
    tasks.fetch_and_analyze E repo_url pr_number token s1 = (r, s2) /\
    calls s1 = calls (svc st) /\
    (db st !! id = None -> s1 = svc st) /\
    o = outcome_of n r /\
    calls (svc st') = calls s2 /\
    match db st !! id with
    | None => st' = mkTaskState s2 (db st) (history st)
    | Some task =>
        exists t1 t2,
          db st' = <[id := final_row E task r t1 t2]> (db st) /\
          history st' =
            history st ++ [tasks.mark_processing task t1; final_row E task r t1 t2]
    end.
Proof.
  unfold tasks.analyze_github_pr, tasks.analyze_github_pr_try.
  unfold bind at 1. rewrite update_status_processing_run.
  set (st1 := match db st !! id with Some _ => _ | None => st end).
  unfold bind at 1. rewrite in_svc_run.
  destruct (tasks.fetch_and_analyze E repo_url pr_number token (svc st1))
    as [r s2] eqn:Hrun.
  intros Hexec. exists (svc st1), r, s2. split; [done|].
  split; [by subst st1; destruct (db st !! id)|].
  split; [by subst st1; intros ->|].
  assert (db st1 !! id =
          (fun task => tasks.mark_processing task (utcnow E (world (svc st))).1)
            <$> db st !! id) as Hrow.
  { subst st1. destruct (db st !! id) eqn:Hd; simpl; [|done].
    by rewrite lookup_insert_eq. }
  destruct r as [res|e]; simpl in Hexec.
  - unfold bind at 1 in Hexec. rewrite update_task_with_results_run in Hexec.
    unfold ret in Hexec. simpl in Hexec. rewrite Hrow in Hexec.
    injection Hexec as <- <-. split; [done|].
    subst st1. destruct (db st !! id) as [task|] eqn:Hd; simpl.
    + split; [done|]. eexists _, _.
      split; [by rewrite insert_insert_eq | by rewrite <- app_assoc].
    + done.
  - rewrite record_failure_run in Hexec. simpl in Hexec. rewrite Hrow in Hexec.
    assert (o = outcome_of n (Raise e) /\
            st' = match (fun task => tasks.mark_processing task
                                       (utcnow E (world (svc st))).1) <$> db st !! id with
                  | Some task =>
                      mkTaskState (mkSvc (utcnow E (world s2)).2 (calls s2))
                        (<[id := tasks.mark_failed task (exc_str e)
                                   (utcnow E (world s2)).1]> (db st1))
                        (history st1 ++ [tasks.mark_failed task (exc_str e)
                                           (utcnow E (world s2)).1])
                  | None => mkTaskState s2 (db st1) (history st1)
                  end) as [-> ->].
    { simpl. rewrite <- retry_decision.
      by destruct (tasks.reraised e); injection Hexec as <- <-. }
    split; [done|].
    subst st1. destruct (db st !! id) as [task|] eqn:Hd; simpl.
    + split; [done|]. eexists _, _.
      split; [by rewrite insert_insert_eq | by rewrite <- app_assoc].
    + done.
Qed.

End Execution.

(** ** The calls of an execution *)

Section Calls.
Context {World : Type} (E : Env World).

(** The facts of [fetch_and_analyze_run], for a whole execution of the
    task. *)
Lemma execution_calls n id repo_url pr_number token (st : TaskState World)
    o st' pr_files rest :
  tasks.analyze_github_pr E n id repo_url pr_number token st = (o, st') ->
  calls (svc st') = calls (svc st) ++ CallGetPRFiles repo_url pr_number pr_files :: rest ->
  (pr_files = [] -> o = tasks.Raised no_code_files /\ rest = []) /\
  (forall c, c ∈ rest ->
     (exists file_data content,
        file_data ∈ take 15 pr_files /\
        c = CallGetFileContent repo_url (head_ref pr_number)
              (filename_of file_data) content) \/
     (exists k code f out content,
        c = CallAnalyze k code f out /\
        CallGetFileContent repo_url (head_ref pr_number) f (Some content) ∈ rest /\
        0 < len content < 100000 /\
        code = str_take (Z.to_nat 10000) content)) /\
  (NoDup (filename_of <$> take 15 pr_files) ->
   forall f content,
     CallGetFileContent repo_url (head_ref pr_number) f (Some content) ∈ rest ->
     100000 <= len content ->
     forall k code out, CallAnalyze k code f out ∉ rest) /\
  (forall res, o = tasks.Returned res ->
     forall f, f ∈ files res ->
       (length (issues f) <= 10)%nat /\ issues f <> [] /\
       exists k code out, CallAnalyze k code (name f) out ∈ rest).
Proof.
  intros Hexec Hcalls.
  apply execution_run in Hexec as (s1 & r & s2 & Hrun & Hs1 & _ & -> & Hs2 & _).
  apply fetch_and_analyze_run in Hrun
    as (pr_files' & rest' & Hcalls' & Hempty & Hrest & Hbig & Hres).
  rewrite Hs2, Hcalls', Hs1 in Hcalls.
  apply app_inv_head in Hcalls. injection Hcalls as -> ->.
  split; [|split; [done|split; [done|]]].
  - intros Hnil. destruct (Hempty Hnil) as [-> ->]. done.
  - intros res Ho. apply Hres. destruct r as [res'|e]; simpl in Ho.
    + by injection Ho as ->.
    + destruct (tasks.reraised e); [done|]. by destruct (n <? 2)%nat.
Qed.

End Calls.

(** Names of the entries from position 15 on differ from the names of the
    first 15 when no name occurs twice. *)
Lemma beyond_first_15 (pr_files : list FileData) i file_data file_data' :
  NoDup (filename_of <$> pr_files) ->
  pr_files !! i = Some file_data ->
  (15 <= i)%nat ->
  file_data' ∈ take 15 pr_files ->
  filename_of file_data' <> filename_of file_data.
Proof.
  intros Hnd Hi Hge [j [Hj Hlt]]%elem_of_take Heq.
  assert (j = i); [|lia].
  eapply (NoDup_lookup _ _ _ _ Hnd); rewrite list_lookup_fmap.
  - by rewrite Hj.
  - by rewrite Hi, Heq.
Qed.

(** C6.  In an execution of the task whose file list came back as
    [pr_files]: every request for a content, every call of an agent and
    every file of the result bears the name of one of the first 15 entries
    of the list.  So, no name being listed twice, for an entry at position
    15 or later no content is requested, no agent is called, and no file of
    the result bears its name.  The result returned is the one written to
    the row of the job. *)
Theorem files_beyond_15_are_ignored
    {World : Type} (E : Env World) (n : nat) (id repo_url : string) (pr_number : Z)
    (token : option string) (st st' : TaskState World) (o : tasks.TaskOutcome)
    (pr_files : list FileData) (rest : list Call) :
  tasks.analyze_github_pr E n id repo_url pr_number token st = (o, st') ->
  calls (svc st') = calls (svc st) ++ CallGetPRFiles repo_url pr_number pr_files :: rest ->
  let among_first_15 f :=
    exists j file_data,
      (j < 15)%nat /\ pr_files !! j = Some file_data /\ f = filename_of file_data in
  (forall u ref f content, CallGetFileContent u ref f content ∈ rest -> among_first_15 f) /\
  (forall k code f out, CallAnalyze k code f out ∈ rest -> among_first_15 f) /\
  (forall res, o = tasks.Returned res ->
     (forall file, file ∈ files res -> among_first_15 (name file)) /\
     (forall task, db st !! id = Some task ->
        exists row, db st' !! id = Some row /\ results row = Some (json_dumps E res))) /\
  (NoDup (filename_of <$> pr_files) ->
   forall i file_data,
     pr_files !! i = Some file_data ->
     (15 <= i)%nat ->
     (forall u ref content,
        CallGetFileContent u ref (filename_of file_data) content ∉ rest) /\
     (forall k code out, CallAnalyze k code (filename_of file_data) out ∉ rest) /\
     (forall res, o = tasks.Returned res ->
        forall file, file ∈ files res -> name file <> filename_of file_data)).
Proof.
  intros Hexec Hcalls among_first_15.
  destruct (execution_calls E _ _ _ _ _ _ _ _ _ _ Hexec Hcalls)
    as (_ & Hrest & _ & Hres).
  assert (forall u ref f content,
            CallGetFileContent u ref f content ∈ rest -> among_first_15 f) as Hfetch.
  { intros u ref f content Hin.
    destruct (Hrest _ Hin) as [(fd & ct & Hfd & Heq)|(? & ? & ? & ? & ? & ? & _)];
      [|done].
    assert (f = filename_of fd) as -> by (by inversion Heq).
    apply elem_of_take in Hfd as (j & Hj & Hlt). by exists j, fd. }
  assert (forall k code f out, CallAnalyze k code f out ∈ rest -> among_first_15 f)
    as Hanalyze.
  { intros k code f out Hin.
    destruct (Hrest _ Hin) as [(? & ? & _ & ?)|(? & ? & f' & ? & ct & Heq & Hf & _)];
      [done|].
    assert (f = f') as -> by (by inversion Heq). by eapply Hfetch. }
  assert (forall res, o = tasks.Returned res ->
            forall file, file ∈ files res -> among_first_15 (name file)) as Hfiles.
  { intros res Ho file Hfile.
    destruct (Hres res Ho file Hfile) as (_ & _ & k & code & out & Hin).
    by eapply Hanalyze. }
  assert (forall i file_data,
            NoDup (filename_of <$> pr_files) -> pr_files !! i = Some file_data ->
            (15 <= i)%nat -> ~ among_first_15 (filename_of file_data)) as Hbeyond.
  { intros i fd Hnd Hi Hge (j & fd' & Hlt & Hj & Heq).
    eapply (beyond_first_15 pr_files i fd fd'); try done.
    apply elem_of_take. by exists j. }
  split; [done|]. split; [done|]. split; [|].
  - intros res ->. split; [by apply Hfiles|].
    intros task Htask.
    apply execution_run in Hexec as (s1 & r & s2 & _ & _ & _ & Ho & _ & Hrows).
    rewrite Htask in Hrows. destruct Hrows as (t1 & t2 & -> & _).
    eexists. rewrite lookup_insert_eq. split; [done|].
    destruct r as [res'|e]; simpl in Ho.
    + by injection Ho as ->.
    + destruct (tasks.reraised e); [done|]. by destruct (n <? 2)%nat.
  - intros Hnd i fd Hi Hge. pose proof (Hbeyond i fd Hnd Hi Hge) as Hno.
    split; [|split].
    + intros u ref content Hin. by eapply Hno, Hfetch.
    + intros k code out Hin. by eapply Hno, Hanalyze.
    + intros res Ho file Hfile Hname. apply Hno. rewrite <- Hname. by eapply Hfiles.
Qed.

Lemma files_beyond_15_are_ignored_witness :
  let run := tasks.analyze_github_pr Fixtures.sixteen_files 0 "task-0"
               "https://github.com/acme/widgets" 42 None Fixtures.queued in
  let rest := drop 1 (calls (svc run.2)) in
  let last_file := Fixtures.file "f15.py" in
  (forall u ref content,
     CallGetFileContent u ref (filename_of last_file) content ∉ rest) /\
  (forall k code out, CallAnalyze k code (filename_of last_file) out ∉ rest) /\
  (forall res, run.1 = tasks.Returned res ->
     forall file, file ∈ files res -> name file <> filename_of last_file).
Proof.
  intros run rest last_file.
  assert (tasks.analyze_github_pr Fixtures.sixteen_files 0 "task-0"
            "https://github.com/acme/widgets" 42 None Fixtures.queued = (run.1, run.2))
    as Hrun by apply surjective_pairing.
  assert (calls (svc run.2) =
          calls (svc Fixtures.queued) ++
          CallGetPRFiles "https://github.com/acme/widgets" 42 Fixtures.sixteen :: rest)
    as Hcalls by (vm_compute; reflexivity).
  destruct (files_beyond_15_are_ignored Fixtures.sixteen_files 0 "task-0"
              "https://github.com/acme/widgets" 42 None Fixtures.queued run.2 run.1
              Fixtures.sixteen rest Hrun Hcalls) as (_ & _ & _ & Hbeyond).
  assert (NoDup (filename_of <$> Fixtures.sixteen)) as Hnd.
  { apply (bool_decide_unpack _). vm_compute. exact I. }
  apply (Hbeyond Hnd 15%nat last_file); [vm_compute; reflexivity | lia].
Defined.

Example sixteen_files_result :
  match (tasks.analyze_github_pr Fixtures.sixteen_files 0 "task-0"
           "https://github.com/acme/widgets" 42 None Fixtures.queued).1 with
  | tasks.Returned res => map name (files res)
  | _ => []
  end =
  ["f0.py"; "f1.py"; "f2.py"; "f3.py"; "f4.py"; "f5.py"; "f6.py"; "f7.py";
   "f8.py"; "f9.py"; "f10.py"; "f11.py"; "f12.py"; "f13.py"; "f14.py"].
Proof. vm_compute. reflexivity. Qed.

(** C10.  In an execution of the task, every call of an agent is for a file
    for which a request returned a content of at least 1 and fewer than
    100000 characters, and the code handed over is a prefix of that
    content.  When the first 15 entries of the file list have different
    names, a file whose content came back with 100000 characters or more
    gets no entry in [file_contents], no agent is called for it, and no
    file of the result bears its name. *)
Theorem oversized_content_is_dropped
    {World : Type} (E : Env World) (n : nat) (id repo_url : string) (pr_number : Z)
    (token : option string) (st st' : TaskState World) (o : tasks.TaskOutcome)
    (pr_files : list FileData) (rest : list Call) :
  tasks.analyze_github_pr E n id repo_url pr_number token st = (o, st') ->
  calls (svc st') = calls (svc st) ++ CallGetPRFiles repo_url pr_number pr_files :: rest ->
  (forall k code f out,
     CallAnalyze k code f out ∈ rest ->
     exists content,
       CallGetFileContent repo_url (head_ref pr_number) f (Some content) ∈ rest /\
       0 < len content < 100000 /\
       code = str_take (Z.to_nat 10000) content) /\
  (NoDup (filename_of <$> take 15 pr_files) ->
   forall f content,
     CallGetFileContent repo_url (head_ref pr_number) f (Some content) ∈ rest ->
     100000 <= len content ->
     (forall s, exists file_contents s1,
        tasks.fetch_loop E token repo_url pr_number (take 15 pr_files) ∅ s =
          (Ok file_contents, s1) /\
        (CallGetFileContent repo_url (head_ref pr_number) f (Some content)
           ∈ drop (length (calls s)) (calls s1) ->
         file_contents !! f = None)) /\
     (forall k code out, CallAnalyze k code f out ∉ rest) /\
     (forall res, o = tasks.Returned res ->
        forall file, file ∈ files res -> name file <> f)).
Proof.
  intros Hexec Hcalls.
  destruct (execution_calls E _ _ _ _ _ _ _ _ _ _ Hexec Hcalls)
    as (_ & Hrest & Hbig & Hres).
  split.
  - intros k code f out Hin.
    destruct (Hrest _ Hin)
      as [(? & ? & _ & ?)|(k' & code' & f' & out' & ct & Heq & Hf & Hlen & Hcode)];
      [done|].
    assert (code = code' /\ f = f') as [-> ->] by (by inversion Heq).
    exists ct. split; [done|]. split; [done|]. exact Hcode.
  - intros Hnd f content Hin Hlen. split; [|split].
    + intros s.
      destruct (fetch_loop_run E token repo_url pr_number (take 15 pr_files) ∅ s)
        as (fc & s1 & new & Hrun & Hnew & _ & _ & _ & HC).
      exists fc, s1. split; [done|].
      rewrite Hnew, drop_app_length. intros Hin'.
      by rewrite (HC Hnd f content Hin' Hlen).
    + by apply Hbig with content.
    + intros res -> file Hfile Hname.
      destruct (Hres res eq_refl file Hfile) as (_ & _ & k & code & out & Hcall).
      rewrite Hname in Hcall. by eapply Hbig.
Qed.

Lemma filler_length n : String.length (Fixtures.filler n) = n.
Proof. induction n; simpl; congruence. Qed.

Lemma oversized_content_is_dropped_witness :
  let run := tasks.analyze_github_pr Fixtures.big_and_small 0 "task-0"
               "https://github.com/acme/widgets" 42 None Fixtures.queued in
  let rest := drop 1 (calls (svc run.2)) in
  (forall k code f out,
     CallAnalyze k code f out ∈ rest ->
     exists content,
       CallGetFileContent "https://github.com/acme/widgets" (head_ref 42) f
         (Some content) ∈ rest /\
       0 < len content < 100000 /\
       code = str_take (Z.to_nat 10000) content) /\
  (forall k code out, CallAnalyze k code "big.py" out ∉ rest) /\
  (forall res, run.1 = tasks.Returned res ->
     forall file, file ∈ files res -> name file <> "big.py").
Proof.
  intros run rest.
  assert (tasks.analyze_github_pr Fixtures.big_and_small 0 "task-0"
            "https://github.com/acme/widgets" 42 None Fixtures.queued = (run.1, run.2))
    as Hrun by apply surjective_pairing.
  assert (calls (svc run.2) =
          calls (svc Fixtures.queued) ++
          CallGetPRFiles "https://github.com/acme/widgets" 42
            [Fixtures.file "big.py"; Fixtures.file "small.py"] :: rest)
    as Hcalls by (apply (bool_decide_unpack _); vm_compute; exact I).
  destruct (oversized_content_is_dropped Fixtures.big_and_small 0 "task-0"
              "https://github.com/acme/widgets" 42 None Fixtures.queued run.2 run.1
              [Fixtures.file "big.py"; Fixtures.file "small.py"] rest Hrun Hcalls)
    as [Hsmall Hbig].
  split; [exact Hsmall|].
  assert (CallGetFileContent "https://github.com/acme/widgets" (head_ref 42) "big.py"
            (Some (Fixtures.filler (Z.to_nat 100000))) ∈ rest) as Hin.
  { apply (bool_decide_unpack _). vm_compute. exact I. }
  assert (100000 <= len (Fixtures.filler (Z.to_nat 100000))) as Hlen.
  { unfold len. rewrite filler_length. lia. }
  assert (NoDup (filename_of <$>
                   take 15 [Fixtures.file "big.py"; Fixtures.file "small.py"])) as Hnd.
  { apply (bool_decide_unpack _). vm_compute. exact I. }
  destruct (Hbig Hnd "big.py" _ Hin Hlen) as (_ & Hno & Hres).
  split; [exact Hno | exact Hres].
Defined.

(** ** A task without a row *)

(** C9, as amended.  When no row has the identifier, the execution writes
    no row; but it is not dropped: steps 1 to 3 run from the service state
    the execution started in (the file list is requested), and the outcome,
    a retry included, is decided as for any other execution. *)
Theorem missing_row_is_not_dropped
    {World : Type} (E : Env World) (n : nat) (id repo_url : string) (pr_number : Z)
    (token : option string) (st st' : TaskState World) (o : tasks.TaskOutcome) :
  db st !! id = None ->
  tasks.analyze_github_pr E n id repo_url pr_number token st = (o, st') ->
  db st' = db st /\
  history st' = history st /\
  (exists r,
     tasks.fetch_and_analyze E repo_url pr_number token (svc st) = (r, svc st') /\
     o = outcome_of n r) /\
  (exists pr_files rest,
     calls (svc st') =
     calls (svc st) ++ CallGetPRFiles repo_url pr_number pr_files :: rest).
Proof.
  intros Hnone Hexec.
  apply execution_run in Hexec as (s1 & r & s2 & Hrun & _ & Hs1 & Ho & _ & Hrows).
  rewrite Hnone in Hrows. subst st'. simpl. rewrite (Hs1 Hnone) in Hrun.
  split; [done|]. split; [done|]. split; [by exists r|].
  apply fetch_and_analyze_run in Hrun as (pr_files & rest & Hcalls & _). eauto.
Qed.

Lemma missing_row_is_not_dropped_witness :
  let run := tasks.analyze_github_pr (Fixtures.flaky_clients 1) 0 "ghost"
               "https://github.com/acme/widgets" 42 None Fixtures.start in
  db run.2 = db Fixtures.start /\
  history run.2 = history Fixtures.start /\
  (exists r,
     tasks.fetch_and_analyze (Fixtures.flaky_clients 1)
       "https://github.com/acme/widgets" 42 None (svc Fixtures.start) = (r, svc run.2) /\
     run.1 = outcome_of 0 r) /\
  (exists pr_files rest,
     calls (svc run.2) =
     calls (svc Fixtures.start) ++
     CallGetPRFiles "https://github.com/acme/widgets" 42 pr_files :: rest).
Proof.
  intros run.
  apply (missing_row_is_not_dropped (Fixtures.flaky_clients 1) 0 "ghost"
           "https://github.com/acme/widgets" 42 None Fixtures.start run.2 run.1).
  - vm_compute. reflexivity.
  - apply surjective_pairing.
Defined.

(** C9, as stated, fails: with no row under the identifier, the file list
    and the content of the file are requested all the same, and when the
    model clients cannot be built the task re-queues itself. *)
Lemma run_without_row_is_executed_and_retried :
  let run := tasks.analyze_github_pr (Fixtures.flaky_clients 1) 0 "ghost"
               "https://github.com/acme/widgets" 42 None Fixtures.start in
  db Fixtures.start !! "ghost" = None /\
  run.1 = tasks.RetryScheduled 5 Fixtures.connection_refused /\
  calls (svc run.2) =
    [CallGetPRFiles "https://github.com/acme/widgets" 42 [Fixtures.file "main.py"];
     CallGetFileContent "https://github.com/acme/widgets" "pull/42/head" "main.py"
       (Some "print(1)")].
Proof. vm_compute. repeat split; reflexivity. Qed.

(** ** Retries *)

Section Deliveries.
Context {World : Type} (E : Env World).

(** The row after one execution, and what the outcome says about the
    exception. *)
Lemma execution_outcome n id repo_url pr_number token (st : TaskState World)
    o st' task :
  db st !! id = Some task ->
  tasks.analyze_github_pr E n id repo_url pr_number token st = (o, st') ->
  exists row t1,
    db st' !! id = Some row /\
    history st' = history st ++ [tasks.mark_processing task t1; row] /\
    match o with
    | tasks.Returned res =>
        status row = "completed" /\ results row = Some (json_dumps E res) /\
        error_message row = None
    | tasks.Raised e =>
        (tasks.reraised e = true \/ (2 <= n)%nat) /\
        status row = "failed" /\ error_message row = Some (exc_str e) /\
        results row = results task
    | tasks.RetryScheduled countdown e =>
        countdown = 5 /\ tasks.reraised e = false /\ (n < 2)%nat /\
        status row = "failed" /\ error_message row = Some (exc_str e) /\
        results row = results task
    end.
Proof.
  intros Htask Hexec.
  apply execution_run in Hexec as (s1 & r & s2 & _ & _ & _ & -> & _ & Hrows).
  rewrite Htask in Hrows. destruct Hrows as (t1 & t2 & Hdb & Hhist).
  exists (final_row E task r t1 t2), t1. rewrite Hdb, lookup_insert_eq.
  split; [done|]. split; [done|].
  destruct r as [res|e]; simpl; [done|].
  destruct (tasks.reraised e) eqn:Hre; [by auto|].
  destruct (n <? 2)%nat eqn:Hn.
  - apply Nat.ltb_lt in Hn. done.
  - apply Nat.ltb_ge in Hn. by auto.
Qed.


End Deliveries.



Example flaky_clients_outcomes :
  (tasks.deliver (Fixtures.flaky_clients 5) 3 0 "task-0"
     "https://github.com/acme/widgets" 42 None Fixtures.queued).1 =
  [tasks.RetryScheduled 5 Fixtures.connection_refused;
   tasks.RetryScheduled 5 Fixtures.connection_refused;
   tasks.Raised Fixtures.connection_refused].
Proof. vm_compute. reflexivity. Qed.


(** ** The rows of a job *)

Lemma chain_app prev rows1 rows2 :
  chain prev (rows1 ++ rows2) <->
  chain prev rows1 /\ chain (default prev (last rows1)) rows2.
Proof.
  revert prev. induction rows1 as [|row rows1 IH]; intros prev.
  - simpl. tauto.
  - cbn [app chain]. rewrite IH, last_cons.
    destruct (last rows1); simpl; tauto.
Qed.

Lemma chain_lookup prev rows i row :
  chain prev rows ->
  rows !! i = Some row ->
  exists before, (prev :: rows) !! i = Some before /\ follows before row.
Proof.
  revert prev i. induction rows as [|r rows IH]; intros prev i; [done|].
  intros [Hf Hc]. destruct i as [|i]; simpl.
  - intros [= ->]. by exists prev.
  - intros Hi. by apply (IH r).
Qed.

Lemma analyze_pr_endpoint_cases {World : Type} (E : Env World)
    (request : main.AnalyzePRRequest) (st : TaskState World) :
  main.analyze_pr E request st =
  if negb (str_contains "github.com" (main.req_repo_url request))
  then (Raise (main.HTTPException 400 "Invalid GitHub repository URL"), st)
  else if main.req_pr_number request <=? 0
  then (Raise (main.HTTPException 400 "PR number must be positive"), st)
  else
    let id := (new_task_id E (world (svc st))).1 in
    let w1 := (new_task_id E (world (svc st))).2 in
    let now := (utcnow E w1).1 in
    let s2 := mkSvc (utcnow E w1).2 (calls (svc st)) in
    let row :=
      main.new_task id (main.req_repo_url request)
        (pretty (main.req_pr_number request)) "pending" now in
    match db st !! id with
    | Some _ =>
        (Raise (main.HTTPException 500 "IntegrityError"),
         mkTaskState s2 (db st) (history st))
    | None => (Ok id, mkTaskState s2 (<[id := row]> (db st)) (history st ++ [row]))
    end.
Proof.
  assert (forall A (f : World -> A * World) (x : TaskState World),
            in_svc (ask f) x =
            (Ok (f (world (svc x))).1,
             mkTaskState (mkSvc (f (world (svc x))).2 (calls (svc x)))
               (db x) (history x))) as Hask.
  { intros A f x. rewrite in_svc_run. unfold ask. by destruct (f (world (svc x))). }
  unfold main.analyze_pr.
  destruct (negb _); [done|].
  destruct (_ <=? 0); [done|].
  unfold bind at 1. rewrite Hask.
  unfold bind at 1. rewrite Hask.
  unfold bind at 1, query_first at 1. cbn [db svc world calls history].
  by destruct (db st !! (new_task_id E (world (svc st))).1).
Qed.

Section Rows.
Context {World : Type} (E : Env World).

Lemma execution_rows n id repo_url pr_number token (st : TaskState World) o st' task :
  db st !! id = Some task ->
  resting task ->
  tasks.analyze_github_pr E n id repo_url pr_number token st = (o, st') ->
  exists mid row,
    db st' !! id = Some row /\
    history st' = history st ++ [mid; row] /\
    follows task mid /\ follows mid row /\
    (forall countdown e, o = tasks.RetryScheduled countdown e -> resting row).
Proof.
  intros Htask Hrest Hexec.
  destruct (execution_outcome E _ _ _ _ _ _ _ _ _ Htask Hexec)
    as (row & t1 & Hrow & Hhist & Ho).
  exists (tasks.mark_processing task t1), row.
  split; [done|]. split; [done|].
  split; [left; by destruct Hrest|].
  destruct Hrest as [Hres _].
  destruct o as [res|e|countdown e].
  - destruct Ho as (? & Hr & ?). split; [|done].
    right; left. rewrite Hr. eauto.
  - destruct Ho as (_ & ? & Hm & Hr). split; [|done].
    right; right. rewrite Hm, Hr. eauto.
  - destruct Ho as (_ & _ & _ & ? & Hm & Hr).
    split; [right; right; rewrite Hm, Hr; eauto|].
    intros _ _ _. split; [congruence|]. right. rewrite Hm. eauto.
Qed.

Lemma deliver_rows id repo_url pr_number token budget :
  forall n (st : TaskState World) task outcomes st',
    db st !! id = Some task ->
    resting task ->
    tasks.deliver E budget n id repo_url pr_number token st = (outcomes, st') ->
    exists rows, history st' = history st ++ rows /\ chain task rows.
Proof.
  induction budget as [|budget IH]; intros n st task outcomes st' Htask Hrest.
  - intros [= <- <-]. exists []. by rewrite app_nil_r.
  - cbn [tasks.deliver].
    destruct (tasks.analyze_github_pr E n id repo_url pr_number token st)
      as [o st1] eqn:Hexec.
    destruct (execution_rows _ _ _ _ _ _ _ _ _ Htask Hrest Hexec)
      as (mid & row & Hrow & Hhist & Hf1 & Hf2 & Hretry).
    assert (chain task [mid; row]) as Hchain by (simpl; done).
    destruct o as [res|e|countdown e]; try (intros [= <- <-]; by exists [mid; row]).
    destruct (tasks.deliver E budget (S n) id repo_url pr_number token st1)
      as [outcomes1 st2] eqn:Hmore.
    intros [= <- <-].
    apply (IH _ _ row) in Hmore as (rows & Hhist2 & Hchain2); [|done|by eapply Hretry].
    exists ([mid; row] ++ rows). split; [by rewrite Hhist2, Hhist, <- app_assoc|].
    apply chain_app. done.
Qed.

(** [POST /analyze-pr] commits one row, pending, with neither a result
    nor an error message. *)
Lemma analyze_pr_endpoint_run request (st : TaskState World) id st' :
  main.analyze_pr E request st = (Ok id, st') ->
  exists first,
    db st' !! id = Some first /\
    history st' = history st ++ [first] /\
    status first = "pending" /\ results first = None /\ error_message first = None.
Proof.
  assert (forall A (f : World -> A * World) (x : TaskState World),
            in_svc (ask f) x =
            (Ok (f (world (svc x))).1,
             mkTaskState (mkSvc (f (world (svc x))).2 (calls (svc x)))
               (db x) (history x))) as Hask.
  { intros A f x. rewrite in_svc_run. unfold ask. by destruct (f (world (svc x))). }
  unfold main.analyze_pr.
  destruct (negb _); [by unfold raise|].
  destruct (_ <=? 0); [by unfold raise|].
  unfold bind at 1. rewrite Hask.
  unfold bind at 1. rewrite Hask.
  unfold bind at 1, query_first at 1. cbn [db svc world calls history].
  destruct (db st !! (new_task_id E (world (svc st))).1) eqn:Hfree;
    [by unfold raise|].
  unfold bind, commit, ret. cbn [db svc world calls history].
  intros [= <- <-]. cbn [db svc world calls history].
  eexists. rewrite lookup_insert_eq. done.
Qed.

End Rows.

(** A job whose task is executed only as often as its retries ask for.
    The rows committed from its submission to the last of these
    executions: a pending row has neither a result nor
    an error message; a completed row has a result and no error message; a
    failed row has an error message and no result; a processing row has no
    result, and has the error message of the row committed before it, which
    is the pending row (no message) or, when the execution is a retry, the
    failed row of the execution before (its message). *)
Lemma job_rows_first_run
    {World : Type} (E : Env World) (deliveries : nat) (request : main.AnalyzePRRequest)
    (st st' : TaskState World) (id : string) (outcomes : list tasks.TaskOutcome) :
  main.job E deliveries request st = (Ok (id, outcomes), st') ->
  exists rows,
    history st' = history st ++ rows /\
    forall i row, rows !! i = Some row ->
      (status row = "pending" /\ i = 0%nat /\
       results row = None /\ error_message row = None) \/
      (status row = "processing" /\ results row = None /\
       exists j prev,
         i = S j /\ rows !! j = Some prev /\
         error_message row = error_message prev /\
         ((status prev = "pending" /\ error_message prev = None) \/
          (status prev = "failed" /\ is_Some (error_message prev)))) \/
      (status row = "completed" /\ is_Some (results row) /\ error_message row = None) \/
      (status row = "failed" /\ results row = None /\ is_Some (error_message row)).
Proof.
  unfold main.job.
  destruct (main.analyze_pr E request st) as [[id'|e] st1] eqn:Hcreate; [|done].
  destruct (tasks.deliver E deliveries 0 id' _ _ _ st1) as [outcomes' st2] eqn:Hrun.
  intros [= <- <- <-].
  apply analyze_pr_endpoint_run in Hcreate as (first & Hfirst & Hhist & Hst & Hres & Hmsg).
  apply (deliver_rows E _ _ _ _ _ _ _ first) in Hrun as (rows & Hhist2 & Hchain);
    [|done|by split; [|left]].
  exists (first :: rows). split; [by rewrite Hhist2, Hhist, <- app_assoc|].
  intros i row Hi. destruct i as [|i].
  - injection Hi as <-. by left.
  - simpl in Hi. destruct (chain_lookup _ _ _ _ Hchain Hi) as (before & Hb & Hf).
    right. destruct Hf as [(? & [_ Hprev] & ? & ?)|[(? & _ & ? & ?)|(? & _ & ? & ?)]].
    + left. split; [done|]. split; [done|]. by exists i, before.
    + right; left. done.
    + right; right. done.
Qed.






Section Lifecycle.
Context {World : Type} (E : Env World).




End Lifecycle.




(** A job that has completed, and whose task is then delivered once more
    while the model server is away: the processing row of that execution
    holds the result of the completed one, and the failed row it leaves
    holds both that result and an error message. *)
Example redelivered_job_rows :
  let st1 := (main.job Fixtures.server_leaves 3 Fixtures.request Fixtures.start).2 in
  let st :=
    (tasks.analyze_github_pr Fixtures.server_leaves 0 "task-0"
       "https://github.com/acme/widgets" 42 None st1).2 in
  map (fun row => (status row, results row, error_message row)) (history st) =
    [("pending", None, None);
     ("processing", None, None);
     ("completed", Some "total_issues=2", None);
     ("processing", Some "total_issues=2", None);
     ("failed", Some "total_issues=2", Some "Connection refused")].
Proof. vm_compute. reflexivity. Qed.

(** ** The results endpoint *)

(** C8, as amended.  For a job with a stored payload,
    [GET /results/{task_id}] changes nothing, and: when the payload is not
    empty and [json.loads] raises a [JSONDecodeError] on it, the request
    does not fail, and answers with the ['results'] key holding [None] and
    the error message "Invalid results JSON"; when [json.loads] raises
    anything else on it, the request fails with that exception; and when
    the payload is empty, no parse is attempted and the answer has no
    ['results'] key and the stored error message. *)
Theorem get_results_corrupt_payload
    {World : Type} {Json : Type} (json_loads : string -> Result Json)
    (id : string) (st : TaskState World) (task : CodeReviewTask) (payload : string) :
  db st !! id = Some task ->
  results task = Some payload ->
  (forall e, payload <> "" -> json_loads payload = Raise e ->
     main.get_results json_loads id st =
     if main.is_JSONDecodeError e
     then (Ok {| main.res_task_id := task_id task;
                 main.res_status := status task;
                 main.res_created_at := created_at task;
                 main.res_updated_at := updated_at task;
                 main.res_error_message := Some "Invalid results JSON";
                 main.res_results := Some None |},
           st)
     else (Raise e, st)) /\
  (payload = "" ->
   main.get_results json_loads id st =
   (Ok {| main.res_task_id := task_id task;
          main.res_status := status task;
          main.res_created_at := created_at task;
          main.res_updated_at := updated_at task;
          main.res_error_message := error_message task;
          main.res_results := None |},
    st)).
Proof.
  intros Htask Hres.
  unfold main.get_results, bind, query_first. rewrite Htask, Hres. split.
  - intros e Hne Hparse.
    assert ((len payload =? 0) = false) as ->.
    { apply Z.eqb_neq. unfold len. destruct payload; [done|]. simpl. lia. }
    simpl. rewrite Hparse. by destruct (main.is_JSONDecodeError e).
  - by intros ->.
Qed.

Lemma get_results_corrupt_payload_witness :
  let corrupt :=
    {| task_id := "task-0"; repo_url := "https://github.com/acme/widgets";
       pr_number := "42"; status := "completed";
       results := Some "{broken"; error_message := None;
       created_at := Some 0; updated_at := Some 2 |} in
  let st := mkTaskState (svc Fixtures.start) {[ "task-0" := corrupt ]} [] in
  main.get_results Fixtures.toy_loads "task-0" st =
  (Ok {| main.res_task_id := "task-0";
         main.res_status := "completed";
         main.res_created_at := Some 0;
         main.res_updated_at := Some 2;
         main.res_error_message := Some "Invalid results JSON";
         main.res_results := Some None |},
   st).
Proof.
  intros corrupt st.
  destruct (get_results_corrupt_payload Fixtures.toy_loads "task-0" st
              corrupt "{broken") as [Hcorrupt _].
  - vm_compute. reflexivity.
  - reflexivity.
  - apply (Hcorrupt (mkExc "JSONDecodeError" "Expecting value")).
    + discriminate.
    + vm_compute. reflexivity.
Defined.

(** C8, as stated, fails three times over: the message for a payload that
    does not parse is "Invalid results JSON", not "Invalid results
    payload"; a payload on which the parser fails with something other
    than a [JSONDecodeError] makes the request fail; and an empty payload,
    which does not parse either, is not even tried: the answer then has no
    ['results'] key and the stored error message. *)
Lemma corrupt_payload_message_differs :
  let row payload :=
    {| task_id := "task-0"; repo_url := "https://github.com/acme/widgets";
       pr_number := "42"; status := "completed";
       results := Some payload; error_message := None;
       created_at := Some 0; updated_at := Some 2 |} in
  let st payload := mkTaskState (svc Fixtures.start) {[ "task-0" := row payload ]} [] in
  let answer payload :=
    (main.get_results Fixtures.toy_loads "task-0" (st payload)).1 in
  (exists body,
     answer "{broken" = Ok body /\
     main.res_error_message body = Some "Invalid results JSON" /\
     main.res_error_message body <> Some "Invalid results payload") /\
  answer "[[[[[[[[" = Raise (mkExc "RecursionError" "maximum recursion depth exceeded") /\
  (exists body,
     answer "" = Ok body /\
     main.res_error_message body = None /\
     main.res_results body = None).
Proof.
  cbv zeta. split; [|split].
  - eexists. split; [vm_compute; reflexivity|]. split; [reflexivity | discriminate].
  - vm_compute. reflexivity.
  - eexists. split; [vm_compute; reflexivity|]. split; reflexivity.
Qed.

(** * Further properties of the code *)

(** ** String facts *)

Lemma append_cons c a b : String c a +:+ b = String c (a +:+ b).
Proof. reflexivity. Qed.

Lemma append_nil_l b : "" +:+ b = b.
Proof. reflexivity. Qed.

Lemma append_nil_r a : a +:+ "" = a.
Proof. induction a as [|c a IH]; [done|]. by rewrite append_cons, IH. Qed.

Lemma append_assoc a b c : (a +:+ b) +:+ c = a +:+ b +:+ c.
Proof. induction a as [|d a IH]; [done|]. by rewrite !append_cons, IH. Qed.

Lemma length_append a b :
  String.length (a +:+ b) = (String.length a + String.length b)%nat.
Proof. induction a as [|c a IH]; [done|]. rewrite append_cons. simpl. by rewrite IH. Qed.

Lemma str_drop_append a b : str_drop (String.length a) (a +:+ b) = b.
Proof. induction a as [|c a IH]; [by destruct b|]. by rewrite append_cons. Qed.

Lemma str_take_append a b : str_take (String.length a) (a +:+ b) = a.
Proof.
  induction a as [|c a IH]; [by destruct b|]. rewrite append_cons. simpl. by rewrite IH.
Qed.

Lemma str_endswith_true s ext :
  str_endswith s ext = true <-> exists stem, s = stem +:+ ext.
Proof.
  unfold str_endswith. rewrite andb_true_iff, Nat.leb_le, String.eqb_eq. split.
  - intros [Hle Hdrop]. exists (str_take (String.length s - String.length ext) s).
    pose proof (str_take_drop (String.length s - String.length ext) s) as Hs.
    by rewrite Hdrop in Hs.
  - intros [stem ->]. rewrite length_append. split; [lia|].
    replace (String.length stem + String.length ext - String.length ext)%nat
      with (String.length stem) by lia.
    apply str_drop_append.
Qed.

(** ** [_is_code_file] *)

(** X6.  [_is_code_file] accepts exactly the names that end in one of the
    sixteen extensions; the comparison is on the characters as they are, so
    an upper-case extension is not accepted; and an entry of the file list
    without a ['filename'] is not a code file. *)
Theorem is_code_file_iff_extension (filename : string) :
  (ai_agent._is_code_file filename = true <->
   exists stem ext, ext ∈ ai_agent.code_extensions /\ filename = stem +:+ ext) /\
  ai_agent._is_code_file "Main.PY" = false /\
  (forall file_data : FileData,
     file_data !! "filename" = None ->
     ai_agent._is_code_file (filename_of file_data) = false).
Proof.
  split; [|split].
  - unfold ai_agent._is_code_file. rewrite existsb_exists. split.
    + intros (ext & Hext & [stem ->]%str_endswith_true).
      exists stem, ext. by rewrite list_elem_of_In.
    + intros (stem & ext & Hext & ->). exists ext.
      rewrite <- list_elem_of_In. split; [done|]. apply str_endswith_true. by exists stem.
  - reflexivity.
  - intros file_data Hnone. unfold filename_of. rewrite Hnone. reflexivity.
Qed.

(** ** More on the merge of [analyze_file] *)

Lemma existsb_key_true earlier k :
  existsb (fun y => ai_agent.key_eqb (ai_agent.issue_key y) k) earlier = true <->
  exists z, z ∈ earlier /\ ai_agent.key_eqb (ai_agent.issue_key z) k = true.
Proof.
  rewrite existsb_exists. split; intros (z & ? & ?); exists z;
    by rewrite ?list_elem_of_In in *.
Qed.

Lemma keep_first_cons_in earlier a rest x :
  x ∈ first_by_key (earlier ++ [a]) rest -> x ∈ first_by_key earlier (a :: rest).
Proof.
  intros Hx. simpl. destruct (existsb _ earlier); [done|]. apply elem_of_cons. by right.
Qed.

(** Later findings kept by the loop have keys different from earlier ones. *)
Lemma keep_first_distinct l :
  forall earlier i j x y,
    first_by_key earlier l !! i = Some x ->
    first_by_key earlier l !! j = Some y ->
    (i < j)%nat ->
    ai_agent.key_eqb (ai_agent.issue_key x) (ai_agent.issue_key y) = false.
Proof.
  induction l as [|a rest IH]; intros earlier i j x y; [done|]. simpl.
  destruct (existsb _ earlier); [apply IH|].
  destruct i as [|i], j as [|j]; simpl; try lia.
  - intros [= ->] Hy _.
    apply list_elem_of_lookup_2, keep_first_elem in Hy as [_ Hno].
    apply Hno, elem_of_app. right. by apply list_elem_of_singleton.
  - intros Hx Hy Hlt. eapply IH; eauto. lia.
Qed.

(** Every finding is represented, by key, among the earlier ones or among
    those kept. *)
Lemma keep_first_covers l :
  forall earlier y,
    y ∈ l -> self_equal_key y ->
    (exists z, z ∈ earlier /\
       ai_agent.key_eqb (ai_agent.issue_key z) (ai_agent.issue_key y) = true) \/
    (exists x, x ∈ first_by_key earlier l /\
       ai_agent.key_eqb (ai_agent.issue_key x) (ai_agent.issue_key y) = true).
Proof.
  induction l as [|a rest IH]; intros earlier y; [by intros ?%elem_of_nil|].
  intros [->|Hy]%elem_of_cons Hh.
  - simpl. destruct (existsb _ earlier) eqn:Hex.
    + left. by apply existsb_key_true.
    + right. exists a. split; [apply elem_of_cons; by left | done].
  - destruct (IH (earlier ++ [a]) y Hy Hh) as [(z & Hz & Hk)|(x & Hx & Hk)].
    + apply elem_of_app in Hz as [Hz|Hz%list_elem_of_singleton]; [left; by exists z|].
      subst z. simpl. destruct (existsb _ earlier) eqn:Hex.
      * left. apply existsb_key_true in Hex as (z & Hz & Hza). exists z.
        split; [done|]. by eapply key_eqb_trans.
      * right. exists a. split; [apply elem_of_cons; by left | done].
    + right. exists x. split; [by apply keep_first_cons_in | done].
Qed.

(** Issues with pairwise different keys, each with the key of one of
    [representatives], are no more than the representatives. *)
Lemma distinct_keys_bounded kept :
  forall representatives,
    (forall i j x y, kept !! i = Some x -> kept !! j = Some y -> (i < j)%nat ->
       ai_agent.key_eqb (ai_agent.issue_key x) (ai_agent.issue_key y) = false) ->
    (forall y, y ∈ kept ->
       exists r, r ∈ representatives /\
         ai_agent.key_eqb (ai_agent.issue_key r) (ai_agent.issue_key y) = true) ->
    (length kept <= length representatives)%nat.
Proof.
  induction kept as [|x kept IH]; intros reps Hdist Hrep; [simpl; lia|].
  destruct (Hrep x) as (r & Hr & Hrx); [apply elem_of_cons; by left|].
  apply list_elem_of_split in Hr as (r1 & r2 & ->).
  rewrite length_app. simpl.
  assert (length kept <= length (r1 ++ r2))%nat as Hle.
  { apply IH.
    - intros i j a b Ha Hb Hlt. apply (Hdist (S i) (S j)); [done|done|lia].
    - intros y Hy. destruct (Hrep y) as (ry & Hry & Hk); [apply elem_of_cons; by right|].
      exists ry. split; [|done].
      rewrite elem_of_app in Hry. rewrite elem_of_app.
      destruct Hry as [?|[->|?]%elem_of_cons]; [by left| |by right].
      exfalso. apply list_elem_of_lookup in Hy as [j Hj].
      assert (ai_agent.key_eqb (ai_agent.issue_key x) (ai_agent.issue_key y) = false)
        as Hxy by (apply (Hdist 0%nat (S j)); [done|done|lia]).
      assert (ai_agent.key_eqb (ai_agent.issue_key x) (ai_agent.issue_key y) = true)
        as Hxy'; [|congruence].
      eapply key_eqb_trans; [|exact Hk]. by rewrite key_eqb_sym. }
  rewrite length_app in Hle. lia.
Qed.

Lemma analyze_file_value {World : Type} (E : Env World) code filename (s : Svc World) a :
  answers_of E code filename s a ->
  (ai_agent.analyze_file E code filename s).1 =
  merge_issues filename (a StyleAgent) (a BugAgent) (a PerformanceAgent)
    (a BestPracticesAgent).
Proof.
  intros (w1 & w2 & w3 & w4 & H1 & H2 & H3 & H4). rewrite analyze_file_eq. cbn [fst].
  rewrite H1. cbn [fst snd]. rewrite H2. cbn [fst snd]. rewrite H3. cbn [fst snd].
  by rewrite H4.
Qed.

(** Whatever the environment, the four agents answer something. *)
Lemma answers_exist {World : Type} (E : Env World) code filename (s : Svc World) :
  exists a, answers_of E code filename s a.
Proof.
  destruct (agent_analyze E StyleAgent code filename (world s)) as [a1 w1] eqn:H1.
  destruct (agent_analyze E BugAgent code filename w1) as [a2 w2] eqn:H2.
  destruct (agent_analyze E PerformanceAgent code filename w2) as [a3 w3] eqn:H3.
  destruct (agent_analyze E BestPracticesAgent code filename w3) as [a4 w4] eqn:H4.
  exists (answers a1 a2 a3 a4), w1, w2, w3, w4. done.
Qed.

(** X9.  [analyze_file] fails exactly when some element of the answer of
    some agent is not an object, or is an object with a list or a dict as
    its line or its description, and it fails with a [TypeError];
    otherwise it returns the file's result, under the name it was given. *)
Theorem merge_issues_fails_iff_unhashable
    {World : Type} (E : Env World) (code filename : string) (s : Svc World)
    (a : AgentKind -> list Element) :
  answers_of E code filename s a ->
  match (ai_agent.analyze_file E code filename s).1 with
  | Ok analysis =>
      (forall k element, element ∈ a k -> ~ malformed element) /\
      name analysis = filename
  | Raise e =>
      (exists k element, element ∈ a k /\ malformed element) /\
      exc_class e = "TypeError"
  end.
Proof.
  intros Ha. rewrite (analyze_file_value E code filename s a Ha).
  destruct (merge_issues filename _ _ _ _) as [analysis|e] eqn:Hm.
  - pose proof Hm as (style & bug & perf & conv & H1 & H2 & H3 & H4 & Hh & ->)%merge_issues_ok.
    split; [|done]. intros k element Hin Hbad.
    destruct (merge_issues_malformed filename (a StyleAgent) (a BugAgent)
                (a PerformanceAgent) (a BestPracticesAgent) element) as (e & He & _);
      [|done|congruence].
    rewrite !elem_of_app. destruct k; auto.
  - split; [|by eapply merge_issues_error].
    destruct (decide (Exists malformed
                (a StyleAgent ++ a BugAgent ++ a PerformanceAgent ++ a BestPracticesAgent)))
      as [Hex|Hnot].
    + apply Exists_exists in Hex as (element & Hin & Hbad).
      rewrite !elem_of_app in Hin.
      destruct Hin as [?|[?|[?|?]]]; eexists _, element; eauto.
    + exfalso. apply not_Exists_Forall in Hnot; [|intros x; apply _].
      assert (forall l, Forall (not ∘ malformed) l ->
                exists objects, l = Object <$> objects /\ Forall hashable_key objects)
        as Hobj.
      { induction 1 as [|[y|t] l Hy _ (objects & -> & Hall)]; [by exists []| |].
        - exists (y :: objects). split; [done|]. constructor; [|done].
          simpl in Hy. by destruct (decide (hashable_key y)).
        - destruct Hy. done. }
      rewrite !Forall_app in Hnot. destruct Hnot as (N1 & N2 & N3 & N4).
      destruct (Hobj _ N1) as (style & E1 & F1), (Hobj _ N2) as (bug & E2 & F2),
        (Hobj _ N3) as (perf & E3 & F3), (Hobj _ N4) as (conv & E4 & F4).
      rewrite E1, E2, E3, E4, merge_issues_merged in Hm; [done|].
      rewrite !Forall_app. done.
Qed.

Lemma merge_issues_fails_iff_unhashable_witness :
  match (ai_agent.analyze_file Fixtures.numbers_for_findings "print(1)" "main.py"
           (svc Fixtures.start)).1 with
  | Ok analysis => False
  | Raise e =>
      (exists k element,
         element ∈ answers [NotObject "int"; NotObject "int"]
                     [Object (Fixtures.finding 7 "division by zero")]
                     [Object (Fixtures.finding 7 "division by zero")]
                     [Object (Fixtures.finding 7 "division by zero")] k /\
         malformed element) /\
      exc_class e = "TypeError"
  end.
Proof.
  pose proof (merge_issues_fails_iff_unhashable Fixtures.numbers_for_findings
                "print(1)" "main.py" (svc Fixtures.start)
                (answers [NotObject "int"; NotObject "int"]
                   [Object (Fixtures.finding 7 "division by zero")]
                   [Object (Fixtures.finding 7 "division by zero")]
                   [Object (Fixtures.finding 7 "division by zero")])) as H.
  destruct (ai_agent.analyze_file _ _ _ _).1 eqn:Hrun.
  - by vm_compute in Hrun.
  - apply H. eexists _, _, _, _. repeat split; reflexivity.
Defined.

(** X7.  No two findings of a file's result have equal (line, description)
    keys. *)
Theorem merge_issues_keys_distinct
    {World : Type} (E : Env World) (code filename : string) (s s' : Svc World)
    (analysis : FileResult) (i j : nat) (x y : Issue) :
  ai_agent.analyze_file E code filename s = (Ok analysis, s') ->
  issues analysis !! i = Some x ->
  issues analysis !! j = Some y ->
  i <> j ->
  ai_agent.key_eqb (ai_agent.issue_key x) (ai_agent.issue_key y) = false.
Proof.
  rewrite analyze_file_eq. cbv zeta. intros [= Hm _].
  apply merge_issues_ok in Hm as (style & bug & perf & conv & _ & _ & _ & _ & _ & ->).
  simpl. unfold merged_issues.
  intros [Hx _]%lookup_take_Some [Hy _]%lookup_take_Some Hij.
  destruct (decide (i < j)%nat).
  - by eapply keep_first_distinct.
  - rewrite key_eqb_sym. eapply keep_first_distinct; eauto. lia.
Qed.

Lemma merge_issues_keys_distinct_witness :
  let x := <["type" := PyStr "style"]> (Fixtures.finding 3 "unused variable") in
  let y := <["type" := PyStr "bug"]> (Fixtures.finding 7 "division by zero") in
  (ai_agent.analyze_file Fixtures.two_agents "print(1)" "main.py" (svc Fixtures.start)).1 =
    Ok {| name := "main.py"; issues := [x; y] |} /\
  ai_agent.key_eqb (ai_agent.issue_key x) (ai_agent.issue_key y) = false.
Proof.
  intros x y. split; [vm_compute; reflexivity|].
  apply (merge_issues_keys_distinct Fixtures.two_agents "print(1)" "main.py"
           (svc Fixtures.start)
           (ai_agent.analyze_file Fixtures.two_agents "print(1)" "main.py"
              (svc Fixtures.start)).2
           {| name := "main.py"; issues := [x; y] |} 0 1 x y);
    [vm_compute; reflexivity | reflexivity | reflexivity | lia].
Defined.

(** X8.  When the findings of the four agents have at most 10 different
    keys - there are at most 10 objects such that every finding has the
    key of one of them - deduplication and the cut lose no key: every
    finding of every agent has a finding with an equal key in the file's
    result. *)
Theorem merge_issues_covers_all_keys
    {World : Type} (E : Env World) (code filename : string) (s : Svc World)
    (a : AgentKind -> list Element) (analysis : FileResult)
    (representatives : list Issue) (k : AgentKind) (y : Issue) :
  answers_of E code filename s a ->
  (ai_agent.analyze_file E code filename s).1 = Ok analysis ->
  (length representatives <= 10)%nat ->
  (forall k' y', Object y' ∈ a k' ->
     exists r, r ∈ representatives /\
       ai_agent.key_eqb (ai_agent.issue_key r) (ai_agent.issue_key y') = true) ->
  Object y ∈ a k ->
  exists x,
    x ∈ issues analysis /\
    ai_agent.key_eqb (ai_agent.issue_key x) (ai_agent.issue_key y) = true.
Proof.
  intros Ha Hok Hlen Hrep Hy. rewrite (analyze_file_value E code filename s a Ha) in Hok.
  apply merge_issues_ok in Hok as (style & bug & perf & conv & H1 & H2 & H3 & H4 & Hh & ->).
  cbn [issues]. unfold merged_issues.
  set (all := tag_all StyleAgent style ++ tag_all BugAgent bug ++
              tag_all PerformanceAgent perf ++ tag_all BestPracticesAgent conv).
  assert (forall k' y', y' ∈ answers style bug perf conv k' -> Object y' ∈ a k') as Hback.
  { intros k' y' Hin. destruct k'; simpl in Hin;
      rewrite ?H1, ?H2, ?H3, ?H4; by apply list_elem_of_fmap_2. }
  assert (forall z, z ∈ all ->
            exists k' y', y' ∈ answers style bug perf conv k' /\
              z = <["type" := PyStr (issue_type k')]> y') as Hall.
  { intros z. subst all. rewrite !elem_of_app. unfold tag_all.
    intros [Hz|[Hz|[Hz|Hz]]];
      apply list_elem_of_In, in_map_iff in Hz as (y' & <- & Hy'%list_elem_of_In);
      [exists StyleAgent|exists BugAgent|exists PerformanceAgent|exists BestPracticesAgent];
      by exists y'. }
  assert (take 10 (first_by_key [] all) = first_by_key [] all) as ->.
  { apply take_ge. etrans; [|exact Hlen]. apply distinct_keys_bounded.
    - intros. by eapply keep_first_distinct.
    - intros z [Hz _]%keep_first_elem.
      destruct (Hall z Hz) as (k' & y' & Hy' & ->).
      destruct (Hrep k' y' (Hback _ _ Hy')) as (r & Hr & Hk). exists r.
      split; [done|]. by rewrite issue_key_stamped. }
  assert (y ∈ answers style bug perf conv k) as Hyk.
  { destruct k; simpl; rewrite ?H1, ?H2, ?H3, ?H4 in Hy;
      apply list_elem_of_fmap in Hy as (y0 & [= ->] & ?); done. }
  assert (<["type" := PyStr (issue_type k)]> y ∈ all) as Hin.
  { subst all. rewrite !elem_of_app. destruct k; simpl in Hyk; auto using tagged_elem. }
  destruct (keep_first_covers all [] _ Hin) as [(z & ?%elem_of_nil & _)|(x & Hx & Hk)];
    [|done|].
  { unfold self_equal_key. rewrite issue_key_stamped.
    destruct (Hrep k y Hy) as (r & _ & Hk). rewrite key_eqb_sym in Hk.
    by eapply key_eqb_true_refl. }
  exists x. split; [done|]. by rewrite issue_key_stamped in Hk.
Qed.

Lemma merge_issues_covers_all_keys_witness :
  exists x,
    x ∈ [<["type" := PyStr "style"]> (Fixtures.finding 3 "unused variable");
         <["type" := PyStr "bug"]> (Fixtures.finding 7 "division by zero")] /\
    ai_agent.key_eqb (ai_agent.issue_key x)
      (ai_agent.issue_key (Fixtures.finding 7 "division by zero")) = true.
Proof.
  apply (merge_issues_covers_all_keys Fixtures.two_agents "print(1)" "main.py"
           (svc Fixtures.start)
           (answers [Object (Fixtures.finding 3 "unused variable")]
              [Object (Fixtures.finding 3 "unused variable");
               Object (Fixtures.finding 7 "division by zero")] [] [])
           {| name := "main.py";
              issues := [<["type" := PyStr "style"]> (Fixtures.finding 3 "unused variable");
                         <["type" := PyStr "bug"]>
                           (Fixtures.finding 7 "division by zero")] |}
           [Fixtures.finding 3 "unused variable"; Fixtures.finding 7 "division by zero"]
           BugAgent (Fixtures.finding 7 "division by zero")).
  - eexists _, _, _, _. repeat split; reflexivity.
  - vm_compute. reflexivity.
  - simpl. lia.
  - intros k' y' Hin. destruct k'; simpl in Hin;
      repeat (apply elem_of_cons in Hin as [[= ->]|Hin]);
      try (by apply elem_of_nil in Hin).
    + exists (Fixtures.finding 3 "unused variable").
      split; [apply elem_of_cons; by left | vm_compute; reflexivity].
    + exists (Fixtures.finding 3 "unused variable").
      split; [apply elem_of_cons; by left | vm_compute; reflexivity].
    + exists (Fixtures.finding 7 "division by zero").
      split; [apply elem_of_cons; right; apply elem_of_cons; by left
             | vm_compute; reflexivity].
  - apply elem_of_cons. right. apply elem_of_cons. by left.
Defined.

Lemma keep_first_equiv l :
  forall earlier earlier',
    (forall k, existsb (fun y => ai_agent.key_eqb (ai_agent.issue_key y) k) earlier =
               existsb (fun y => ai_agent.key_eqb (ai_agent.issue_key y) k) earlier') ->
    first_by_key earlier l = first_by_key earlier' l.
Proof.
  induction l as [|x rest IH]; intros e e' Heq; [done|]. simpl.
  rewrite (Heq (ai_agent.issue_key x)).
  rewrite (IH (e ++ [x]) (e' ++ [x])); [done|].
  intros k. by rewrite !existsb_app, Heq.
Qed.

Lemma keep_first_seen l :
  forall earlier,
    (forall y, y ∈ l ->
       existsb (fun z => ai_agent.key_eqb (ai_agent.issue_key z) (ai_agent.issue_key y))
         earlier = true) ->
    first_by_key earlier l = [].
Proof.
  induction l as [|x rest IH]; intros e Hseen; [done|]. simpl.
  rewrite (Hseen x) by (apply elem_of_cons; by left).
  apply IH. intros y Hy. rewrite existsb_app, Hseen; [done|].
  apply elem_of_cons. by right.
Qed.

Lemma keep_first_double earlier l m :
  Forall self_equal_key l ->
  first_by_key earlier (l ++ l ++ m) = first_by_key earlier (l ++ m).
Proof.
  intros Hh. rewrite !keep_first_app.
  rewrite (keep_first_seen l (earlier ++ l)).
  - simpl. f_equal. apply keep_first_equiv. intros k.
    rewrite !existsb_app. by destruct (existsb _ earlier), (existsb _ l).
  - intros y Hy. rewrite existsb_app. apply orb_true_iff. right.
    apply existsb_key_true. exists y. split; [done|].
    rewrite Forall_forall in Hh. by apply Hh.
Qed.

Lemma tagged_app k l1 l2 : tag_all k (l1 ++ l2) = tag_all k l1 ++ tag_all k l2.
Proof. unfold tag_all. apply map_app. Qed.

Lemma self_equal_key_stamped t issue :
  self_equal_key (<["type" := t]> issue) <-> self_equal_key issue.
Proof. unfold self_equal_key. by rewrite issue_key_stamped. Qed.

Lemma Forall_self_equal_tagged k l :
  Forall self_equal_key l -> Forall self_equal_key (tag_all k l).
Proof.
  unfold tag_all. induction 1; simpl; constructor; [|done].
  by apply self_equal_key_stamped.
Qed.

(** Doubling the answers of some of the agents does not change
    [merged_issues]. *)
Lemma merged_issues_repeated (twice : AgentKind -> bool) style bug perf conv :
  Forall self_equal_key (style ++ bug ++ perf ++ conv) ->
  merged_issues
    (if twice StyleAgent then style ++ style else style)
    (if twice BugAgent then bug ++ bug else bug)
    (if twice PerformanceAgent then perf ++ perf else perf)
    (if twice BestPracticesAgent then conv ++ conv else conv) =
  merged_issues style bug perf conv.
Proof.
  rewrite !Forall_app. intros (Hs & Hb & Hp & Hc).
  unfold merged_issues. f_equal.
  assert (forall k l (b : bool) earlier m, Forall self_equal_key l ->
            first_by_key earlier (tag_all k (if b then l ++ l else l) ++ m) =
            first_by_key earlier (tag_all k l ++ m)) as Hone.
  { intros k l [] earlier m Hl; [|done].
    rewrite tagged_app, <- app_assoc. apply keep_first_double.
    by apply Forall_self_equal_tagged. }
  rewrite Hone by done.
  rewrite (keep_first_app [] (tag_all StyleAgent style)),
    (keep_first_app [] (tag_all StyleAgent style)). f_equal.
  rewrite Hone by done.
  rewrite (keep_first_app _ (tag_all BugAgent bug)),
    (keep_first_app _ (tag_all BugAgent bug)). f_equal.
  rewrite Hone by done.
  rewrite (keep_first_app _ (tag_all PerformanceAgent perf)),
    (keep_first_app _ (tag_all PerformanceAgent perf)). f_equal.
  match goal with
  | |- first_by_key ?e _ = _ =>
      pose proof (Hone BestPracticesAgent conv (twice BestPracticesAgent) e [] Hc) as H
  end.
  by rewrite !app_nil_r in H.
Qed.

(** X10.  An agent that repeats its whole answer changes nothing: when, in
    a second run, any of the agents give their answers twice over, and no
    line or description is NaN, the file's result is the one of the first
    run. *)
Theorem merge_issues_ignores_repetition
    {World World' : Type} (E : Env World) (E' : Env World')
    (code code' filename : string) (s : Svc World) (s' : Svc World')
    (a : AgentKind -> list Element) (twice : AgentKind -> bool)
    (analysis : FileResult) :
  answers_of E code filename s a ->
  answers_of E' code' filename s' (fun k => if twice k then a k ++ a k else a k) ->
  (forall k y, Object y ∈ a k -> self_equal_key y) ->
  (ai_agent.analyze_file E code filename s).1 = Ok analysis ->
  (ai_agent.analyze_file E' code' filename s').1 = Ok analysis.
Proof.
  intros Ha Ha' Hself Hok.
  rewrite (analyze_file_value E code filename s a Ha) in Hok.
  rewrite (analyze_file_value E' code' filename s' _ Ha').
  apply merge_issues_ok in Hok as (style & bug & perf & conv & H1 & H2 & H3 & H4 & Hh & ->).
  rewrite H1, H2, H3, H4.
  assert (forall (b : bool) (l : list Issue),
            (if b then (Object <$> l) ++ (Object <$> l) else Object <$> l) =
            Object <$> (if b then l ++ l else l)) as Hif
    by (intros [] l; by rewrite ?fmap_app).
  rewrite !Hif.
  assert (Forall self_equal_key (style ++ bug ++ perf ++ conv)) as Hall.
  { rewrite !Forall_app.
    repeat split; apply Forall_forall; intros y Hy;
      [apply (Hself StyleAgent)|apply (Hself BugAgent)
      |apply (Hself PerformanceAgent)|apply (Hself BestPracticesAgent)];
      rewrite ?H1, ?H2, ?H3, ?H4; by apply list_elem_of_fmap_2. }
  rewrite merge_issues_merged.
  - by rewrite (merged_issues_repeated twice).
  - rewrite !Forall_app in Hall. destruct Hall as (Fs & Fb & Fp & Fc).
    rewrite !Forall_app.
    repeat split; destruct (twice _); rewrite ?Forall_app;
      repeat split; eapply Forall_impl; eauto using self_equal_hashable.
Qed.

Lemma merge_issues_ignores_repetition_witness :
  (ai_agent.analyze_file Fixtures.bug_agent_repeats "print(1)" "main.py"
     (svc Fixtures.start)).1 =
  Ok {| name := "main.py";
        issues := [<["type" := PyStr "style"]> (Fixtures.finding 3 "unused variable");
                   <["type" := PyStr "bug"]> (Fixtures.finding 7 "division by zero")] |}.
Proof.
  apply (merge_issues_ignores_repetition Fixtures.two_agents Fixtures.bug_agent_repeats
           "print(1)" "print(1)" "main.py" (svc Fixtures.start) (svc Fixtures.start)
           (answers [Object (Fixtures.finding 3 "unused variable")]
              [Object (Fixtures.finding 3 "unused variable");
               Object (Fixtures.finding 7 "division by zero")] [] [])
           (fun k => match k with BugAgent => true | _ => false end)).
  - eexists _, _, _, _. repeat split; reflexivity.
  - eexists _, _, _, _. repeat split; reflexivity.
  - intros k y Hin. destruct k; simpl in Hin;
      repeat (apply elem_of_cons in Hin as [[= ->]|Hin]);
      try (by apply elem_of_nil in Hin); vm_compute; reflexivity.
  - vm_compute. reflexivity.
Defined.

(** ** More on [analyze_pr] *)

Section OrchestratorOrder.
Context {World : Type} (E : Env World).

Lemma analyze_pr_loop_order pr_files file_contents :
  forall all_issues results_files (s : Svc World) all_issues' results_files' s',
    ai_agent.analyze_pr_loop E pr_files file_contents all_issues results_files s
      = (Ok (all_issues', results_files'), s') ->
    exists added,
      results_files' = results_files ++ added /\
      (name <$> added) `sublist_of` (filename_of <$> pr_files) /\
      Forall (fun f => (1 <= length (issues f) <= 10)%nat) added.
Proof.
  induction pr_files as [|file_data rest IH]; intros ai rf s ai' rf' s';
    cbn [ai_agent.analyze_pr_loop].
  - unfold ret. intros [= <- <- <-]. exists []. by rewrite app_nil_r.
  - fold (filename_of file_data).
    assert (forall ai0 rf0 s0,
              ai_agent.analyze_pr_loop E rest file_contents ai0 rf0 s0
                = (Ok (ai', rf'), s') ->
              exists added,
                rf' = rf0 ++ added /\
                (name <$> added) `sublist_of` (filename_of <$> file_data :: rest) /\
                Forall (fun f => (1 <= length (issues f) <= 10)%nat) added) as Hskip.
    { intros ai0 rf0 s0 (added & ? & ? & ?)%IH. exists added.
      split; [done|]. split; [|done]. rewrite fmap_cons. by apply sublist_cons. }
    destruct (ai_agent._is_code_file (filename_of file_data)); cbn [negb];
      [|by apply Hskip].
    destruct (file_contents !! filename_of file_data) as [content|]; [|by apply Hskip].
    destruct (len content =? 0); [by apply Hskip|].
    unfold bind at 1.
    destruct (ai_agent.analyze_file E _ (filename_of file_data) s)
      as [[analysis|e] s1] eqn:Hrun; [|done].
    apply analyze_file_run in Hrun as [_ Hname].
    destruct (Hname analysis eq_refl) as [Hn Hl10].
    destruct (issues analysis) as [|i tl] eqn:Hi; [by apply Hskip|].
    intros (added & -> & Hsub & Hall)%IH.
    exists (analysis :: added). split; [by rewrite <- app_assoc|]. split.
    + rewrite !fmap_cons, Hn. by apply sublist_skip.
    + constructor; [|done]. rewrite Hi in *. simpl in *. lia.
Qed.

(** The calls of [analyze_file], by agent, code and file name. *)
Lemma analyze_file_targets code filename (s : Svc World) r s' :
  ai_agent.analyze_file E code filename s = (r, s') ->
  exists n new,
    calls s' = calls s ++ new /\ (1 <= n <= 4)%nat /\
    call_target <$> new =
      take n [Some (StyleAgent, code, filename); Some (BugAgent, code, filename);
              Some (PerformanceAgent, code, filename);
              Some (BestPracticesAgent, code, filename)] /\
    Forall (fun c => file_of c = Some filename) new /\
    (forall analysis, r = Ok analysis -> n = 4%nat) /\
    (forall e, r = Raise e ->
       exc_class e = "TypeError" /\
       exists c element, c ∈ new /\ element ∈ returned_by c /\ malformed element).
Proof.
  rewrite analyze_file_eq. cbv zeta.
  generalize (agent_analyze E StyleAgent code filename (world s)). intros r1.
  generalize (agent_analyze E BugAgent code filename r1.2). intros r2.
  generalize (agent_analyze E PerformanceAgent code filename r2.2). intros r3.
  generalize (agent_analyze E BestPracticesAgent code filename r3.2). intros r4.
  intros Heq.
  assert (r = merge_issues filename r1.1 r2.1 r3.1 r4.1) as -> by congruence.
  assert (calls s' = calls s ++
            take (asked r1.1 r2.1 r3.1)
              [CallAnalyze StyleAgent code filename r1.1;
               CallAnalyze BugAgent code filename r2.1;
               CallAnalyze PerformanceAgent code filename r3.1;
               CallAnalyze BestPracticesAgent code filename r4.1]) as Hcalls.
  { apply (f_equal snd) in Heq. cbn [snd] in Heq. by rewrite <- Heq. }
  clear Heq.
  exists (asked r1.1 r2.1 r3.1). eexists. split; [exact Hcalls|].
  split; [apply asked_bounds|]. split; [by rewrite fmap_take|]. split.
  { apply Forall_take. repeat (constructor; [done|]). constructor. }
  split.
  - intros analysis Hok. by eapply asked_all.
  - intros e Hm. split; [by eapply merge_issues_error|].
    revert Hm. unfold merge_issues, asked.
    assert (forall k a e0, ai_agent.stamp k a = Raise e0 ->
              exists element, element ∈ a /\ malformed element) as Hstamp.
    { intros k a e0 (_ & t & Ht)%stamp_raise. by exists (NotObject t). }
    destruct (ai_agent.stamp StyleAgent r1.1) as [s1|e1] eqn:H1.
    2: { intros _. destruct (Hstamp _ _ _ H1) as (element & Hin & Hbad).
         eexists _, element. split; [apply elem_of_cons; by left|]. done. }
    destruct (ai_agent.stamp BugAgent r2.1) as [s2|e2] eqn:H2.
    2: { intros _. destruct (Hstamp _ _ _ H2) as (element & Hin & Hbad).
         eexists _, element.
         split; [apply elem_of_cons; right; apply elem_of_cons; by left|]. done. }
    destruct (ai_agent.stamp PerformanceAgent r3.1) as [s3|e3] eqn:H3.
    2: { intros _. destruct (Hstamp _ _ _ H3) as (element & Hin & Hbad).
         eexists _, element.
         split; [do 2 (apply elem_of_cons; right); apply elem_of_cons; by left|]. done. }
    destruct (ai_agent.stamp BestPracticesAgent r4.1) as [s4|e4] eqn:H4.
    2: { intros _. destruct (Hstamp _ _ _ H4) as (element & Hin & Hbad).
         eexists _, element.
         split; [do 3 (apply elem_of_cons; right); apply elem_of_cons; by left|]. done. }
    apply stamp_ok in H1 as (style & E1 & ->). apply stamp_ok in H2 as (bug & E2 & ->).
    apply stamp_ok in H3 as (perf & E3 & ->). apply stamp_ok in H4 as (conv & E4 & ->).
    destruct (ai_agent.unique_loop _ [] []) as [u|e'] eqn:Hloop; [done|]. intros _.
    apply unique_loop_error in Hloop as [_ Hnot].
    rewrite Forall_hashable_all_tagged in Hnot.
    apply not_Forall_Exists in Hnot; [|intros x; apply _].
    apply Exists_exists in Hnot as (y & Hy & Hbad). rewrite !elem_of_app in Hy.
    cbn [take].
    destruct Hy as [Hy|[Hy|[Hy|Hy]]]; eexists _, (Object y).
    + split; [apply elem_of_cons; by left|].
      split; [|done]. cbn [returned_by]. rewrite E1. by apply list_elem_of_fmap_2.
    + split; [apply elem_of_cons; right; apply elem_of_cons; by left|].
      split; [|done]. cbn [returned_by]. rewrite E2. by apply list_elem_of_fmap_2.
    + split; [do 2 (apply elem_of_cons; right); apply elem_of_cons; by left|].
      split; [|done]. cbn [returned_by]. rewrite E3. by apply list_elem_of_fmap_2.
    + split; [do 3 (apply elem_of_cons; right); apply elem_of_cons; by left|].
      split; [|done]. cbn [returned_by]. rewrite E4. by apply list_elem_of_fmap_2.
Qed.

Lemma four_calls_eq file_contents file_data content :
  file_contents !! filename_of file_data = Some content ->
  four_calls file_contents file_data =
  [Some (StyleAgent, str_take (Z.to_nat 10000) content, filename_of file_data);
   Some (BugAgent, str_take (Z.to_nat 10000) content, filename_of file_data);
   Some (PerformanceAgent, str_take (Z.to_nat 10000) content, filename_of file_data);
   Some (BestPracticesAgent, str_take (Z.to_nat 10000) content, filename_of file_data)].
Proof. intros Hc. unfold four_calls. rewrite Hc. reflexivity. Qed.

(** What the loop of [analyze_pr] asks of the agents. *)
Lemma analyze_pr_loop_calls pr_files file_contents :
  forall all_issues results_files (s : Svc World) r s',
    ai_agent.analyze_pr_loop E pr_files file_contents all_issues results_files s
      = (r, s') ->
    exists new,
      calls s' = calls s ++ new /\
      (call_target <$> new) `prefix_of`
        concat (four_calls file_contents <$> List.filter (eligible file_contents) pr_files) /\
      (forall res, r = Ok res ->
         call_target <$> new =
         concat (four_calls file_contents <$>
                 List.filter (eligible file_contents) pr_files)) /\
      (forall e, r = Raise e ->
         exc_class e = "TypeError" /\
         exists c c' element,
           c ∈ new /\ last new = Some c' /\
           file_of c = file_of c' /\ is_Some (file_of c) /\
           element ∈ returned_by c /\ malformed element).
Proof.
  induction pr_files as [|file_data rest IH]; intros ai rf s r s';
    cbn [ai_agent.analyze_pr_loop].
  - unfold ret. intros [= <- <-]. exists []. rewrite app_nil_r. done.
  - fold (filename_of file_data). cbn [List.filter].
    destruct (ai_agent._is_code_file (filename_of file_data)) eqn:Hext; cbn [negb].
    2: { assert (eligible file_contents file_data = false) as ->
           by (unfold eligible; by rewrite Hext).
         by apply IH. }
    destruct (file_contents !! filename_of file_data) as [content|] eqn:Hc.
    2: { assert (eligible file_contents file_data = false) as ->
           by (unfold eligible; by rewrite Hext, Hc).
         by apply IH. }
    destruct (len content =? 0) eqn:Hlen.
    { assert (eligible file_contents file_data = false) as ->
        by (unfold eligible; by rewrite Hext, Hc, Hlen).
      by apply IH. }
    assert (eligible file_contents file_data = true) as ->
      by (unfold eligible; by rewrite Hext, Hc, Hlen).
    rewrite handed_code. rewrite fmap_cons. cbn [concat].
    rewrite (four_calls_eq _ _ _ Hc).
    generalize (str_take (Z.to_nat 10000) content). intros code.
    unfold bind at 1.
    destruct (ai_agent.analyze_file E code (filename_of file_data) s)
      as [[analysis|e] s1] eqn:Hrun;
      apply analyze_file_targets in Hrun
        as (n & four & Hcalls & Hn & Htargets & Hfiles & Hall & Hfail).
    + rewrite (Hall analysis eq_refl) in Htargets. cbn [take] in Htargets.
      assert (forall ai0 rf0,
                ai_agent.analyze_pr_loop E rest file_contents ai0 rf0 s1 = (r, s') ->
                exists new,
                  calls s' = calls s ++ new /\
                  (call_target <$> new) `prefix_of`
                    (call_target <$> four) ++
                    concat (four_calls file_contents <$>
                            List.filter (eligible file_contents) rest) /\
                  (forall res, r = Ok res ->
                     call_target <$> new =
                     (call_target <$> four) ++
                     concat (four_calls file_contents <$>
                             List.filter (eligible file_contents) rest)) /\
                  (forall e, r = Raise e ->
                     exc_class e = "TypeError" /\
                     exists c c' element,
                       c ∈ new /\ last new = Some c' /\
                       file_of c = file_of c' /\ is_Some (file_of c) /\
                       element ∈ returned_by c /\ malformed element))
        as Hnext.
      { intros ai0 rf0 Hloop.
        apply IH in Hloop as (new & Hnew & Hpre & Hok & Hraise).
        exists (four ++ new). split; [by rewrite Hnew, Hcalls, <- app_assoc|].
        rewrite fmap_app.
        split; [by apply prefix_app|]. split.
        - intros res Hres. by rewrite (Hok res Hres).
        - intros e Hr.
          destruct (Hraise e Hr) as (? & c & c' & element & Hin & Hlast & ? & ? & ? & ?).
          split; [done|]. exists c, c', element.
          split; [apply elem_of_app; by right|]. split; [|done].
          destruct new as [|c0 new']; [done|]. by rewrite last_app_cons. }
      rewrite <- Htargets. destruct (issues analysis); by eapply Hnext.
    + unfold raise. intros [= <- <-]. exists four. split; [done|].
      destruct (Hfail e eq_refl) as (Hclass & c & element & Hin & Hel & Hbad).
      split; [|split; [done|]].
      * rewrite Htargets.
        etrans; [apply prefix_take|]. by apply prefix_app_r.
      * intros e' [= <-]. split; [done|]. rewrite Forall_forall in Hfiles.
        destruct (last four) as [c'|] eqn:Hl.
        -- exists c, c', element. split; [done|]. split; [done|].
           apply last_Some_elem_of in Hl.
           rewrite (Hfiles c Hin), (Hfiles c' Hl). split; [done|]. split; [by eexists|]. done.
        -- apply last_None in Hl. subst four. by apply elem_of_nil in Hin.
Qed.

End OrchestratorOrder.

Lemma sum_issue_lengths_bounds (l : list FileResult) :
  Forall (fun f => (1 <= length (issues f) <= 10)%nat) l ->
  (length l <= sum_list ((fun f => length (issues f)) <$> l) <= 10 * length l)%nat.
Proof.
  induction 1 as [|f l Hf Hl IH]; [simpl; lia|].
  rewrite fmap_cons.
  change (sum_list (length (issues f) :: ((fun f => length (issues f)) <$> l)))
    with (length (issues f) + sum_list ((fun f => length (issues f)) <$> l))%nat.
  change (length (f :: l)) with (S (length l)). lia.
Qed.

(** X11.  The files of a result of [analyze_pr] come in the order of the
    file list; there are no more of them than entries in the list; and
    each has between 1 and 10 issues, so the total lies between the number
    of files and ten times that number. *)
Theorem analyze_pr_result_order_and_bounds
    {World : Type} (E : Env World) (pr_files : list FileData)
    (file_contents : gmap string string) (s s' : Svc World) (r : AnalysisResult) :
  ai_agent.analyze_pr E pr_files file_contents s = (Ok r, s') ->
  (name <$> files r) `sublist_of` (filename_of <$> pr_files) /\
  (length (files r) <= length pr_files)%nat /\
  Forall (fun f => (1 <= length (issues f) <= 10)%nat) (files r) /\
  total_files (summary r) <= total_issues (summary r) <= 10 * total_files (summary r).
Proof.
  unfold ai_agent.analyze_pr, bind.
  destruct (ai_agent.analyze_pr_loop E pr_files file_contents [] [] s)
    as [[[all_issues results_files]|e] s1] eqn:Hloop; [|done].
  pose proof Hloop as (new & _ & _ & Hres)%analyze_pr_loop_run.
  destruct (Hres all_issues results_files eq_refl) as (Hcat & _ & _).
  specialize (Hcat eq_refl).
  apply analyze_pr_loop_order in Hloop as (added & Hadded & Hsub & Hall).
  simpl in Hadded. subst results_files.
  unfold ret. intros [= <- <-].
  cbn [files summary total_files total_issues].
  split; [done|]. split.
  { apply sublist_length in Hsub. by rewrite !length_fmap in Hsub. }
  split; [done|].
  subst all_issues. rewrite length_concat_issues.
  pose proof (sum_issue_lengths_bounds added Hall). lia.
Qed.

Lemma analyze_pr_result_order_and_bounds_witness :
  exists r s',
    ai_agent.analyze_pr Fixtures.two_agents [Fixtures.file "main.py"]
      {[ "main.py" := "print(1)" ]} (svc Fixtures.start) = (Ok r, s') /\
    (name <$> files r) `sublist_of` (filename_of <$> [Fixtures.file "main.py"]) /\
    (length (files r) <= length [Fixtures.file "main.py"])%nat /\
    Forall (fun f => (1 <= length (issues f) <= 10)%nat) (files r) /\
    total_files (summary r) <= total_issues (summary r) <= 10 * total_files (summary r).
Proof.
  eexists _, _. split; [vm_compute; reflexivity|].
  eapply (analyze_pr_result_order_and_bounds Fixtures.two_agents
            [Fixtures.file "main.py"] {[ "main.py" := "print(1)" ]} (svc Fixtures.start)).
  vm_compute. reflexivity.
Defined.

(** X12.  [analyze_pr] calls the agents, in the order style, bug,
    performance, best practice, on the entries of the file list that have
    a code extension and a non-empty content, in list order, each time
    with the content cut to 10000 characters; it makes no other call.  A
    run that returns has made all of these calls.  A run that fails has
    stopped among them, with a [TypeError], and an agent called on the
    last file has returned an element that is not an object or whose key
    cannot be hashed. *)
Theorem analyze_pr_calls_all_eligible_files
    {World : Type} (E : Env World) (pr_files : list FileData)
    (file_contents : gmap string string) (s : Svc World) :
  let run := ai_agent.analyze_pr E pr_files file_contents s in
  exists new,
    calls run.2 = calls s ++ new /\
    (call_target <$> new) `prefix_of`
      concat (four_calls file_contents <$> List.filter (eligible file_contents) pr_files) /\
    match run.1 with
    | Ok _ =>
        call_target <$> new =
        concat (four_calls file_contents <$> List.filter (eligible file_contents) pr_files)
    | Raise e =>
        exc_class e = "TypeError" /\
        exists c c' element,
          c ∈ new /\ last new = Some c' /\
          file_of c = file_of c' /\ is_Some (file_of c) /\
          element ∈ returned_by c /\ malformed element
    end.
Proof.
  unfold ai_agent.analyze_pr, bind.
  destruct (ai_agent.analyze_pr_loop E pr_files file_contents [] [] s)
    as [r1 s1] eqn:Hloop.
  apply analyze_pr_loop_calls in Hloop as (new & Hcalls & Hpre & Hok & Hraise).
  exists new. destruct r1 as [[ai rf]|e]; cbn [fst snd]; (split; [done|]); (split; [done|]).
  - by eapply Hok.
  - by apply Hraise.
Qed.

(** ** The GitHub client, once more *)

Lemma split_slash_nonempty s : split_slash s <> [].
Proof.
  induction s as [|c r IH]; [done|]. simpl.
  destruct (split_slash r); [done|]. by destruct (Ascii.eqb c "/").
Qed.

Lemma split_slash_app a b :
  split_slash (a +:+ "/" +:+ b) = split_slash a ++ split_slash b.
Proof.
  induction a as [|c a IH].
  - rewrite append_nil_l. change ("/" +:+ b) with (String "/" b). simpl.
    pose proof (split_slash_nonempty b). by destruct (split_slash b).
  - rewrite append_cons. simpl. rewrite IH.
    pose proof (split_slash_nonempty a). destruct (split_slash a); [done|].
    simpl. by destruct (Ascii.eqb c "/").
Qed.

Lemma str_contains_char_cons d c r :
  str_contains (String d "") (String c r) = false ->
  c <> d /\ str_contains (String d "") r = false.
Proof.
  simpl. destruct (ascii_dec d c) as [->|Hne].
  - by destruct r.
  - simpl. intros ->. split; [congruence | done].
Qed.

Lemma split_slash_no_slash s : str_contains "/" s = false -> split_slash s = [s].
Proof.
  induction s as [|c r IH]; [done|].
  intros [Hc Hr]%str_contains_char_cons. simpl. rewrite (IH Hr).
  destruct (Ascii.eqb c "/") eqn:Heq; [|done]. by apply Ascii.eqb_eq in Heq.
Qed.

Lemma rstrip_slash_no_slash s : str_contains "/" s = false -> rstrip_slash s = s.
Proof.
  induction s as [|c r IH]; [done|].
  intros [Hc Hr]%str_contains_char_cons. simpl. rewrite (IH Hr).
  destruct (Ascii.eqb c "/") eqn:Heq; [by apply Ascii.eqb_eq in Heq|].
  by rewrite andb_false_r.
Qed.

Lemma rstrip_slash_app a b :
  rstrip_slash b <> "" -> rstrip_slash (a +:+ b) = a +:+ rstrip_slash b.
Proof.
  intros Hb. induction a as [|c a IH]; [done|].
  rewrite !append_cons. simpl. rewrite IH.
  destruct (a +:+ rstrip_slash b) as [|d t] eqn:Happ; [|done].
  destruct a; [|done]. by rewrite append_nil_l in Happ.
Qed.

Lemma rstrip_slash_trailing s : rstrip_slash (s +:+ "/") = rstrip_slash s.
Proof.
  induction s as [|c s IH]; [done|]. rewrite append_cons. simpl. by rewrite IH.
Qed.

Lemma rstrip_slash_slashes n : forall s, rstrip_slash (s +:+ slashes n) = rstrip_slash s.
Proof.
  induction n as [|n IH]; intros s; cbn [slashes]; [by rewrite append_nil_r|].
  by rewrite <- append_assoc, IH, rstrip_slash_trailing.
Qed.

Lemma last_two_app l owner repo : last_two (l ++ [owner; repo]) = Some (owner, repo).
Proof. unfold last_two. by rewrite rev_app_distr. Qed.

Lemma remove_dot_git_no_dot a s :
  str_contains "." a = false ->
  remove_dot_git (a +:+ s) = a +:+ remove_dot_git s.
Proof.
  unfold remove_dot_git. induction a as [|c a IH]; [done|].
  intros [Hc Ha]%str_contains_char_cons. rewrite !append_cons.
  cbn [remove_dot_git_from].
  assert (String.prefix ".git" (String c (a +:+ s)) = false) as ->.
  { change (String.prefix ".git" (String c (a +:+ s)))
      with (if ascii_dec "." c then String.prefix "git" (a +:+ s) else false).
    destruct (ascii_dec "." c) as [Heq|Hne]; [by destruct Hc | done]. }
  by rewrite IH.
Qed.

Lemma url_parts_owner_repo prefix owner repo :
  str_contains "/" owner = false ->
  str_contains "/" repo = false ->
  repo <> "" ->
  github_service.url_parts (prefix +:+ "/" +:+ owner +:+ "/" +:+ repo) =
  split_slash prefix ++ [owner; repo].
Proof.
  intros Ho Hr Hne. unfold github_service.url_parts.
  rewrite <- !append_assoc, rstrip_slash_app, rstrip_slash_no_slash by
    (rewrite ?rstrip_slash_no_slash; done).
  rewrite !append_assoc, !split_slash_app.
  by rewrite (split_slash_no_slash owner), (split_slash_no_slash repo).
Qed.

(** X3.  How the client reads a repository URL.  For a URL that ends in
    owner/repo (neither with a slash in it), trailing slashes, however
    many, change nothing, and the request is made for that owner and that
    repository; a [.git] after a name without dots is dropped, and so is a
    [.git] in the middle of a name. *)
Theorem repository_url_parsing (prefix owner repo : string) :
  str_contains "/" owner = false ->
  str_contains "/" repo = false ->
  repo <> "" ->
  let url := prefix +:+ "/" +:+ owner +:+ "/" +:+ repo in
  last_two (github_service.url_parts url) = Some (owner, repo) /\
  (forall n, github_service.url_parts (url +:+ slashes n) = github_service.url_parts url) /\
  (length (github_service.url_parts url) <? 2)%nat = false /\
  (str_contains "." repo = false ->
   remove_dot_git repo = repo /\
   remove_dot_git (repo +:+ ".git") = repo /\
   forall tail, remove_dot_git (repo +:+ ".git" +:+ tail) = repo +:+ remove_dot_git tail).
Proof.
  intros Ho Hr Hne url. subst url.
  rewrite url_parts_owner_repo by done.
  split; [apply last_two_app|]. split.
  { intros n. unfold github_service.url_parts at 1. rewrite rstrip_slash_slashes.
    by rewrite <- url_parts_owner_repo. }
  split.
  { rewrite length_app. simpl. apply Nat.ltb_ge. lia. }
  intros Hdot. split; [|split].
  - rewrite <- (append_nil_r repo) at 1. rewrite remove_dot_git_no_dot by done.
    by rewrite append_nil_r.
  - rewrite remove_dot_git_no_dot by done. by rewrite append_nil_r.
  - intros tail. rewrite remove_dot_git_no_dot by done. f_equal.
    by destruct tail.
Qed.

Lemma repository_url_parsing_witness :
  let url := "https://github.com" +:+ "/" +:+ "acme" +:+ "/" +:+ "widgets" in
  last_two (github_service.url_parts url) = Some ("acme", "widgets") /\
  (forall n, github_service.url_parts (url +:+ slashes n) = github_service.url_parts url) /\
  (length (github_service.url_parts url) <? 2)%nat = false /\
  (str_contains "." "widgets" = false ->
   remove_dot_git "widgets" = "widgets" /\
   remove_dot_git ("widgets" +:+ ".git") = "widgets" /\
   forall tail,
     remove_dot_git ("widgets" +:+ ".git" +:+ tail) = "widgets" +:+ remove_dot_git tail).
Proof.
  apply (repository_url_parsing "https://github.com" "acme" "widgets");
    [reflexivity | reflexivity | discriminate].
Defined.

(** X1.  [get_pr_files] never raises and logs one call.  For a URL without
    a slash it returns the empty list without any request.  Otherwise it
    makes one request, for the owner and the repository read off the URL,
    and returns the list of the body when the request succeeds with a
    status outside 400 to 599 and a readable body - and the empty list in
    every other case, so that a failure cannot be told from a pull request
    without files. *)
Theorem get_pr_files_never_raises
    {World : Type} (E : Env World) (token : option string) (repo_url : string)
    (pr_number : Z) (s : Svc World) :
  let run := github_service.get_pr_files E token repo_url pr_number s in
  exists files,
    run.1 = Ok files /\
    calls run.2 = calls s ++ [CallGetPRFiles repo_url pr_number files] /\
    ((length (github_service.url_parts repo_url) <? 2)%nat = true ->
     files = [] /\ world run.2 = world s) /\
    (forall owner repo,
       (length (github_service.url_parts repo_url) <? 2)%nat = false ->
       last_two (github_service.url_parts repo_url) = Some (owner, repo) ->
       let answer :=
         requests_get_pull_files E token owner (remove_dot_git repo) pr_number (world s) in
       world run.2 = answer.2 /\
       files = match answer.1 with
               | Response status_code (Some body) =>
                   if github_service.raises_for_status status_code then [] else body
               | _ => []
               end).
Proof.
  unfold github_service.get_pr_files, bind, try_except, record_call, ret,
    github_service.get_pr_files_try, bind, ask, raise, ret.
  destruct (length (github_service.url_parts repo_url) <? 2)%nat eqn:Hlen.
  { simpl. eexists. repeat split; try done. }
  destruct (last_two (github_service.url_parts repo_url)) as [[owner repo]|] eqn:Hparts.
  2: { simpl. eexists. repeat split; try done. }
  destruct (requests_get_pull_files E token owner (remove_dot_git repo) pr_number
              (world s)) as [[e|status_code [body|]] w] eqn:Hanswer; simpl;
    try destruct (github_service.raises_for_status status_code) eqn:Hstatus; simpl;
    eexists; (split; [reflexivity|]); (split; [reflexivity|]); (split; [done|]);
    intros owner' repo' _ [= <- <-]; rewrite Hanswer; simpl; rewrite ?Hstatus; done.
Qed.

(** X2.  [get_file_content] never raises and logs one call.  It returns a
    text only when the URL has an owner and a repository, the request
    succeeds with a status other than 404 and outside 400 to 599, and the
    body has a ['content'] that decodes; in every other case it returns
    [None]. *)
Theorem get_file_content_never_raises
    {World : Type} (E : Env World) (token : option string)
    (repo_url ref file_path : string) (s : Svc World) :
  let run := github_service.get_file_content E token repo_url ref file_path s in
  exists content,
    run.1 = Ok content /\
    calls run.2 = calls s ++ [CallGetFileContent repo_url ref file_path content] /\
    (last_two (github_service.url_parts repo_url) = None ->
     content = None /\ world run.2 = world s) /\
    (forall owner repo,
       last_two (github_service.url_parts repo_url) = Some (owner, repo) ->
       let answer :=
         requests_get_contents E token owner (remove_dot_git repo) file_path ref (world s) in
       world run.2 = answer.2 /\
       content = match answer.1 with
                 | Response status_code (Some (ContentText text)) =>
                     if (status_code =? 404) || github_service.raises_for_status status_code
                     then None else Some text
                 | _ => None
                 end).
Proof.
  unfold github_service.get_file_content, bind, try_except, record_call, ret,
    github_service.get_file_content_try, bind, ask, raise, ret.
  destruct (last_two (github_service.url_parts repo_url)) as [[owner repo]|] eqn:Hparts.
  2: { simpl. eexists. repeat split; try done. }
  destruct (requests_get_contents E token owner (remove_dot_git repo) file_path ref
              (world s)) as [[e|status_code [[| |text]|]] w] eqn:Hanswer; simpl;
    try destruct (status_code =? 404) eqn:H404; simpl;
    try destruct (github_service.raises_for_status status_code) eqn:Hstatus; simpl;
    eexists; (split; [reflexivity|]); (split; [reflexivity|]); (split; [done|]);
    intros owner' repo' [= <- <-]; rewrite Hanswer; simpl;
    rewrite ?H404, ?Hstatus; done.
Qed.

(** ** The task, once more *)

Section Trace.
Context {World : Type} (E : Env World).

Lemma fetch_loop_exact token repo_url pr_number files :
  forall file_contents (s : Svc World),
  exists answers s',
    length answers = length files /\
    tasks.fetch_loop E token repo_url pr_number files file_contents s =
      (Ok (collected files answers file_contents), s') /\
    calls s' = calls s ++ zip_with (content_request repo_url pr_number) files answers.
Proof.
  induction files as [|file_data rest IH]; intros fc s.
  - exists [], s. simpl. unfold ret. by rewrite app_nil_r.
  - cbn [tasks.fetch_loop]. fold (filename_of file_data). fold (head_ref pr_number).
    unfold bind at 1. unfold try_except, bind at 1.
    destruct (get_file_content_run E token repo_url (head_ref pr_number)
                (filename_of file_data) s) as (content & w & ->).
    set (s1 := mkSvc w _).
    assert (match content with
            | Some text =>
                if negb (len text =? 0) && (len text <? 100000)
                then ret (<[filename_of file_data := text]> fc)
                else ret fc
            | None => ret fc
            end s1 = (Ok (stored fc (filename_of file_data) content), s1)) as ->.
    { unfold stored, ret. destruct content as [text|]; [|done].
      by destruct (_ && _). }
    destruct (IH (stored fc (filename_of file_data) content) s1)
      as (answers & s' & Hlen & -> & Hcalls).
    exists (content :: answers), s'. split; [simpl; by rewrite Hlen|].
    split; [done|]. rewrite Hcalls. subst s1. simpl. by rewrite <- app_assoc.
Qed.

(** The calls of steps 1 to 3, in order, and why they fail when they
    do. *)
(** Without an eligible entry, the loop of [analyze_pr] does nothing. *)
Lemma analyze_pr_loop_none_eligible pr_files file_contents all_issues results_files
    (s : Svc World) :
  List.filter (eligible file_contents) pr_files = [] ->
  ai_agent.analyze_pr_loop E pr_files file_contents all_issues results_files s =
  (Ok (all_issues, results_files), s).
Proof.
  induction pr_files as [|file_data rest IH]; [done|].
  cbn [List.filter ai_agent.analyze_pr_loop].
  destruct (eligible file_contents file_data) eqn:Hel; [done|]. intros Hrest.
  unfold eligible, filename_of in Hel.
  destruct (ai_agent._is_code_file _); [|by apply IH]. cbn [negb].
  destruct (file_contents !! _) as [content|]; [|by apply IH].
  simpl in Hel. apply negb_false_iff in Hel. rewrite Hel. by apply IH.
Qed.

Lemma fetch_and_analyze_trace repo_url pr_number token (s : Svc World) r s' :
  tasks.fetch_and_analyze E repo_url pr_number token s = (r, s') ->
  exists pr_files answers agent_calls,
    calls s' =
      calls s ++ CallGetPRFiles repo_url pr_number pr_files ::
        zip_with (content_request repo_url pr_number) (take 15 pr_files) answers ++
        agent_calls /\
    length answers = length (take 15 pr_files) /\
    (call_target <$> agent_calls) `prefix_of`
      concat (four_calls (collected (take 15 pr_files) answers ∅) <$>
              List.filter (eligible (collected (take 15 pr_files) answers ∅)) pr_files) /\
    (forall res, r = Ok res ->
       pr_files <> [] /\
       call_target <$> agent_calls =
       concat (four_calls (collected (take 15 pr_files) answers ∅) <$>
               List.filter (eligible (collected (take 15 pr_files) answers ∅)) pr_files) /\
       (List.filter (eligible (collected (take 15 pr_files) answers ∅)) pr_files = [] ->
        res = empty_result)) /\
    (forall e, r = Raise e -> failure_cause E pr_files agent_calls e).
Proof.
  unfold tasks.fetch_and_analyze. unfold bind at 1.
  destruct (get_pr_files_run E token repo_url pr_number s) as (pr_files & w & ->).
  destruct pr_files as [|file_data more].
  { unfold bind, raise. intros [= <- <-]. exists [], [], []. cbn [calls].
    split; [done|]. split; [done|]. split; [done|]. split; [done|].
    intros e [= <-]. by left. }
  set (pr_files := file_data :: more). unfold bind at 1, ret at 1. unfold bind at 1.
  destruct (fetch_loop_exact token repo_url pr_number (take 15 pr_files) ∅
              (mkSvc w (calls s ++ [CallGetPRFiles repo_url pr_number pr_files])))
    as (answers & s2 & Hlen & -> & Hcalls).
  cbn [calls] in Hcalls.
  unfold bind at 1, ask.
  destruct (new_chat_clients E (world s2)) as [[e|] w3] eqn:Hclients.
  - unfold bind, raise. intros [= <- <-]. exists pr_files, answers, []. cbn [calls].
    split; [by rewrite Hcalls, app_nil_r, <- app_assoc|]. split; [done|].
    split; [apply prefix_nil|]. split; [done|].
    intros e' [= <-]. right; left. split; [done|]. split; [done|].
    exists (world s2). by rewrite Hclients.
  - unfold bind at 1, ret at 1. unfold ai_agent.analyze_pr, bind.
    destruct (ai_agent.analyze_pr_loop E pr_files _ [] [] _) as [r1 s3] eqn:Hloop.
    pose proof Hloop as Hskip.
    apply analyze_pr_loop_calls in Hloop as (new & Hnew & Hpre & Hok & Hraise).
    cbn [calls] in Hnew.
    intros Hend. exists pr_files, answers, new.
    assert (calls s' = calls s3) as ->.
    { destruct r1 as [[ai rf]|e]; unfold ret in Hend; by injection Hend as <- <-. }
    split; [by rewrite Hnew, Hcalls, <- !app_assoc|]. split; [done|].
    split; [done|]. split.
    + intros res ->. split; [done|]. destruct r1 as [[ai rf]|e]; [|done].
      split; [by eapply Hok|]. intros Hnone.
      rewrite analyze_pr_loop_none_eligible in Hskip by done.
      injection Hskip as <- <- _. unfold ret in Hend. by injection Hend as <- _.
    + intros e ->. destruct r1 as [[ai rf]|e1]; [done|]. injection Hend as <- _.
      right; right. split; [done|]. by apply Hraise.
Qed.

Lemma outcome_returned n r res : outcome_of n r = tasks.Returned res -> r = Ok res.
Proof.
  destruct r as [res'|e]; simpl; [by intros [= ->]|].
  destruct (tasks.reraised e); [done|]. by destruct (n <? 2)%nat.
Qed.

End Trace.

(** ** The empty file list *)




(** The same pull request when the model server cannot be reached: the
    construction of the clients raises, the job is left failed with that
    exception's message, and the task re-queues itself twice before it
    gives up. *)
Example no_eligible_file_and_no_server :
  let run := tasks.deliver Fixtures.readme_only_no_server 5 0 "task-0"
               "https://github.com/acme/widgets" 42 None Fixtures.queued in
  run.1 = [tasks.RetryScheduled 5 Fixtures.connection_refused;
           tasks.RetryScheduled 5 Fixtures.connection_refused;
           tasks.Raised Fixtures.connection_refused] /\
  status <$> db run.2 !! "task-0" = Some "failed" /\
  error_message <$> db run.2 !! "task-0" = Some (Some "Connection refused") /\
  Forall (fun c => call_target c = None) (calls (svc run.2)).
Proof. vm_compute. repeat split; repeat constructor. Qed.

(** X13.  The calls of one execution of the task, in order: the file list
    is requested once; then the content of every one of the first 15
    entries is requested, once each and in list order, whatever the
    extension of the name; then the agents are called, in the order style,
    bug, performance, best practice, on the entries of the whole list that
    have a code extension and a stored content, in list order.  Nothing
    else is called; an execution that returns has made all of these calls,
    and one that does not has stopped among them. *)
Theorem execution_call_trace
    {World : Type} (E : Env World) (request_retries : nat) (id repo_url : string)
    (pr_number : Z) (token : option string) (st : TaskState World) :
  let run := tasks.analyze_github_pr E request_retries id repo_url pr_number token st in
  exists pr_files answers agent_calls,
    calls (svc run.2) =
      calls (svc st) ++ CallGetPRFiles repo_url pr_number pr_files ::
        zip_with (content_request repo_url pr_number) (take 15 pr_files) answers ++
        agent_calls /\
    length answers = length (take 15 pr_files) /\
    (call_target <$> agent_calls) `prefix_of`
      concat (four_calls (collected (take 15 pr_files) answers ∅) <$>
              List.filter (eligible (collected (take 15 pr_files) answers ∅)) pr_files) /\
    (forall res, run.1 = tasks.Returned res ->
       call_target <$> agent_calls =
       concat (four_calls (collected (take 15 pr_files) answers ∅) <$>
               List.filter (eligible (collected (take 15 pr_files) answers ∅)) pr_files)).
Proof.
  intros run. subst run.
  destruct (tasks.analyze_github_pr E request_retries id repo_url pr_number token st)
    as [o st'] eqn:Hexec.
  apply execution_run in Hexec as (s1 & r & s2 & Hrun & Hs1 & _ & -> & Hs2 & _).
  apply fetch_and_analyze_trace in Hrun
    as (pr_files & answers & agent_calls & Hcalls & Hlen & Hpre & Hall & _).
  exists pr_files, answers, agent_calls. cbn [fst snd].
  split; [by rewrite Hs2, Hcalls, Hs1|]. split; [done|]. split; [done|].
  intros res Hres. apply (Hall res). by eapply outcome_returned.
Qed.


(** ** The number of executions *)

Section Budget.
Context {World : Type} (E : Env World).

Lemma outcome_of_shape n r :
  final (outcome_of n r) \/ (requeued (outcome_of n r) /\ (n < 2)%nat).
Proof.
  destruct r as [res|e]; simpl; [by left|].
  destruct (tasks.reraised e) eqn:Hre; [by left|].
  destruct (n <? 2)%nat eqn:Hn; [|by left].
  right. apply Nat.ltb_lt in Hn. split; [by exists e | done].
Qed.

Lemma deliver_enough id url number token budget :
  forall n (st : TaskState World),
    (1 <= budget)%nat -> (3 <= n + budget)%nat ->
    exists retried last,
      (tasks.deliver E budget n id url number token st).1 = retried ++ [last] /\
      Forall requeued retried /\ final last /\
      (length retried + n <= 2 \/ retried = [])%nat /\
      forall extra,
        tasks.deliver E (budget + extra) n id url number token st =
        tasks.deliver E budget n id url number token st.
Proof.
  induction budget as [|budget IH]; intros n st Hb Hn; [lia|].
  assert (forall extra,
            tasks.deliver E (S budget + extra) n id url number token st =
            let '(outcome, st1) := tasks.analyze_github_pr E n id url number token st in
            match outcome with
            | tasks.RetryScheduled _ _ =>
                let '(outcomes, st2) :=
                  tasks.deliver E (budget + extra) (S n) id url number token st1 in
                (outcome :: outcomes, st2)
            | _ => ([outcome], st1)
            end) as Hstep by done.
  assert (tasks.deliver E (S budget) n id url number token st =
          let '(outcome, st1) := tasks.analyze_github_pr E n id url number token st in
          match outcome with
          | tasks.RetryScheduled _ _ =>
              let '(outcomes, st2) :=
                tasks.deliver E budget (S n) id url number token st1 in
              (outcome :: outcomes, st2)
          | _ => ([outcome], st1)
          end) as Hhere by done.
  setoid_rewrite Hstep. rewrite Hhere. clear Hstep Hhere.
  destruct (tasks.analyze_github_pr E n id url number token st) as [o st1] eqn:Hexec.
  pose proof Hexec as (s1 & r & s2 & _ & _ & _ & Ho & _)%execution_run.
  pose proof (outcome_of_shape n r) as Hshape. rewrite <- Ho in Hshape.
  destruct o as [res|e|countdown e].
  - exists [], (tasks.Returned res). simpl. repeat split; auto.
  - exists [], (tasks.Raised e). simpl. repeat split; auto.
  - destruct Hshape as [[]|[Hre Hlt]].
    destruct (IH (S n) st1) as (retried & last & Hout & Hall & Hlast & Hlen & Hextra);
      [lia|lia|].
    exists (tasks.RetryScheduled countdown e :: retried), last.
    destruct (tasks.deliver E budget (S n) id url number token st1)
      as [outcomes st2] eqn:Hrest.
    simpl in Hout. subst outcomes. split; [done|]. split; [by constructor|].
    split; [done|]. split.
    + left. destruct Hlen as [?| ->]; simpl in *; lia.
    + intros extra. cbn beta iota. by rewrite Hextra.
Qed.

End Budget.

(** X15.  Whatever the state, a task that is delivered to the worker is
    executed at most three times: every execution but the last re-queues it
    with a countdown of 5, for an exception that bears neither mark; the
    last one returns or raises; and the queue needs no more than three
    deliveries. *)
Theorem at_most_three_executions
    {World : Type} (E : Env World) (deliveries : nat) (id url : string)
    (number : Z) (token : option string) (st : TaskState World) :
  (3 <= deliveries)%nat ->
  let run := tasks.deliver E deliveries 0 id url number token st in
  exists retried last,
    run.1 = retried ++ [last] /\
    (length retried <= 2)%nat /\
    Forall requeued retried /\
    final last /\
    run = tasks.deliver E 3 0 id url number token st.
Proof.
  intros Hd run. subst run.
  destruct (deliver_enough E id url number token 3 0 st)
    as (retried & last & Hout & Hall & Hlast & Hlen & Hextra); [lia|lia|].
  assert (tasks.deliver E deliveries 0 id url number token st =
          tasks.deliver E 3 0 id url number token st) as ->.
  { replace deliveries with (3 + (deliveries - 3))%nat by lia. apply Hextra. }
  exists retried, last. split; [done|]. split; [|done].
  destruct Hlen as [?| ->]; simpl; lia.
Qed.

Lemma at_most_three_executions_witness :
  let run := tasks.deliver (Fixtures.flaky_clients 5) 7 0 "task-0"
               "https://github.com/acme/widgets" 42 None Fixtures.queued in
  exists retried last,
    run.1 = retried ++ [last] /\
    (length retried <= 2)%nat /\
    Forall requeued retried /\
    final last /\
    run = tasks.deliver (Fixtures.flaky_clients 5) 3 0 "task-0"
            "https://github.com/acme/widgets" 42 None Fixtures.queued.
Proof.
  apply (at_most_three_executions (Fixtures.flaky_clients 5) 7 "task-0"
           "https://github.com/acme/widgets" 42 None Fixtures.queued).
  lia.
Defined.

(** ** Why an execution fails *)


(** ** From the task to the results endpoint *)

Section Reporting.
Context {World : Type} (E : Env World).


End Reporting.



(** ** The endpoints *)

(** X18.  [POST /analyze-pr], up to the commit of the new row: a request
    whose URL does not contain "github.com", or whose pull-request number
    is not positive, is rejected with a 400 and the state is left as it
    was; when a check or the insert fails, the table and the history of
    commits are as before and no task is executed.  When the row is
    committed, the request had passed both checks, the identifier was
    free, and exactly one row has been added: pending, with the URL and
    the number of the request. *)
Theorem analyze_pr_endpoint_validation
    {World : Type} (E : Env World) (request : main.AnalyzePRRequest)
    (deliveries : nat) (st : TaskState World) :
  let run := main.analyze_pr E request st in
  let valid :=
    str_contains "github.com" (main.req_repo_url request) &&
    (0 <? main.req_pr_number request) in
  match run.1 with
  | Raise e =>
      db run.2 = db st /\ history run.2 = history st /\
      calls (svc run.2) = calls (svc st) /\
      main.job E deliveries request st = (Raise e, run.2) /\
      (valid = false ->
       run.2 = st /\
       (e = main.HTTPException 400 "Invalid GitHub repository URL" \/
        e = main.HTTPException 400 "PR number must be positive"))
  | Ok id =>
      valid = true /\ db st !! id = None /\
      exists row,
        db run.2 = <[id := row]> (db st) /\ history run.2 = history st ++ [row] /\
        status row = "pending" /\ repo_url row = main.req_repo_url request /\
        pr_number row = pretty (main.req_pr_number request)
  end.
Proof.
  intros run valid. subst run valid. unfold main.job.
  rewrite analyze_pr_endpoint_cases.
  destruct (str_contains "github.com" (main.req_repo_url request)) eqn:Hurl; cbn [negb andb].
  2: { cbn [fst snd]. do 4 (split; [done|]). intros _. by split; [|left]. }
  destruct (main.req_pr_number request <=? 0) eqn:Hnum.
  { cbn [fst snd]. do 4 (split; [done|]). intros _. by split; [|right]. }
  assert ((0 <? main.req_pr_number request) = true) as Hpos.
  { apply Z.leb_gt in Hnum. by apply Z.ltb_lt. }
  cbv zeta.
  destruct (db st !! (new_task_id E (world (svc st))).1) eqn:Hfree;
    cbn [fst snd db svc world calls history].
  - do 4 (split; [done|]). intros Hvalid. congruence.
  - split; [done|]. split; [done|]. eexists. split; [reflexivity|]. done.
Qed.

(** X19.  A job that has just been submitted is visible at the status
    endpoint: it answers, without changing anything, with the
    identifier returned by the submission, status pending, and the URL and
    the number of the request. *)
Theorem submitted_job_is_pending
    {World : Type} (E : Env World) (request : main.AnalyzePRRequest)
    (st st' : TaskState World) (id : string) :
  main.analyze_pr E request st = (Ok id, st') ->
  exists body,
    main.get_status id st' = (Ok body, st') /\
    main.st_task_id body = id /\
    main.st_status body = "pending" /\
    main.st_repo_url body = main.req_repo_url request /\
    main.st_pr_number body = pretty (main.req_pr_number request) /\
    str_contains "github.com" (main.st_repo_url body) = true.
Proof.
  rewrite analyze_pr_endpoint_cases.
  destruct (str_contains "github.com" (main.req_repo_url request)) eqn:Hurl; cbn [negb];
    [|done].
  destruct (_ <=? 0); [done|]. cbv zeta.
  destruct (db st !! (new_task_id E (world (svc st))).1) eqn:Hfree; [done|].
  intros [= <- <-]. unfold main.get_status, bind, query_first.
  cbn [db svc world calls history]. rewrite lookup_insert_eq.
  eexists. split; [reflexivity|]. done.
Qed.

Lemma submitted_job_is_pending_witness :
  let run := main.analyze_pr Fixtures.two_agents Fixtures.request Fixtures.start in
  exists body,
    main.get_status "task-0" run.2 = (Ok body, run.2) /\
    main.st_task_id body = "task-0" /\
    main.st_status body = "pending" /\
    main.st_repo_url body = "https://github.com/acme/widgets" /\
    main.st_pr_number body = "42" /\
    str_contains "github.com" (main.st_repo_url body) = true.
Proof.
  intros run.
  apply (submitted_job_is_pending Fixtures.two_agents Fixtures.request
           Fixtures.start run.2 "task-0").
  vm_compute. reflexivity.
Defined.

(** X20.  The status and the results endpoint change nothing.  For an
    identifier without a row both fail with a 404 that names the
    identifier.  For one with a row the status endpoint succeeds; the
    results endpoint succeeds too, and agrees with it on the identifier,
    the status and the two timestamps of the row, unless the row has a
    non-empty payload on which the parser raises something other than a
    [JSONDecodeError]: with that exception the request fails. *)
Theorem status_and_results_are_read_only
    {World : Type} {Json : Type} (json_loads : string -> Result Json)
    (id : string) (st : TaskState World) :
  let status_run := main.get_status id st in
  let results_run := main.get_results json_loads id st in
  status_run.2 = st /\ results_run.2 = st /\
  match db st !! id with
  | None =>
      status_run.1 = Raise (main.HTTPException 404 ("Task " +:+ id +:+ " not found")) /\
      results_run.1 = Raise (main.HTTPException 404 ("Task " +:+ id +:+ " not found"))
  | Some task =>
      (exists sbody,
         status_run.1 = Ok sbody /\
         main.st_task_id sbody = task_id task /\
         main.st_status sbody = status task /\
         main.st_created_at sbody = created_at task /\
         main.st_updated_at sbody = updated_at task) /\
      match results_run.1 with
      | Ok rbody =>
          main.res_task_id rbody = task_id task /\
          main.res_status rbody = status task /\
          main.res_created_at rbody = created_at task /\
          main.res_updated_at rbody = updated_at task
      | Raise e =>
          exists payload,
            results task = Some payload /\ payload <> "" /\
            json_loads payload = Raise e /\ main.is_JSONDecodeError e = false
      end
  end.
Proof.
  intros status_run results_run. subst status_run results_run.
  unfold main.get_status, main.get_results, bind, query_first, raise, ret.
  destruct (db st !! id) as [task|]; [|done].
  assert (forall r : Result (main.ResultsBody (Json := Json)),
            match r with
            | Ok rbody =>
                main.res_task_id rbody = task_id task /\
                main.res_status rbody = status task /\
                main.res_created_at rbody = created_at task /\
                main.res_updated_at rbody = updated_at task
            | Raise e =>
                exists payload,
                  results task = Some payload /\ payload <> "" /\
                  json_loads payload = Raise e /\ main.is_JSONDecodeError e = false
            end ->
            (Ok {| main.st_task_id := task_id task; main.st_status := status task;
                   main.st_created_at := created_at task;
                   main.st_updated_at := updated_at task;
                   main.st_repo_url := repo_url task;
                   main.st_pr_number := pr_number task |}, st).2 = st /\
            (r, st).2 = st /\
            (exists sbody,
               (Ok {| main.st_task_id := task_id task; main.st_status := status task;
                      main.st_created_at := created_at task;
                      main.st_updated_at := updated_at task;
                      main.st_repo_url := repo_url task;
                      main.st_pr_number := pr_number task |}, st).1 = Ok sbody /\
               main.st_task_id sbody = task_id task /\
               main.st_status sbody = status task /\
               main.st_created_at sbody = created_at task /\
               main.st_updated_at sbody = updated_at task) /\
            match (r, st).1 with
            | Ok rbody =>
                main.res_task_id rbody = task_id task /\
                main.res_status rbody = status task /\
                main.res_created_at rbody = created_at task /\
                main.res_updated_at rbody = updated_at task
            | Raise e =>
                exists payload,
                  results task = Some payload /\ payload <> "" /\
                  json_loads payload = Raise e /\ main.is_JSONDecodeError e = false
            end) as Hshape.
  { intros r Hr. split; [done|]. split; [done|]. split; [|done].
    eexists. split; [reflexivity|]. done. }
  destruct (results task) as [payload|] eqn:Hres; [|by apply Hshape].
  destruct (len payload =? 0) eqn:Hlen; cbn [negb]; [by apply Hshape|].
  assert (payload <> "") as Hne by (by intros ->).
  destruct (json_loads payload) as [value|e] eqn:Hparse; [by apply Hshape|].
  destruct (main.is_JSONDecodeError e) eqn:Hclass; [by apply Hshape|].
  apply Hshape. by exists payload.
Qed.

(** ** The agents *)

Lemma find_append c pre rest :
  Agent.find c pre = None ->
  Agent.find c (pre +:+ String c rest) = Some (String.length pre).
Proof.
  induction pre as [|d pre IH]; simpl.
  - intros _. by rewrite Ascii.eqb_refl.
  - destruct (Ascii.eqb d c); [done|].
    destruct (Agent.find c pre); [done|]. intros _. by rewrite IH.
Qed.

Lemma rfind_append c a post :
  Agent.rfind c post = None ->
  Agent.rfind c (a +:+ String c post) = Some (String.length a).
Proof.
  intros Hpost. induction a as [|d a IH]; simpl.
  - by rewrite Hpost, Ascii.eqb_refl.
  - by rewrite IH.
Qed.

Lemma json_candidate_wrapped pre mid post :
  Agent.find "[" pre = None ->
  Agent.rfind "]" post = None ->
  Agent.json_candidate (pre +:+ "[" +:+ mid +:+ "]" +:+ post) =
  Some ("[" +:+ mid +:+ "]").
Proof.
  intros Hpre Hpost. unfold Agent.json_candidate.
  change (pre +:+ "[" +:+ mid +:+ "]" +:+ post)
    with (pre +:+ String "[" (mid +:+ String "]" post)) at 1.
  rewrite (find_append _ _ _ Hpre).
  assert (pre +:+ "[" +:+ mid +:+ "]" +:+ post =
          (pre +:+ String "[" mid) +:+ String "]" post) as Hsplit.
  { by rewrite append_assoc. }
  rewrite Hsplit at 1. rewrite (rfind_append _ _ _ Hpost), length_append.
  f_equal. unfold Agent.slice. rewrite str_drop_append.
  assert ("[" +:+ mid +:+ "]" +:+ post = ("[" +:+ mid +:+ "]") +:+ post) as ->
    by (by rewrite !append_assoc).
  assert (String.length pre + String.length (String "[" mid) + 1 - String.length pre =
          String.length ("[" +:+ mid +:+ "]"))%nat as ->.
  { rewrite !length_append. simpl. lia. }
  apply str_take_append.
Qed.

Lemma is_space_not_bracket c :
  Agent.is_space c = true -> Ascii.eqb c "[" = false /\ Ascii.eqb c "]" = false.
Proof.
  intros Hc. split.
  - destruct (Ascii.eqb c "[") eqn:Heq; [|done]. apply Ascii.eqb_eq in Heq. by subst c.
  - destruct (Ascii.eqb c "]") eqn:Heq; [|done]. apply Ascii.eqb_eq in Heq. by subst c.
Qed.

Lemma json_candidate_cons c r :
  Ascii.eqb c "[" = false -> Ascii.eqb c "]" = false ->
  Agent.json_candidate (String c r) = Agent.json_candidate r.
Proof.
  intros H1 H2. unfold Agent.json_candidate. simpl. rewrite H1, H2.
  destruct (Agent.find "[" r) as [i|]; simpl; [|done].
  by destruct (Agent.rfind "]" r) as [j|].
Qed.

Lemma json_candidate_lstrip s :
  Agent.json_candidate (Agent.lstrip s) = Agent.json_candidate s.
Proof.
  induction s as [|c r IH]; simpl; [done|].
  destruct (Agent.is_space c) eqn:Hc; [|done].
  destruct (is_space_not_bracket c Hc). by rewrite json_candidate_cons.
Qed.

Lemma rstrip_empty_find c s :
  Agent.is_space c = false -> Agent.rstrip s = "" ->
  Agent.find c s = None /\ Agent.rfind c s = None.
Proof.
  intros Hc. induction s as [|d r IH]; simpl; [done|].
  destruct (String.eqb (Agent.rstrip r) "") eqn:Hr; simpl; [|done].
  destruct (Agent.is_space d) eqn:Hd; [|done]. intros _.
  apply String.eqb_eq in Hr. destruct (IH Hr) as [-> ->].
  assert (Ascii.eqb d c = false) as ->; [|done].
  destruct (Ascii.eqb d c) eqn:Heq; [|done]. apply Ascii.eqb_eq in Heq. congruence.
Qed.

Lemma find_rstrip c s :
  Agent.is_space c = false ->
  Agent.find c (Agent.rstrip s) = Agent.find c s /\
  Agent.rfind c (Agent.rstrip s) = Agent.rfind c s.
Proof.
  intros Hc. induction s as [|d r [IH1 IH2]]; [done|].
  cbn [Agent.rstrip].
  destruct (String.eqb (Agent.rstrip r) "" && Agent.is_space d) eqn:Hcut.
  - apply andb_true_iff in Hcut as [Hr%String.eqb_eq Hd].
    assert (Agent.rstrip (String d r) = "") as Hall.
    { cbn [Agent.rstrip]. by rewrite Hr, Hd. }
    destruct (rstrip_empty_find c (String d r) Hc Hall) as [-> ->]. done.
  - simpl. by rewrite IH1, IH2.
Qed.

Lemma rstrip_prefix s : exists t, s = Agent.rstrip s +:+ t.
Proof.
  induction s as [|d r [t Ht]]; [by exists ""|].
  cbn [Agent.rstrip].
  destruct (String.eqb (Agent.rstrip r) "" && Agent.is_space d).
  - by exists (String d r).
  - exists t. rewrite append_cons. by f_equal.
Qed.

Lemma rfind_lt c s j : Agent.rfind c s = Some j -> (j < String.length s)%nat.
Proof.
  revert j. induction s as [|d r IH]; intros j; simpl; [done|].
  destruct (Agent.rfind c r) as [i|].
  - intros [= <-]. specialize (IH i eq_refl). lia.
  - destruct (Ascii.eqb d c); [|done]. intros [= <-]. lia.
Qed.

Lemma str_take_drop_append a t :
  forall i n, (i + n <= String.length a)%nat ->
    str_take n (str_drop i (a +:+ t)) = str_take n (str_drop i a).
Proof.
  induction a as [|d a IH]; intros i n Hle; simpl in Hle.
  - assert (i = 0 /\ n = 0)%nat as [-> ->] by lia. done.
  - destruct i as [|i]; simpl.
    + destruct n as [|n]; simpl; [done|]. f_equal.
      apply (IH 0%nat n). simpl. lia.
    + apply IH. lia.
Qed.

Lemma json_candidate_rstrip s :
  Agent.json_candidate (Agent.rstrip s) = Agent.json_candidate s.
Proof.
  unfold Agent.json_candidate.
  destruct (find_rstrip "[" s eq_refl) as [-> _].
  destruct (find_rstrip "]" s eq_refl) as [_ Hr].
  destruct (Agent.find "[" s) as [i|]; [|done].
  destruct (Agent.rfind "]" (Agent.rstrip s)) as [j|] eqn:Hj; rewrite <- Hr; [|done].
  f_equal. unfold Agent.slice. apply rfind_lt in Hj.
  destruct (rstrip_prefix s) as [t Ht].
  transitivity (str_take (j + 1 - i) (str_drop i (Agent.rstrip s +:+ t)));
    [|by rewrite <- Ht].
  destruct (j + 1 - i)%nat as [|n] eqn:Hn.
  - by destruct (str_drop i _), (str_drop i _).
  - symmetry. apply str_take_drop_append. lia.
Qed.

Lemma json_candidate_strip s :
  Agent.json_candidate (Agent.strip s) = Agent.json_candidate s.
Proof. unfold Agent.strip. by rewrite json_candidate_rstrip, json_candidate_lstrip. Qed.

(** X4.  An agent's [analyze] never raises, whatever the model answers
    and whatever the parser makes of it, and it does nothing but the one
    invocation of the model.  It returns elements only when the model
    answered with a text that has both brackets and whose part from the
    first '[' to the last ']' parses - they are then the parsed list;
    stripping the text makes no difference to that part.  In every other
    case - the model raises, a bracket is missing, the parser raises
    whatever exception - it returns the empty list. *)
Theorem agent_analyze_never_raises
    {World : Type}
    (llm_invoke : AgentKind -> string -> string -> World -> Result string * World)
    (json_loads : string -> Result (list Element))
    (agent : AgentKind) (code filename : string) (s : Svc World) :
  let run := Agent.analyze llm_invoke json_loads agent code filename s in
  let answer := llm_invoke agent filename code (world s) in
  run.2 = mkSvc answer.2 (calls s) /\
  run.1 = Ok match answer.1 with
             | Ok content =>
                 match Agent.json_candidate content with
                 | Some json_str =>
                     match json_loads json_str with
                     | Ok parsed => parsed
                     | Raise _ => []
                     end
                 | None => []
                 end
             | Raise _ => []
             end.
Proof.
  intros run answer. subst run answer.
  unfold Agent.analyze, try_except, Agent.analyze_try, bind, ask, raise, ret, lift.
  destruct (llm_invoke agent filename code (world s)) as [[content|e] w];
    cbn [fst snd]; [|done].
  rewrite json_candidate_strip.
  destruct (Agent.json_candidate content) as [json_str|]; [|done].
  by destruct (json_loads json_str).
Qed.

(** X5.  When the model wraps the array in other text - prose, a code
    fence, blank lines - [analyze] still finds it: for an answer that
    consists of a text without '[', the array, and a text without ']',
    what is parsed is exactly the array. *)
Theorem agent_reads_wrapped_array
    {World : Type}
    (llm_invoke : AgentKind -> string -> string -> World -> Result string * World)
    (json_loads : string -> Result (list Element))
    (agent : AgentKind) (code filename : string) (s : Svc World)
    (pre mid post : string) (w : World) :
  llm_invoke agent filename code (world s) =
    (Ok (pre +:+ "[" +:+ mid +:+ "]" +:+ post), w) ->
  Agent.find "[" pre = None ->
  Agent.rfind "]" post = None ->
  Agent.analyze llm_invoke json_loads agent code filename s =
  (Ok match json_loads ("[" +:+ mid +:+ "]") with
      | Ok parsed => parsed
      | Raise _ => []
      end,
   mkSvc w (calls s)).
Proof.
  intros Hanswer Hpre Hpost.
  unfold Agent.analyze, try_except, Agent.analyze_try, bind, ask, raise, ret, lift.
  rewrite Hanswer, json_candidate_strip, json_candidate_wrapped by done.
  by destruct (json_loads _).
Qed.

Lemma agent_reads_wrapped_array_witness :
  Agent.analyze Fixtures.chatty_model Fixtures.toy_issue_loads StyleAgent
    "print(1)" "main.py" (svc Fixtures.start) =
  (Ok [Object ∅], svc Fixtures.start).
Proof.
  apply (agent_reads_wrapped_array Fixtures.chatty_model Fixtures.toy_issue_loads
           StyleAgent "print(1)" "main.py" (svc Fixtures.start)
           "Sure, here it is: " "{}" " Anything else?" (Fixtures.mkScript 0 0 0));
    reflexivity.
Defined.
